(** * Audio transcriber: a shallow embedding of [src/App.tsx] and
    [src/services/geminiService.ts]

  Definitions come first, in the order of the source:

  - [Js]: thrown values, the result of a call that may throw, loops;
  - [Buffers]: [ArrayBuffer], [DataView] setters and getters, [Int16Array];
  - [Wav]: [createWavBlob] (App.tsx, lines 30-64);
  - [WavLayout]: the canonical WAV layout, as a reader decodes it;
  - [Base64]: [atob], [decode] (App.tsx, lines 19-27), and the RFC 4648
    encoder the round trip is stated against;
  - [Eff], [Gemini]: [getGenAI], [generateTranscriptFromAudio],
    [generateSpeechFromText] (geminiService.ts);
  - [App]: the component state, [fileToBase64], [handleFileChange],
    [handleProcessAudio], and sequences of user actions;
  - [RunModel], [Examples]: the outcome of a run stage by stage, and
    concrete hosts to run the component on;
  - [CodecModel], [AppModel], [Async]: the layout for arbitrary numbers,
    the uploader and the rendered page, and the run cut at its awaits.

  Lemmas follow, then the theorems on the encoder, the decoder, the
  transcription client and the processing run.

  Numbers.  A JavaScript number is modelled as an integer [Z]; every
  [DataView] setter applies the wrap-around of its field width
  (ToUint8, ToUint16, ToUint32), as the language does.  The model is exact
  for integer arguments whose products stay below [2^53] in magnitude;
  theorems on arbitrary numbers carry that bound.

  Time.  [handleProcessAudio] is modelled twice: as one function from the
  state at the click to the state at the end ([App]), and cut at its
  three [await]s, so that a file dropped meanwhile is handled in between
  ([Async]).  The two agree when nothing is dropped.

  Platform.  [DataView], [Int16Array], [Blob], [atob], object URLs, the
  [FileReader] and the provider SDK are not code of the repository; each
  is modelled after its standard behaviour, and the provider and the
  file reader are parameters of the host. *)

From Stdlib Require Import String Ascii ZArith Lia Bool Arith List.
From coqutil Require Import Byte Word.LittleEndianList.
Import ListNotations.

Local Open Scope Z_scope.

(* ===================================================================== *)
(** ** Thrown values and fallible calls *)
(* ===================================================================== *)

Module Js.

(** What a [throw] (or a rejected promise) carries.  [JsError] stands for
    every instance of [Error] ([Error], [RangeError], [DOMException], a
    provider error); [NonError] for any other value, such as the
    [ProgressEvent] a [FileReader] rejects with. *)
Inductive exn : Type :=
| JsError (name message : string)
| NonError (description : string).

Inductive result (A : Type) : Type :=
| Ok (a : A)
| Throw (e : exn).

Arguments Ok {A} a.
Arguments Throw {A} e.

Definition bind {A B} (r : result A) (k : A -> result B) : result B :=
  match r with
  | Ok a => k a
  | Throw e => Throw e
  end.

Definition succeeds {A} (r : result A) : Prop := exists a, r = Ok a.
Definition throws {A} (r : result A) : Prop := exists e, r = Throw e.

(** [for (let i = start; i < start + count; i++) body(i)] over a state. *)
Fixpoint for_range {S : Type} (start : nat) (count : nat)
         (body : nat -> S -> result S) (s : S) : result S :=
  match count with
  | O => Ok s
  | Datatypes.S k => bind (body start s) (for_range (Datatypes.S start) k body)
  end.

End Js.

Import Js.

Declare Scope js_scope.
Delimit Scope js_scope with js.
Notation "x <- c ;; k" := (Js.bind c (fun x => k))
(at level 61, c at next level, right associativity) : js_scope.

(* ===================================================================== *)
(** ** ArrayBuffer, DataView, typed arrays *)
(* ===================================================================== *)

Module Buffers.

Definition ArrayBuffer := list byte.
Definition Uint8Array := list byte.

(** [new ArrayBuffer(n)]: [n] zero bytes. *)
Definition new_ArrayBuffer (n : nat) : ArrayBuffer := repeat Byte.x00 n.

Definition ToUint8 (v : Z) : Z := v mod 2 ^ 8.
Definition ToUint16 (v : Z) : Z := v mod 2 ^ 16.
Definition ToUint32 (v : Z) : Z := v mod 2 ^ 32.

Definition RangeError (message : string) : exn := JsError "RangeError" message.

(** The bytes a [DataView] setter stores for a field of [n] bytes: least
    significant byte first when [littleEndian], last otherwise. *)
Definition field_bytes (n : nat) (v : Z) (littleEndian : bool) : list byte :=
  if littleEndian then le_split n v else rev (le_split n v).

(** Overwrite [length bs] bytes of [buf] from [byteOffset]; a [RangeError]
    when the field does not fit in the buffer. *)
Definition store (buf : ArrayBuffer) (byteOffset : nat) (bs : list byte)
  : result ArrayBuffer :=
  if (byteOffset + length bs <=? length buf)%nat
  then Ok (firstn byteOffset buf ++ bs ++ skipn (byteOffset + length bs) buf)
  else Throw (RangeError "Offset is outside the bounds of the DataView").

Definition setUint8 (buf : ArrayBuffer) (byteOffset : nat) (v : Z) :=
  store buf byteOffset (field_bytes 1 (ToUint8 v) true).

Definition setUint16 (buf : ArrayBuffer) (byteOffset : nat) (v : Z)
           (littleEndian : bool) :=
  store buf byteOffset (field_bytes 2 (ToUint16 v) littleEndian).

Definition setUint32 (buf : ArrayBuffer) (byteOffset : nat) (v : Z)
           (littleEndian : bool) :=
  store buf byteOffset (field_bytes 4 (ToUint32 v) littleEndian).

Definition slice (byteOffset n : nat) (buf : list byte) : list byte :=
  firstn n (skipn byteOffset buf).

(** Read a field of [n] bytes as an unsigned integer. *)
Definition load (buf : list byte) (byteOffset n : nat) (littleEndian : bool)
  : result Z :=
  if (byteOffset + n <=? length buf)%nat
  then Ok (le_combine (if littleEndian then slice byteOffset n buf
                       else rev (slice byteOffset n buf)))
  else Throw (RangeError "Offset is outside the bounds of the DataView").

Definition getUint16 (buf : list byte) (byteOffset : nat) (littleEndian : bool) :=
  load buf byteOffset 2 littleEndian.

Definition getUint32 (buf : list byte) (byteOffset : nat) (littleEndian : bool) :=
  load buf byteOffset 4 littleEndian.

(** [new Int16Array(buffer)]: a view of 16-bit elements over the whole
    buffer.  The constructor throws a [RangeError] when the byte length is
    not a multiple of the element size. *)
Record Int16Array := { i16_buffer : ArrayBuffer; i16_length : nat }.

Definition new_Int16Array (buffer : ArrayBuffer) : result Int16Array :=
  if Nat.even (length buffer)
  then Ok {| i16_buffer := buffer; i16_length := Nat.div (length buffer) 2 |}
  else Throw (RangeError "byte length of Int16Array should be a multiple of 2").

(** [pcmData[i]] on a [Uint8Array], as a number. *)
Definition u8_get (a : Uint8Array) (i : nat) : Z := byte.unsigned (nth i a Byte.x00).

End Buffers.

Import Buffers.

(* ===================================================================== *)
(** ** The WAV encoder *)
(* ===================================================================== *)

Module Wav.

Local Open Scope js_scope.

(** [new Blob([view, pcmInt16], { type })]: the bytes of the parts in
    order, and the media type. *)
Record Blob := { blob_bytes : list byte; blob_type : string }.

(** App.tsx, lines 30-64.  The products are taken in [Z]; the code takes
    them in doubles, which agree as long as the arguments and the products
    are of magnitude below [2^53]. *)
Definition createWavBlob (pcmData : Uint8Array) (sampleRate numChannels : Z)
  : result Blob :=
  dataView <- for_range 0 (length pcmData)
                (fun i dv => setUint8 dv i (u8_get pcmData i))
                (new_ArrayBuffer (length pcmData)) ;;
  pcmInt16 <- new_Int16Array dataView ;;
  let wavHeader := new_ArrayBuffer 44 in
  let numSamples := Z.of_nat (i16_length pcmInt16) in
  let bitsPerSample := 16 in
  let blockAlign := (numChannels * bitsPerSample) / 8 in
  let byteRate := sampleRate * blockAlign in
  let dataSize := numSamples * (bitsPerSample / 8) in
  (* RIFF header *)
  view <- setUint32 wavHeader 0 0x52494646 false ;;
  view <- setUint32 view 4 (36 + dataSize) true ;;
  view <- setUint32 view 8 0x57415645 false ;;
  (* "fmt " sub-chunk *)
  view <- setUint32 view 12 0x666d7420 false ;;
  view <- setUint32 view 16 16 true ;;
  view <- setUint16 view 20 1 true ;;
  view <- setUint16 view 22 numChannels true ;;
  view <- setUint32 view 24 sampleRate true ;;
  view <- setUint32 view 28 byteRate true ;;
  view <- setUint16 view 32 blockAlign true ;;
  view <- setUint16 view 34 bitsPerSample true ;;
  (* "data" sub-chunk *)
  view <- setUint32 view 36 0x64617461 false ;;
  view <- setUint32 view 40 dataSize true ;;
  Ok {| blob_bytes := view ++ i16_buffer pcmInt16; blob_type := "audio/wav" |}.

(** The ASCII codes of a tag such as ["RIFF"]. *)
Definition tag (s : string) : list byte := list_byte_of_string s.

End Wav.

Import Wav.

(* ===================================================================== *)
(** ** The WAV encoder: the layout read back *)
(* ===================================================================== *)

Module WavLayout.

(** The 44 header bytes, field after field, for a payload of [dataSize]
    bytes.  Every numeric field is cut to its width by [le_split]. *)
Definition wav_header (dataSize sampleRate numChannels : Z) : list byte :=
  tag "RIFF" ++ le_split 4 (36 + dataSize) ++ tag "WAVE"
  ++ tag "fmt " ++ le_split 4 16 ++ le_split 2 1
  ++ le_split 2 numChannels ++ le_split 4 sampleRate
  ++ le_split 4 (sampleRate * (numChannels * 2))
  ++ le_split 2 (numChannels * 2) ++ le_split 2 16
  ++ tag "data" ++ le_split 4 dataSize.

(** The canonical layout of section 4.2, as a reader decodes it: tags as
    ASCII, numbers as little-endian unsigned integers. *)
Record canonical_layout (P : list byte) (sampleRate numChannels : Z)
       (out : list byte) : Prop := {
  cl_length : length out = (44 + length P)%nat;
  cl_riff : slice 0 4 out = tag "RIFF";
  cl_riff_size : getUint32 out 4 true = Ok (36 + Z.of_nat (length P));
  cl_wave : slice 8 4 out = tag "WAVE";
  cl_fmt : slice 12 4 out = tag "fmt ";
  cl_fmt_size : getUint32 out 16 true = Ok 16;
  cl_format_tag : getUint16 out 20 true = Ok 1;
  cl_channels : getUint16 out 22 true = Ok numChannels;
  cl_sample_rate : getUint32 out 24 true = Ok sampleRate;
  cl_byte_rate : getUint32 out 28 true = Ok (sampleRate * numChannels * 2);
  cl_block_align : getUint16 out 32 true = Ok (numChannels * 2);
  cl_bits : getUint16 out 34 true = Ok 16;
  cl_data : slice 36 4 out = tag "data";
  cl_data_size : getUint32 out 40 true = Ok (Z.of_nat (length P));
  cl_payload : skipn 44 out = P
}.

(** The chunk structure alone: the four tags, the size of the format
    chunk, the PCM format tag, the sample width, and the two sizes that
    depend on the payload. *)
Record riff_structure (riffSize dataSize : Z) (out : list byte) : Prop := {
  rs_riff : slice 0 4 out = tag "RIFF";
  rs_riff_size : getUint32 out 4 true = Ok riffSize;
  rs_wave : slice 8 4 out = tag "WAVE";
  rs_fmt : slice 12 4 out = tag "fmt ";
  rs_fmt_size : getUint32 out 16 true = Ok 16;
  rs_format_tag : getUint16 out 20 true = Ok 1;
  rs_bits : getUint16 out 34 true = Ok 16;
  rs_data : slice 36 4 out = tag "data";
  rs_data_size : getUint32 out 40 true = Ok dataSize
}.

(** Reading the format back from a container: bytes 24-27, 22-23 and
    34-35, little-endian. *)
Definition header_format (out : list byte) : result (Z * Z * Z) :=
  (sampleRate <- getUint32 out 24 true ;;
   channels <- getUint16 out 22 true ;;
   bitsPerSample <- getUint16 out 34 true ;;
   Ok (sampleRate, channels, bitsPerSample))%js.

(** The payload length the spec asks for: a whole number of frames of
    [bytesPerSample * numChannels] bytes, with [bytesPerSample = 16 / 8]. *)
Definition whole_frames (P : list byte) (numChannels : Z) : Prop :=
  exists frames : Z, Z.of_nat (length P) = frames * ((16 / 8) * numChannels).

(** What a reader of the file finds at each offset, for header fields of
    the right lengths. *)
Record fields_at (out riff size wave fmt fsz fmtTag nch rate brate align bits
                  dat dsz payload : list byte) : Prop := {
  fa_length : length out = (44 + length payload)%nat;
  fa_riff : slice 0 4 out = riff;
  fa_size : getUint32 out 4 true = Ok (le_combine size);
  fa_wave : slice 8 4 out = wave;
  fa_fmt : slice 12 4 out = fmt;
  fa_fsz : getUint32 out 16 true = Ok (le_combine fsz);
  fa_tag : getUint16 out 20 true = Ok (le_combine fmtTag);
  fa_nch : getUint16 out 22 true = Ok (le_combine nch);
  fa_rate : getUint32 out 24 true = Ok (le_combine rate);
  fa_brate : getUint32 out 28 true = Ok (le_combine brate);
  fa_align : getUint16 out 32 true = Ok (le_combine align);
  fa_bits : getUint16 out 34 true = Ok (le_combine bits);
  fa_dat : slice 36 4 out = dat;
  fa_dsz : getUint32 out 40 true = Ok (le_combine dsz);
  fa_payload : skipn 44 out = payload
}.

(** The payload of the spec's example scenario. *)
Definition example_pcm : list byte := [Byte.x01; Byte.x00; Byte.x02; Byte.x00].

End WavLayout.

(* ===================================================================== *)
(** ** Base64: [atob] and [decode] *)
(* ===================================================================== *)

Module Base64.

Local Open Scope js_scope.

(** The code units of a string.  A [string] holds code units up to 255;
    [atob] rejects every code unit above that, so only inputs that throw
    are left out. *)
Definition chars (s : string) : list ascii := list_ascii_of_string s.

(** [s.charCodeAt(i)] for one code unit. *)
Definition code (c : ascii) : Z := byte.unsigned (byte_of_ascii c).

(** ASCII whitespace: TAB, LF, FF, CR, SPACE. *)
Definition is_ascii_whitespace (c : ascii) : bool :=
  let n := code c in
  (n =? 9) || (n =? 10) || (n =? 12) || (n =? 13) || (n =? 32).

(** Table 1 of RFC 4648: the value of a character of the alphabet. *)
Definition b64_value (c : ascii) : option Z :=
  let n := code c in
  if (65 <=? n) && (n <=? 90) then Some (n - 65)
  else if (97 <=? n) && (n <=? 122) then Some (n - 71)
  else if (48 <=? n) && (n <=? 57) then Some (n + 4)
  else if n =? 43 then Some 62
  else if n =? 47 then Some 63
  else None.

Definition in_alphabet (c : ascii) : bool :=
  match b64_value c with Some _ => true | None => false end.

Definition b64_index (c : ascii) : Z :=
  match b64_value c with Some n => n | None => 0 end.

Definition equals_sign : ascii := "="%char.

Definition is_equals (c : ascii) : bool := code c =? 61.

(** "If data ends with one or two U+003D (=) code points, then remove
    them from data." *)
Definition remove_trailing_equals (data : list ascii) : list ascii :=
  match rev data with
  | c1 :: c2 :: r =>
      if is_equals c1
      then (if is_equals c2 then rev r else rev (c2 :: r))
      else data
  | [c1] => if is_equals c1 then [] else data
  | [] => data
  end.

(** The bit buffer of the decoding loop, its bit count, and the output. *)
Record decoder := { buffer : Z; bits : Z; output : list byte }.

(** One turn of the loop: append the six bits of [n]; at 24 bits emit
    three bytes, most significant first, and empty the buffer. *)
Definition push_sextet (st : decoder) (n : Z) : decoder :=
  let buffer' := buffer st * 64 + n in
  let bits' := bits st + 6 in
  if bits' =? 24
  then {| buffer := 0; bits := 0;
          output := output st ++ [byte.of_Z (buffer' / 65536);
                                  byte.of_Z (buffer' / 256);
                                  byte.of_Z buffer'] |}
  else {| buffer := buffer'; bits := bits'; output := output st |}.

(** After the loop: 12 bits give one byte (the last four are dropped),
    18 bits give two (the last two are dropped). *)
Definition flush (st : decoder) : list byte :=
  if bits st =? 12 then output st ++ [byte.of_Z (buffer st / 16)]
  else if bits st =? 18
       then output st ++ [byte.of_Z (buffer st / 1024); byte.of_Z (buffer st / 4)]
       else output st.

Definition InvalidCharacterError : exn :=
  JsError "InvalidCharacterError" "The string to be decoded is not correctly encoded.".

(** The browser's [atob]: the forgiving-base64 decode of the platform,
    step by step.  The result is a binary string, one code unit per byte. *)
Definition atob (data : string) : result string :=
  (* 1. remove all ASCII whitespace *)
  let data := filter (fun c => negb (is_ascii_whitespace c)) (chars data) in
  (* 2. if the length is a multiple of 4, remove one or two trailing "=" *)
  let data := if (length data mod 4 =? 0)%nat
              then remove_trailing_equals data else data in
  (* 3. a length of 4k + 1 is a failure *)
  if (length data mod 4 =? 1)%nat then Throw InvalidCharacterError
  (* 4. so is any code point outside the alphabet *)
  else if negb (forallb in_alphabet data) then Throw InvalidCharacterError
  (* 5-10. the decoding loop *)
  else
    let st := fold_left push_sextet (map b64_index data)
                        {| buffer := 0; bits := 0; output := [] |} in
    Ok (string_of_list_byte (flush st)).

(** [binaryString.charCodeAt(i)]. *)
Definition charCodeAt (s : string) (i : nat) : Z :=
  code (nth i (chars s) zero).

(** [new Uint8Array(len)] and [bytes[i] = v]: the store wraps to a byte,
    and is ignored out of range. *)
Definition new_Uint8Array (len : nat) : Uint8Array := repeat Byte.x00 len.

Definition u8_set (a : Uint8Array) (i : nat) (v : Z) : Uint8Array :=
  if (i <? length a)%nat
  then firstn i a ++ [byte.of_Z (ToUint8 v)] ++ skipn (S i) a
  else a.

(** App.tsx, lines 19-27. *)
Definition decode (base64 : string) : result Uint8Array :=
  binaryString <- atob base64 ;;
  let len := String.length binaryString in
  let bytes := new_Uint8Array len in
  for_range 0 len
    (fun i bytes => Ok (u8_set bytes i (charCodeAt binaryString i)))
    bytes.

(** *** The encoder of RFC 4648, section 4

    Three bytes give four characters; a last group of one or two bytes is
    completed with zero bits and padded with ["="] to four characters. *)

Definition alphabet : string :=
  "ABCDEFGHIJKLMNOPQRSTUVWXYZabcdefghijklmnopqrstuvwxyz0123456789+/".

Definition b64_char (n : Z) : ascii := nth (Z.to_nat n) (chars alphabet) equals_sign.

Fixpoint sextets (B : list byte) : list Z :=
  match B with
  | [] => []
  | [a] =>
      let a := byte.unsigned a in
      [a / 4; (a mod 4) * 16]
  | [a; b] =>
      let a := byte.unsigned a in
      let b := byte.unsigned b in
      [a / 4; (a mod 4) * 16 + b / 16; (b mod 16) * 4]
  | a :: b :: c :: rest =>
      let a := byte.unsigned a in
      let b := byte.unsigned b in
      let c := byte.unsigned c in
      [a / 4; (a mod 4) * 16 + b / 16; (b mod 16) * 4 + c / 64; c mod 64]
        ++ sextets rest
  end.

Definition padding (B : list byte) : list ascii :=
  repeat equals_sign ((3 - length B mod 3) mod 3).

Definition base64_encode (B : list byte) : string :=
  string_of_list_ascii (map b64_char (sextets B) ++ padding B).

(** A character that is neither in the alphabet nor the padding sign. *)
Definition outside_alphabet (c : ascii) : Prop :=
  in_alphabet c = false /\ is_equals c = false.

(** The input as [atob] sees it once whitespace is removed. *)
Definition stripped (s : string) : list ascii :=
  filter (fun c => negb (is_ascii_whitespace c)) (chars s).

(** The check made on each of the 64 characters of the alphabet: it
    decodes to its own index, and is neither whitespace nor padding. *)
Definition sextet_checked (n : Z) : bool :=
  match b64_value (b64_char n) with
  | Some m => m =? n
  | None => false
  end
  && negb (is_ascii_whitespace (b64_char n))
  && negb (is_equals (b64_char n)).

End Base64.

Import Base64.


(* ===================================================================== *)
(** ** Effects: a state that survives a throw *)
(* ===================================================================== *)

Module Eff.

(** A computation over a mutable state [S]: it returns or throws, and in
    both cases leaves a state behind. *)
Definition eff (S A : Type) : Type := S -> result A * S.

Definition ret {S A} (a : A) : eff S A := fun s => (Ok a, s).
Definition throw {S A} (e : exn) : eff S A := fun s => (Throw e, s).
Definition of_result {S A} (r : result A) : eff S A := fun s => (r, s).

Definition ebind {S A B} (c : eff S A) (k : A -> eff S B) : eff S B :=
  fun s =>
    match c s with
    | (Ok a, s') => k a s'
    | (Throw e, s') => (Throw e, s')
    end.

Definition get {S} : eff S S := fun s => (Ok s, s).
Definition modify {S} (f : S -> S) : eff S unit := fun s => (Ok tt, f s).

(** [try { body } catch (err) { handler(err) } finally { cleanup }]. *)
Definition try_catch_finally {S A} (body : eff S A) (handler : exn -> eff S A)
           (cleanup : eff S unit) : eff S A :=
  fun s =>
    let '(r, s1) := match body s with
                    | (Ok a, s') => (Ok a, s')
                    | (Throw e, s') => handler e s'
                    end in
    match cleanup s1 with
    | (Ok _, s2) => (r, s2)
    | (Throw e, s2) => (Throw e, s2)
    end.

End Eff.

Import Eff.

Declare Scope eff_scope.
Delimit Scope eff_scope with eff.
Notation "x <- c ;; k" := (Eff.ebind c (fun x => k))
(at level 61, c at next level, right associativity) : eff_scope.
Notation "c ;; k" := (Eff.ebind c (fun _ => k))
(at level 61, right associativity) : eff_scope.

(* ===================================================================== *)
(** ** The provider client *)
(* ===================================================================== *)

Module Gemini.

Local Open Scope eff_scope.
Local Open Scope string_scope.

(** A value of type [string | undefined]. *)
Definition maybe_string := option string.

(** How a template literal prints such a value. *)
Definition template (v : maybe_string) : string :=
  match v with
  | Some s => s
  | None => "undefined"
  end.

(** Truthiness of a [string | undefined]: present and not empty. *)
Definition truthy (v : maybe_string) : bool :=
  match v with
  | Some s => negb (String.eqb s "")
  | None => false
  end.

(** What [ai.models.generateContent] is called with. *)
Inductive Request : Type :=
| TranscribeRequest (model mimeType : string) (data : maybe_string) (text : string)
| SpeechRequest (model text : string) (responseModalities : list string)
                (voiceName : string).

(** What it resolves to; every level may be absent. *)
Record InlineData := { data : maybe_string }.
Record Part := { inlineData : option InlineData }.
Record Content := { parts : option (list Part) }.
Record Candidate := { content : option Content }.
Record GenerateContentResponse := {
  text : maybe_string;                  (* the SDK's [text] accessor *)
  candidates : option (list Candidate)
}.

(** The process environment and the remote provider.  The provider answers
    a request knowing the calls made before it; it resolves with a response
    or rejects with what it throws. *)
Record Env := {
  API_KEY : maybe_string;
  provider : list Request -> Request -> result GenerateContentResponse
}.

(** The calls that went out, oldest first. *)
Record Network := { calls : list Request }.

Record GoogleGenAI := { apiKey : string }.

(** geminiService.ts, lines 3-8. *)
Definition getGenAI (env : Env) : result GoogleGenAI :=
  if negb (truthy (API_KEY env))
  then Throw (JsError "Error" "API_KEY environment variable not set")
  else Ok {| apiKey := template (API_KEY env) |}.

(** [await ai.models.generateContent(request)]. *)
Definition generateContent (env : Env) (ai : GoogleGenAI) (request : Request)
  : eff Network GenerateContentResponse :=
  fun net => (provider env (calls net) request,
              {| calls := calls net ++ [request] |}).

(** geminiService.ts, lines 10-29. *)
Definition generateTranscriptFromAudio (env : Env)
           (base64AudioData : maybe_string) (mimeType : string)
  : eff Network maybe_string :=
  ai <- of_result (getGenAI env) ;;
  response <- generateContent env ai
                (TranscribeRequest "gemini-2.5-flash" mimeType base64AudioData
                   "Please provide a clean, accurate transcription of the following audio.") ;;
  ret (text response).

(** [a?.[0]] on an optional array. *)
Definition first_of {A} (l : option (list A)) : option A :=
  match l with
  | Some l => nth_error l 0
  | None => None
  end.

Definition andThen {A B} (o : option A) (f : A -> option B) : option B :=
  match o with
  | Some a => f a
  | None => None
  end.

(** [response.candidates?.[0]?.content?.parts?.[0]?.inlineData?.data]. *)
Definition first_inline_data (response : GenerateContentResponse) : maybe_string :=
  andThen (andThen (first_of (andThen (andThen (first_of (candidates response)) content)
                                   parts))
                   inlineData)
          data.

(** geminiService.ts, lines 31-48. *)
Definition generateSpeechFromText (env : Env) (text : maybe_string)
  : eff Network maybe_string :=
  ai <- of_result (getGenAI env) ;;
  response <- generateContent env ai
                (SpeechRequest "gemini-2.5-flash-preview-tts"
                   ("Please say the following: " ++ template text)
                   ["AUDIO"] "Kore") ;;
  let base64Audio := first_inline_data response in
  ret base64Audio.

End Gemini.

Import Gemini.

(* ===================================================================== *)
(** ** The component: state, file selection, the processing run *)
(* ===================================================================== *)

Module App.

Local Open Scope eff_scope.
Local Open Scope string_scope.

Record File := { file_name : string; file_type : string; file_bytes : list byte }.

(** An object URL ("blob:..."), identified by its serial number. *)
Definition ObjectURL := nat.

(** The browser around the component: the network, the object URLs that
    were created and not yet revoked, the next URL to hand out, and what
    was written to the console. *)
Record Browser := {
  net : Network;
  live : list ObjectURL;
  next : ObjectURL;
  console : list exn
}.

(** The host: the provider client's environment, and the outcome of
    [FileReader.readAsDataURL] on a file ([None]: the reader fires
    [onerror]). *)
Record Host := {
  service : Env;
  readAsDataURL : File -> option string
}.

(** The seven [useState] cells of [App] (App.tsx, lines 135-141). *)
Record State := {
  inputAudioFile : option File;
  inputAudioUrl : option ObjectURL;
  transcript : maybe_string;
  outputAudioUrl : option ObjectURL;
  isLoading : bool;
  progressMessage : string;
  error : option string
}.

Definition initial_state : State :=
  {| inputAudioFile := None; inputAudioUrl := None; transcript := Some "";
     outputAudioUrl := None; isLoading := false; progressMessage := "";
     error := None |}.

Record Sys := { ui : State; browser : Browser }.

Definition initial_browser : Browser :=
  {| net := {| calls := [] |}; live := []; next := 0%nat; console := [] |}.

Definition initial : Sys := {| ui := initial_state; browser := initial_browser |}.

(** *** State setters *)

Definition update (f : State -> State) : eff Sys unit :=
  modify (fun s => {| ui := f (ui s); browser := browser s |}).

Definition setInputAudioFile (v : option File) : eff Sys unit :=
  update (fun st =>
    {| inputAudioFile := v; inputAudioUrl := inputAudioUrl st;
       transcript := transcript st; outputAudioUrl := outputAudioUrl st;
       isLoading := isLoading st; progressMessage := progressMessage st;
       error := error st |}).

Definition setInputAudioUrl (v : option ObjectURL) : eff Sys unit :=
  update (fun st =>
    {| inputAudioFile := inputAudioFile st; inputAudioUrl := v;
       transcript := transcript st; outputAudioUrl := outputAudioUrl st;
       isLoading := isLoading st; progressMessage := progressMessage st;
       error := error st |}).

Definition setTranscript (v : maybe_string) : eff Sys unit :=
  update (fun st =>
    {| inputAudioFile := inputAudioFile st; inputAudioUrl := inputAudioUrl st;
       transcript := v; outputAudioUrl := outputAudioUrl st;
       isLoading := isLoading st; progressMessage := progressMessage st;
       error := error st |}).

Definition setOutputAudioUrl (v : option ObjectURL) : eff Sys unit :=
  update (fun st =>
    {| inputAudioFile := inputAudioFile st; inputAudioUrl := inputAudioUrl st;
       transcript := transcript st; outputAudioUrl := v;
       isLoading := isLoading st; progressMessage := progressMessage st;
       error := error st |}).

Definition setIsLoading (v : bool) : eff Sys unit :=
  update (fun st =>
    {| inputAudioFile := inputAudioFile st; inputAudioUrl := inputAudioUrl st;
       transcript := transcript st; outputAudioUrl := outputAudioUrl st;
       isLoading := v; progressMessage := progressMessage st;
       error := error st |}).

Definition setProgressMessage (v : string) : eff Sys unit :=
  update (fun st =>
    {| inputAudioFile := inputAudioFile st; inputAudioUrl := inputAudioUrl st;
       transcript := transcript st; outputAudioUrl := outputAudioUrl st;
       isLoading := isLoading st; progressMessage := v;
       error := error st |}).

Definition setError (v : option string) : eff Sys unit :=
  update (fun st =>
    {| inputAudioFile := inputAudioFile st; inputAudioUrl := inputAudioUrl st;
       transcript := transcript st; outputAudioUrl := outputAudioUrl st;
       isLoading := isLoading st; progressMessage := progressMessage st;
       error := v |}).

(** *** Browser calls *)

Definition with_browser (f : Browser -> Browser) : eff Sys unit :=
  modify (fun s => {| ui := ui s; browser := f (browser s) |}).

(** [URL.createObjectURL(...)]: a fresh URL, live from now on. *)
Definition createObjectURL : eff Sys ObjectURL :=
  fun s =>
    let b := browser s in
    (Ok (next b),
     {| ui := ui s;
        browser := {| net := net b; live := next b :: live b;
                      next := S (next b); console := console b |} |}).

(** [URL.revokeObjectURL(url)]. *)
Definition revokeObjectURL (url : ObjectURL) : eff Sys unit :=
  with_browser (fun b =>
    {| net := net b; live := filter (fun u => negb (Nat.eqb u url)) (live b);
       next := next b; console := console b |}).

Definition console_error (err : exn) : eff Sys unit :=
  with_browser (fun b =>
    {| net := net b; live := live b; next := next b;
       console := console b ++ [err] |}).

(** Run a provider call on the browser's network. *)
Definition on_network {A} (c : eff Network A) : eff Sys A :=
  fun s =>
    let b := browser s in
    let '(r, n) := c (net b) in
    (r, {| ui := ui s;
           browser := {| net := n; live := live b; next := next b;
                         console := console b |} |}).

(** *** Helpers of App.tsx *)

(** [s.split(',')]. *)
Fixpoint split_comma (s : string) : list string :=
  match s with
  | EmptyString => [EmptyString]
  | String c rest =>
      if Ascii.eqb c ","%char then EmptyString :: split_comma rest
      else match split_comma rest with
           | piece :: pieces => String c piece :: pieces
           | [] => [String c EmptyString]
           end
  end.

(** App.tsx, lines 6-16.  The promise resolves with the part of the data
    URL between the first and the second comma, and the file's type; it
    rejects with the reader's error event. *)
Definition fileToBase64 (host : Host) (file : File)
  : eff Sys (maybe_string * string) :=
  match readAsDataURL host file with
  | Some result =>
      let data := nth_error (split_comma result) 1 in
      ret (data, file_type file)
  | None => throw (NonError "ProgressEvent")
  end.

(** [err instanceof Error ? err.message : 'An unknown error occurred.'] *)
Definition message_of (err : exn) : string :=
  match err with
  | JsError _ message => message
  | NonError _ => "An unknown error occurred."
  end.

(** *** The two handlers *)

(** App.tsx, lines 143-157. *)
Definition handleFileChange (file : File) : eff Sys unit :=
  s <- get ;;
  match inputAudioUrl (ui s) with
  | Some url => revokeObjectURL url
  | None => ret tt
  end ;;
  match outputAudioUrl (ui s) with
  | Some url => revokeObjectURL url
  | None => ret tt
  end ;;
  setInputAudioFile (Some file) ;;
  newAudioUrl <- createObjectURL ;;
  setInputAudioUrl (Some newAudioUrl) ;;
  setTranscript (Some "") ;;
  setOutputAudioUrl None ;;
  setError None.

(** The [try] block of [handleProcessAudio], lines 170-186. *)
Definition process_steps (host : Host) (inputAudioFile : File) : eff Sys unit :=
  r <- fileToBase64 host inputAudioFile ;;
  let '(audioData, mimeType) := r in
  setProgressMessage "Generating transcript..." ;;
  generatedTranscript <-
    on_network (generateTranscriptFromAudio (service host) audioData mimeType) ;;
  setTranscript generatedTranscript ;;
  setProgressMessage "Synthesizing audio..." ;;
  synthesizedAudioData <-
    on_network (generateSpeechFromText (service host) generatedTranscript) ;;
  if truthy synthesizedAudioData then
    setProgressMessage "Processing audio..." ;;
    pcmData <- of_result (decode (template synthesizedAudioData)) ;;
    wavBlob <- of_result (createWavBlob pcmData 24000 1) ;;
    newAudioUrl <- createObjectURL ;;
    setOutputAudioUrl (Some newAudioUrl)
  else
    throw (JsError "Error" "Failed to generate audio data.").

(** App.tsx, lines 160-196. *)
Definition handleProcessAudio (host : Host) : eff Sys unit :=
  s <- get ;;
  match inputAudioFile (ui s) with
  | None => ret tt
  | Some inputAudioFile =>
      setIsLoading true ;;
      setError None ;;
      setTranscript (Some "") ;;
      setOutputAudioUrl None ;;
      setProgressMessage "Reading audio file..." ;;
      try_catch_finally
        (process_steps host inputAudioFile)
        (fun err =>
           let errorMessage := message_of err in
           setError (Some ("Processing failed: " ++ errorMessage)) ;;
           console_error err)
        (setIsLoading false ;;
         setProgressMessage "")
  end.

(** *** Sequences of user actions

    Actions handled one after the other, each to completion on the state
    the previous one left.  These are the histories in which nothing
    happens while a processing run is in flight; a file dropped on the
    uploader during a run (its [handleDrop] does not read [disabled]) is
    the subject of [Async] below. *)
Inductive Event : Type :=
| SelectFile (file : File)
| ProcessAudio.

Definition handle (host : Host) (ev : Event) : eff Sys unit :=
  match ev with
  | SelectFile file => handleFileChange file
  | ProcessAudio => handleProcessAudio host
  end.

Definition run (host : Host) (evs : list Event) (s : Sys) : Sys :=
  fold_left (fun s ev => snd (handle host ev s)) evs s.

(** The URLs the state still refers to, and the live ones it does not. *)
Definition in_use (st : State) (url : ObjectURL) : bool :=
  match inputAudioUrl st with Some u => Nat.eqb u url | None => false end
  || match outputAudioUrl st with Some u => Nat.eqb u url | None => false end.

Definition leaked (s : Sys) : list ObjectURL :=
  filter (fun url => negb (in_use (ui s) url)) (live (browser s)).

End App.

Import App.

(* ===================================================================== *)
(** ** The processing run, by the outcome of its stages *)
(* ===================================================================== *)

Module RunModel.

Local Open Scope string_scope.

(** The state a run ends in: what the [try] block reached, then the
    [catch] and [finally] blocks. *)
Definition ended (st : State) (t : maybe_string) (out : option ObjectURL)
           (err : option string) : State :=
  {| inputAudioFile := inputAudioFile st; inputAudioUrl := inputAudioUrl st;
     transcript := t; outputAudioUrl := out; isLoading := false;
     progressMessage := ""; error := err |}.

Definition failure_text (e : exn) : option string :=
  Some ("Processing failed: " ++ message_of e).

Definition with_net (b : Browser) (n : Network) : Browser :=
  {| net := n; live := live b; next := next b; console := console b |}.

Definition logged (b : Browser) (e : exn) : Browser :=
  {| net := net b; live := live b; next := next b; console := console b ++ [e] |}.

Definition allocated (b : Browser) : Browser :=
  {| net := net b; live := next b :: live b; next := S (next b);
     console := console b |}.

(** A run that failed with [e] after the network reached [n], holding
    transcript [t]. *)
Definition failed (s : Sys) (t : maybe_string) (n : Network) (e : exn) : Sys :=
  {| ui := ended (ui s) t None (failure_text e);
     browser := logged (with_net (browser s) n) e |}.

(** What the run with [file] selected does, by the outcome of each stage. *)
Definition run_outcome (host : Host) (file : File) (s : Sys) : Sys :=
  match readAsDataURL host file with
  | None => failed s (Some "") (net (browser s)) (NonError "ProgressEvent")
  | Some url =>
      match generateTranscriptFromAudio (service host)
              (nth_error (split_comma url) 1) (file_type file) (net (browser s)) with
      | (Throw e, n1) => failed s (Some "") n1 e
      | (Ok t, n1) =>
          match generateSpeechFromText (service host) t n1 with
          | (Throw e, n2) => failed s t n2 e
          | (Ok audio, n2) =>
              if truthy audio then
                match decode (template audio) with
                | Throw e => failed s t n2 e
                | Ok pcm =>
                    match createWavBlob pcm 24000 1 with
                    | Throw e => failed s t n2 e
                    | Ok _ =>
                        {| ui := ended (ui s) t (Some (next (browser s))) None;
                           browser := allocated (with_net (browser s) n2) |}
                    end
                end
              else failed s t n2 (JsError "Error" "Failed to generate audio data.")
          end
      end
  end.

(** The transcript the run with [file] obtains, when it gets that far:
    the file is read and the transcription call returns. *)
Definition transcript_obtained (host : Host) (file : File) (s : Sys)
  : option maybe_string :=
  match readAsDataURL host file with
  | None => None
  | Some url =>
      match fst (generateTranscriptFromAudio (service host)
                   (nth_error (split_comma url) 1) (file_type file)
                   (net (browser s))) with
      | Ok t => Some t
      | Throw _ => None
      end
  end.

(** The request [generateTranscriptFromAudio] sends. *)
Definition transcribe_request (data : maybe_string) (mimeType : string) : Request :=
  TranscribeRequest "gemini-2.5-flash" mimeType data
    "Please provide a clean, accurate transcription of the following audio.".

(** The request [generateSpeechFromText] sends. *)
Definition speech_request (text : maybe_string) : Request :=
  SpeechRequest "gemini-2.5-flash-preview-tts"
    ("Please say the following: " ++ template text) ["AUDIO"] "Kore".

Definition sent (n : Network) (request : Request) : Network :=
  {| calls := calls n ++ [request] |}.

Definition missing_key : exn := JsError "Error" "API_KEY environment variable not set".

End RunModel.

Import RunModel.

(* ===================================================================== *)
(** ** Concrete hosts, to run the component on *)
(* ===================================================================== *)

Module Examples.

Local Open Scope string_scope.

Definition clip : File :=
  {| file_name := "clip.mp3"; file_type := "audio/mpeg";
     file_bytes := [Byte.x00; Byte.x00; Byte.x00] |}.

Definition reader (file : File) : option string :=
  Some ("data:" ++ file_type file ++ ";base64,AAAA").

Definition transcript_response (t : maybe_string) : GenerateContentResponse :=
  {| text := t; candidates := None |}.

Definition audio_response (base64 : string) : GenerateContentResponse :=
  {| text := None;
     candidates :=
       Some [ {| content :=
                   Some {| parts :=
                             Some [ {| inlineData :=
                                         Some {| data := Some base64 |} |} ] |} |} ] |}.

(** A response with a candidate and no part in it. *)
Definition no_audio_response : GenerateContentResponse :=
  {| text := None; candidates := Some [ {| content := Some {| parts := Some [] |} |} ] |}.

(** A provider that transcribes to ["hello"] and synthesizes the four
    PCM bytes 01 00 02 00. *)
Definition good_provider (_ : list Request) (request : Request)
  : result GenerateContentResponse :=
  match request with
  | TranscribeRequest _ _ _ _ => Ok (transcript_response (Some "hello"))
  | SpeechRequest _ _ _ _ => Ok (audio_response "AQACAA==")
  end.

(** A provider that transcribes and then returns no audio. *)
Definition silent_provider (_ : list Request) (request : Request)
  : result GenerateContentResponse :=
  match request with
  | TranscribeRequest _ _ _ _ => Ok (transcript_response (Some "hello"))
  | SpeechRequest _ _ _ _ => Ok no_audio_response
  end.

(** A provider whose transcription response carries no text. *)
Definition empty_provider (_ : list Request) (request : Request)
  : result GenerateContentResponse :=
  Ok (transcript_response None).

(** A provider that rejects every call. *)
Definition failing_provider (_ : list Request) (_ : Request)
  : result GenerateContentResponse :=
  Throw (JsError "ApiError" "fetch failed").


Definition host_of (key : maybe_string)
           (p : list Request -> Request -> result GenerateContentResponse) : Host :=
  {| service := {| API_KEY := key; provider := p |}; readAsDataURL := reader |}.

Definition good_host : Host := host_of (Some "secret") good_provider.
Definition silent_host : Host := host_of (Some "secret") silent_provider.
Definition empty_host : Host := host_of (Some "secret") empty_provider.
Definition keyless_host : Host := host_of None good_provider.

Definition no_calls : Network := {| calls := [] |}.

(** The state after a file was selected on a fresh page. *)
Definition selected (host : Host) : Sys := run host [SelectFile clip] initial.

End Examples.

Import Examples.

(* ===================================================================== *)
(** ** More on the two codecs: what a reader and a caller can rely on *)
(* ===================================================================== *)

Module CodecModel.

(** The layout for arbitrary numbers: every numeric field holds its value
    cut to the width of the field. *)
Record wrapped_layout (P : list byte) (sampleRate numChannels : Z)
       (out : list byte) : Prop := {
  wl_length : length out = (44 + length P)%nat;
  wl_riff : slice 0 4 out = tag "RIFF";
  wl_riff_size : getUint32 out 4 true = Ok (ToUint32 (36 + Z.of_nat (length P)));
  wl_wave : slice 8 4 out = tag "WAVE";
  wl_fmt : slice 12 4 out = tag "fmt ";
  wl_fmt_size : getUint32 out 16 true = Ok 16;
  wl_format_tag : getUint16 out 20 true = Ok 1;
  wl_channels : getUint16 out 22 true = Ok (ToUint16 numChannels);
  wl_sample_rate : getUint32 out 24 true = Ok (ToUint32 sampleRate);
  wl_byte_rate : getUint32 out 28 true = Ok (ToUint32 (sampleRate * numChannels * 2));
  wl_block_align : getUint16 out 32 true = Ok (ToUint16 (numChannels * 2));
  wl_bits : getUint16 out 34 true = Ok 16;
  wl_data : slice 36 4 out = tag "data";
  wl_data_size : getUint32 out 40 true = Ok (ToUint32 (Z.of_nat (length P)));
  wl_payload : skipn 44 out = P
}.

(** The arguments on which the integer arithmetic of the model is that of
    the code: the code computes in IEEE doubles, which are exact on
    integers of magnitude below [2^53].  Both arguments and every product
    [createWavBlob] forms ([numChannels * 16], [sampleRate * blockAlign]
    and [36 + dataSize]) stay in that range. *)
Record exact_numbers (P : list byte) (sampleRate numChannels : Z) : Prop := {
  en_rate : Z.abs sampleRate < 2 ^ 53;
  en_block : Z.abs (numChannels * 16) < 2 ^ 53;
  en_byte_rate : Z.abs (sampleRate * (numChannels * 2)) < 2 ^ 53;
  en_size : 36 + Z.of_nat (length P) < 2 ^ 53
}.

(** The decoding loop starts on an empty buffer. *)
Definition start : decoder := {| buffer := 0; bits := 0; output := [] |}.

(** The characters [atob] decodes: the input without ASCII whitespace and
    without the one or two trailing ["="] it removes. *)
Definition payload_chars (s : string) : list ascii :=
  let data := stripped s in
  if (length data mod 4 =? 0)%nat then remove_trailing_equals data else data.

(** The RFC 4648 encoding without its padding. *)
Definition base64_encode_unpadded (B : list byte) : string :=
  string_of_list_ascii (map b64_char (sextets B)).

(** Lines 180-181 of [handleProcessAudio] on their own: decode the
    provider's audio, then wrap it. *)
Definition decode_then_wrap (base64 : string) : result Blob :=
  (pcmData <- decode base64 ;;
   createWavBlob pcmData 24000 1)%js.

End CodecModel.

Import CodecModel.

(* ===================================================================== *)
(** ** More on the component: the uploader, what is rendered, invariants *)
(* ===================================================================== *)

Module AppModel.

Local Open Scope eff_scope.
Local Open Scope string_scope.

(** A string without [","]. *)
Definition comma_free (s : string) : Prop :=
  Forall (fun c => Ascii.eqb c ","%char = false) (chars s).

(** The data URL a [FileReader] hands to [onload]: the media type, the
    base64 marker, and the RFC 4648 encoding of the file's bytes. *)
Definition data_url (file : File) : string :=
  "data:" ++ file_type file ++ ";base64," ++ base64_encode (file_bytes file).

(** A list of live URLs once [url] (when there is one) is revoked. *)
Definition revoked (url : option ObjectURL) (l : list ObjectURL) : list ObjectURL :=
  match url with
  | Some u => filter (fun v => negb (Nat.eqb v u)) l
  | None => l
  end.

(** *** The uploader (App.tsx, lines 89-132) *)

Record FileUploaderProps := {
  onFileSelect : File -> eff Sys unit;
  disabled : bool
}.

(** [e.dataTransfer.files] or [e.target.files]: a list of files, or null. *)
Definition FileList := option (list File).

(** Lines 96-101: [if (files && files[0]) onFileSelect(files[0])]. *)
Definition handleDrop (props : FileUploaderProps) (files : FileList) : eff Sys unit :=
  match first_of files with
  | Some file => onFileSelect props file
  | None => ret tt
  end.

(** Lines 103-107. *)
Definition handleChange (props : FileUploaderProps) (files : FileList) : eff Sys unit :=
  match first_of files with
  | Some file => onFileSelect props file
  | None => ret tt
  end.

(** Line 214: [<FileUploader onFileSelect={handleFileChange}
    disabled={isLoading} />]. *)
Definition uploader (s : Sys) : FileUploaderProps :=
  {| onFileSelect := handleFileChange; disabled := isLoading (ui s) |}.

(** *** What [App] renders (App.tsx, lines 198-271) *)

Definition present {A} (o : option A) : bool :=
  match o with Some _ => true | None => false end.

(** The second section: the preview of the upload, the button and its
    state, and the progress line under it. *)
Record PreviewSection := {
  previewSrc : ObjectURL;
  buttonDisabled : bool;
  spinner : bool;
  progressLine : option string
}.

(** The third section: the transcript in quotes and, when there is an
    output URL, the player. *)
Record ResultsSection := {
  transcriptText : string;
  playerSrc : option ObjectURL
}.

Record Screen := {
  uploaderDisabled : bool;
  preview : option PreviewSection;
  errorAlert : option string;
  results : option ResultsSection
}.

(** How React prints [{transcript}]: nothing for [undefined]. *)
Definition printed (v : maybe_string) : string :=
  match v with Some s => s | None => "" end.

Definition render (st : State) : Screen :=
  {| uploaderDisabled := isLoading st;
     preview :=
       match inputAudioUrl st with
       | Some url =>
           Some {| previewSrc := url;
                   buttonDisabled := isLoading st;
                   spinner := isLoading st;
                   progressLine := if isLoading st
                                   then Some (progressMessage st) else None |}
       | None => None
       end;
     errorAlert := if truthy (error st) then error st else None;
     results :=
       if (truthy (transcript st) || present (outputAudioUrl st))
          && negb (isLoading st)
       then Some {| transcriptText := printed (transcript st);
                    playerSrc := outputAudioUrl st |}
       else None |}.

(** *** Predicates on runs and states *)

(** Every stage of a run with [file] goes through: the file is read, the
    transcription returns [t], the synthesis returns a non-empty [audio],
    which decodes to PCM bytes of even length. *)
Definition stages_succeed (host : Host) (file : File) (s : Sys)
           (t : maybe_string) (n2 : Network) : Prop :=
  exists url n1 audio pcm,
    readAsDataURL host file = Some url
    /\ generateTranscriptFromAudio (service host)
         (nth_error (split_comma url) 1) (file_type file) (net (browser s))
       = (Ok t, n1)
    /\ generateSpeechFromText (service host) t n1 = (Ok (Some audio), n2)
    /\ audio <> ""
    /\ decode audio = Ok pcm
    /\ Nat.Even (length pcm).

(** A response whose first part is text and whose second part holds the
    audio. *)
Definition audio_second_response : GenerateContentResponse :=
  {| text := Some "here is the audio";
     candidates :=
       Some [ {| content :=
                   Some {| parts :=
                             Some [ {| inlineData := None |};
                                    {| inlineData :=
                                         Some {| data := Some "AQACAA==" |} |} ] |} |} ] |}.

(** A host whose reader produces the standard data URL. *)
Definition reading_host (env : Env) : Host :=
  {| service := env; readAsDataURL := fun file => Some (data_url file) |}.

(** A host whose reader fails on every file. *)
Definition unreadable_host : Host :=
  {| service := service good_host; readAsDataURL := fun _ => None |}.

(** A host whose provider rejects every call. *)
Definition offline_host : Host := host_of (Some "secret") failing_provider.

(** A state in the middle of a run: loading, with results of an earlier
    run still in place. *)
Definition loading_state : Sys :=
  {| ui := {| inputAudioFile := Some clip; inputAudioUrl := Some 0%nat;
              transcript := Some "hello"; outputAudioUrl := Some 1%nat;
              isLoading := true; progressMessage := "Synthesizing audio...";
              error := None |};
     browser := {| net := no_calls; live := [1; 0]%nat; next := 2%nat;
                   console := [] |} |}.

(** The state [handleFileChange] leaves. *)
Definition after_selection (file : File) (s : Sys) : Sys :=
  {| ui := {| inputAudioFile := Some file;
              inputAudioUrl := Some (next (browser s));
              transcript := Some "";
              outputAudioUrl := None;
              isLoading := isLoading (ui s);
              progressMessage := progressMessage (ui s);
              error := None |};
     browser := {| net := net (browser s);
                   live := next (browser s)
                           :: revoked (outputAudioUrl (ui s))
                                (revoked (inputAudioUrl (ui s)) (live (browser s)));
                   next := S (next (browser s));
                   console := console (browser s) |} |}.

(** The leaked URLs after a run: every live URL of the start state but
    the input URL. *)
Definition all_but_input (s : Sys) : list ObjectURL :=
  filter (fun u => negb (match inputAudioUrl (ui s) with
                         | Some v => Nat.eqb v u
                         | None => false
                         end)) (live (browser s)).

(** Selections alone: at most the input URL is live. *)
Definition only_input_live (s : Sys) : Prop :=
  outputAudioUrl (ui s) = None
  /\ live (browser s) = match inputAudioUrl (ui s) with
                        | Some u => [u]
                        | None => []
                        end
  /\ calls (net (browser s)) = [].

End AppModel.

Import AppModel.

(* ===================================================================== *)
(** ** The processing run in time: what can happen at its awaits *)
(* ===================================================================== *)

Module Async.

Local Open Scope eff_scope.
Local Open Scope string_scope.

(** A call that was started and whose promise is awaited: its outcome is
    kept until the [await] resumes. *)
Definition started {S A} (c : eff S A) : eff S (result A) :=
  fun s => let '(r, s') := c s in (Ok r, s').

(** The [await] at which [handleProcessAudio] is suspended (App.tsx,
    lines 170, 173 and 177), with what the awaited promise settles to. *)
Inductive Pending : Type :=
| AwaitRead (r : result (maybe_string * string))
| AwaitTranscript (r : result maybe_string)
| AwaitSpeech (r : result maybe_string).

(** The [catch] block, lines 187-190. *)
Definition catch_block (err : exn) : eff Sys unit :=
  let errorMessage := message_of err in
  setError (Some ("Processing failed: " ++ errorMessage)) ;;
  console_error err.

(** The [finally] block, lines 191-194. *)
Definition finally_block : eff Sys unit :=
  setIsLoading false ;;
  setProgressMessage "".

(** A stretch of the [try] block between two awaits: it suspends at the
    next [await], or it leaves the block, by its end or by a throw, and
    then the [catch] and [finally] blocks run. *)
Definition stretch (body : eff Sys (option Pending)) : eff Sys (option Pending) :=
  fun s =>
    match body s with
    | (Ok (Some p), s') => (Ok (Some p), s')
    | (Ok None, s') => (finally_block ;; ret None) s'
    | (Throw e, s') => (catch_block e ;; finally_block ;; ret None) s'
    end.

(** Lines 160-170: from the click to the first [await]. *)
Definition begin (host : Host) : eff Sys (option Pending) :=
  s <- get ;;
  match inputAudioFile (ui s) with
  | None => ret None
  | Some inputAudioFile =>
      setIsLoading true ;;
      setError None ;;
      setTranscript (Some "") ;;
      setOutputAudioUrl None ;;
      setProgressMessage "Reading audio file..." ;;
      r <- started (fileToBase64 host inputAudioFile) ;;
      ret (Some (AwaitRead r))
  end.

(** Lines 170-195: from one [await] to the next, or to the end. *)
Definition resume (host : Host) (p : Pending) : eff Sys (option Pending) :=
  stretch
    match p with
    | AwaitRead r =>
        x <- of_result r ;;
        let '(audioData, mimeType) := x in
        setProgressMessage "Generating transcript..." ;;
        r' <- started (on_network
                         (generateTranscriptFromAudio (service host)
                            audioData mimeType)) ;;
        ret (Some (AwaitTranscript r'))
    | AwaitTranscript r =>
        generatedTranscript <- of_result r ;;
        setTranscript generatedTranscript ;;
        setProgressMessage "Synthesizing audio..." ;;
        r' <- started (on_network
                         (generateSpeechFromText (service host)
                            generatedTranscript)) ;;
        ret (Some (AwaitSpeech r'))
    | AwaitSpeech r =>
        synthesizedAudioData <- of_result r ;;
        (if truthy synthesizedAudioData then
           setProgressMessage "Processing audio..." ;;
           pcmData <- of_result (decode (template synthesizedAudioData)) ;;
           wavBlob <- of_result (createWavBlob pcmData 24000 1) ;;
           newAudioUrl <- createObjectURL ;;
           setOutputAudioUrl (Some newAudioUrl)
         else
           throw (JsError "Error" "Failed to generate audio data.")) ;;
        ret None
    end.

(** The page: the component and its browser, and the run in flight. *)
Record Page := { sys : Sys; pending : option Pending }.

Definition fresh : Page := {| sys := initial; pending := None |}.

(** What happens to the page.  A file is selected in the dialog or
    dropped on the uploader; the drop is possible at any time, also while
    a run is in flight.  The button is clicked; it is disabled while the
    component is loading.  The promise the run awaits settles. *)
Inductive Action : Type :=
| Select (file : File)
| Click
| Settle.

Definition suspended (r : result (option Pending)) : option Pending :=
  match r with
  | Ok p => p
  | Throw _ => None
  end.

Definition act (host : Host) (a : Action) (page : Page) : Page :=
  match a with
  | Select file =>
      {| sys := snd (handleFileChange file (sys page)); pending := pending page |}
  | Click =>
      if isLoading (ui (sys page)) then page
      else let '(r, s) := begin host (sys page) in
           {| sys := s; pending := suspended r |}
  | Settle =>
      match pending page with
      | None => page
      | Some p =>
          let '(r, s) := resume host p (sys page) in
          {| sys := s; pending := suspended r |}
      end
  end.

Definition play (host : Host) (acts : list Action) (page : Page) : Page :=
  fold_left (fun page a => act host a page) acts page.

(** What holds of the page at every moment. *)
Record sound (page : Page) : Prop := {
  input_live : forall u, inputAudioUrl (ui (sys page)) = Some u ->
                         In u (live (browser (sys page)));
  output_live : forall u, outputAudioUrl (ui (sys page)) = Some u ->
                          In u (live (browser (sys page)));
  urls_distinct : forall u, inputAudioUrl (ui (sys page)) = Some u ->
                            outputAudioUrl (ui (sys page)) <> Some u;
  output_needs_input : inputAudioUrl (ui (sys page)) = None ->
                       outputAudioUrl (ui (sys page)) = None;
  file_with_url : present (inputAudioFile (ui (sys page)))
                  = present (inputAudioUrl (ui (sys page)));
  live_below_next : Forall (fun u => (u < next (browser (sys page)))%nat)
                           (live (browser (sys page)));
  live_once : NoDup (live (browser (sys page)));
  loading_in_flight : isLoading (ui (sys page)) = present (pending page);
  idle_progress : pending page = None -> progressMessage (ui (sys page)) = "";
  in_flight_file : pending page <> None -> inputAudioFile (ui (sys page)) <> None;
  in_flight_output : pending page <> None -> outputAudioUrl (ui (sys page)) = None;
  in_flight_error : pending page <> None -> error (ui (sys page)) = None;
  error_shape : forall m, error (ui (sys page)) = Some m ->
                          exists e, m = "Processing failed: " ++ message_of e
}.

(** A second file, to drop while the first is processed. *)
Definition other_clip : File :=
  {| file_name := "other.wav"; file_type := "audio/wav";
     file_bytes := [Byte.x01] |}.

End Async.

Import Async.
(* ===================================================================== *)
(** ** List and buffer lemmas *)
(* ===================================================================== *)

Section ListFacts.

Context {A : Type}.

Lemma firstn_snoc_nth (d : A) (l : list A) (i : nat) :
  (i < length l)%nat -> firstn (S i) l = firstn i l ++ [nth i l d].
Proof.
  revert i. induction l as [|x l IH]; intros i Hi; simpl in Hi.
  - lia.
  - destruct i as [|i]; [reflexivity|].
    change (x :: firstn (S i) l = x :: (firstn i l ++ [nth i l d])).
    rewrite (IH i) by lia. reflexivity.
Qed.

Lemma skipn_app_exact (pre post : list A) (n : nat) :
  length pre = n -> skipn n (pre ++ post) = post.
Proof.
  intros <-. rewrite skipn_app, skipn_all, Nat.sub_diag. reflexivity.
Qed.

Lemma firstn_app_exact (pre post : list A) (n : nat) :
  length pre = n -> firstn n (pre ++ post) = pre.
Proof.
  intros <-. rewrite firstn_app, firstn_all, Nat.sub_diag.
  cbn [firstn]. apply app_nil_r.
Qed.

Lemma in_firstn (x : A) (n : nat) (l : list A) : In x (firstn n l) -> In x l.
Proof.
  intros Hin. rewrite <- (firstn_skipn n l). apply in_or_app. left. exact Hin.
Qed.

End ListFacts.

Section BufferFacts.

(** A store that covers exactly the middle part of a buffer. *)
Lemma store_middle (pre old post bs : list byte) (off : nat) :
  length pre = off -> length old = length bs ->
  store (pre ++ old ++ post) off bs = Ok (pre ++ bs ++ post).
Proof.
  intros Hpre Hold. unfold store.
  rewrite !length_app.
  replace (off + length bs <=? length pre + (length old + length post))%nat
    with true by (symmetry; apply Nat.leb_le; lia).
  rewrite (firstn_app_exact pre _ off Hpre).
  replace (skipn (off + length bs) (pre ++ old ++ post)) with post; [reflexivity|].
  rewrite (app_assoc pre old post). symmetry.
  apply skipn_app_exact. rewrite length_app. lia.
Qed.

(** A load of exactly the middle part of a buffer. *)
Lemma load_middle (pre bs post : list byte) (off n : nat) :
  length pre = off -> length bs = n ->
  load (pre ++ bs ++ post) off n true = Ok (le_combine bs).
Proof.
  intros Hpre Hbs. unfold load, slice.
  rewrite !length_app.
  replace (off + n <=? length pre + (length bs + length post))%nat
    with true by (symmetry; apply Nat.leb_le; lia).
  rewrite (skipn_app_exact pre _ off Hpre).
  rewrite (firstn_app_exact bs post n Hbs). reflexivity.
Qed.

Lemma slice_middle (pre bs post : list byte) (off n : nat) :
  length pre = off -> length bs = n -> slice off n (pre ++ bs ++ post) = bs.
Proof.
  intros Hpre Hbs. unfold slice.
  rewrite (skipn_app_exact pre _ off Hpre).
  apply firstn_app_exact; assumption.
Qed.

Lemma setUint8_of_byte (buf : ArrayBuffer) (i : nat) (b : byte) :
  setUint8 buf i (byte.unsigned b) = store buf i [b].
Proof.
  unfold setUint8, field_bytes, ToUint8.
  rewrite <- le_split_mod.
  change (le_split 1 (byte.unsigned b)) with [byte.of_Z (byte.unsigned b)].
  rewrite byte.of_Z_unsigned. reflexivity.
Qed.

(** A loop that stores [nth j target] at index [j], for every [j], turns
    a fresh buffer into [target]. *)
Lemma fill_loop_from (target : list byte)
      (body : nat -> list byte -> result (list byte)) :
  (forall j pre old post,
      length pre = j -> (j < length target)%nat ->
      body j (pre ++ [old] ++ post) = Ok (pre ++ [nth j target Byte.x00] ++ post)) ->
  forall k i,
    (i + k = length target)%nat ->
    for_range i k body (firstn i target ++ repeat Byte.x00 k) = Ok target.
Proof.
  intros Hbody. induction k as [|k IH]; intros i Hik.
  - cbn [for_range repeat]. rewrite app_nil_r, firstn_all2 by lia. reflexivity.
  - cbn [for_range repeat].
    change (Byte.x00 :: repeat Byte.x00 k) with ([Byte.x00] ++ repeat Byte.x00 k).
    rewrite Hbody by (try lia; rewrite length_firstn; lia).
    cbn [bind]. rewrite app_assoc.
    rewrite <- (firstn_snoc_nth Byte.x00 target i) by lia.
    apply IH. lia.
Qed.

Lemma fill_loop (target : list byte)
      (body : nat -> list byte -> result (list byte)) :
  (forall j pre old post,
      length pre = j -> (j < length target)%nat ->
      body j (pre ++ [old] ++ post) = Ok (pre ++ [nth j target Byte.x00] ++ post)) ->
  for_range 0 (length target) body (repeat Byte.x00 (length target)) = Ok target.
Proof.
  intros Hbody. apply (fill_loop_from target body Hbody (length target) 0).
  reflexivity.
Qed.

(** The copy loop of [createWavBlob] fills the fresh buffer with the
    bytes of [pcmData]. *)
Lemma copy_loop (pcm : list byte) :
  for_range 0 (length pcm) (fun j dv => setUint8 dv j (u8_get pcm j))
            (new_ArrayBuffer (length pcm)) = Ok pcm.
Proof.
  apply fill_loop. intros j pre old post Hpre Hj.
  unfold u8_get. rewrite setUint8_of_byte.
  apply store_middle; [assumption | reflexivity].
Qed.

Lemma field_bytes_u32 (v : Z) : field_bytes 4 (ToUint32 v) true = le_split 4 v.
Proof. unfold field_bytes, ToUint32. symmetry. apply le_split_mod. Qed.

Lemma field_bytes_u16 (v : Z) : field_bytes 2 (ToUint16 v) true = le_split 2 v.
Proof. unfold field_bytes, ToUint16. symmetry. apply le_split_mod. Qed.

End BufferFacts.

(* ===================================================================== *)
(** ** The WAV encoder: what it writes *)
(* ===================================================================== *)

Module WavFacts.

Import WavLayout.

(** Turn every [le_split n v] of the goal into an explicit list of [n]
    unknown bytes, so that list functions compute on it. *)
Ltac explode_fields :=
  repeat match goal with
  | |- context [le_split ?n ?v] =>
      let H := fresh "Hlen" in
      pose proof (length_le_split n v) as H;
      destruct (le_split n v) as [|? [|? [|? [|? [|? ?]]]]];
      cbn [length] in H; try discriminate H; clear H
  end.

Lemma tag_RIFF : field_bytes 4 (ToUint32 0x52494646) false = tag "RIFF".
Proof. vm_compute. reflexivity. Qed.
Lemma tag_WAVE : field_bytes 4 (ToUint32 0x57415645) false = tag "WAVE".
Proof. vm_compute. reflexivity. Qed.
Lemma tag_fmt : field_bytes 4 (ToUint32 0x666d7420) false = tag "fmt ".
Proof. vm_compute. reflexivity. Qed.
Lemma tag_data : field_bytes 4 (ToUint32 0x64617461) false = tag "data".
Proof. vm_compute. reflexivity. Qed.

Lemma even_data_size (n : nat) :
  Nat.even n = true -> Z.of_nat (Nat.div n 2) * (16 / 8) = Z.of_nat n.
Proof.
  intros He. apply Nat.even_spec in He. destruct He as [k ->].
  rewrite Nat.mul_comm, Nat.div_mul by discriminate.
  change (16 / 8) with 2. lia.
Qed.

Lemma block_align_exact (numChannels : Z) : numChannels * 16 / 8 = numChannels * 2.
Proof.
  replace (numChannels * 16) with (numChannels * 2 * 8) by lia.
  apply Z.div_mul. discriminate.
Qed.

(** On a payload of even length the encoder returns the header followed
    by the payload, whatever the numbers. *)
Lemma createWavBlob_even (pcmData : list byte) (sampleRate numChannels : Z) :
  Nat.even (length pcmData) = true ->
  createWavBlob pcmData sampleRate numChannels =
  Ok {| blob_bytes :=
          wav_header (Z.of_nat (length pcmData)) sampleRate numChannels ++ pcmData;
        blob_type := "audio/wav" |}.
Proof.
  intros He. unfold createWavBlob.
  rewrite copy_loop. cbn [bind]. unfold new_Int16Array. rewrite He. cbn [bind].
  cbn [i16_length i16_buffer].
  rewrite (even_data_size _ He), block_align_exact.
  unfold setUint32, setUint16.
  rewrite tag_RIFF, tag_WAVE, tag_fmt, tag_data, !field_bytes_u32, !field_bytes_u16.
  unfold wav_header.
  explode_fields. reflexivity.
Qed.

(** On a payload of odd length the 16-bit view cannot be built. *)
Lemma createWavBlob_odd (pcmData : list byte) (sampleRate numChannels : Z) :
  Nat.even (length pcmData) = false ->
  createWavBlob pcmData sampleRate numChannels =
  Throw (RangeError "byte length of Int16Array should be a multiple of 2").
Proof.
  intros Ho. unfold createWavBlob.
  rewrite copy_loop. cbn [bind]. unfold new_Int16Array. rewrite Ho. reflexivity.
Qed.

Ltac explicit_list l H :=
  destruct l as [|? [|? [|? [|? [|? ?]]]]]; cbn [length] in H;
  try discriminate H; clear H.

Lemma fields_of_concat
      (riff size wave fmt fsz fmtTag nch rate brate align bits dat dsz
       payload : list byte) :
  length riff = 4%nat -> length size = 4%nat -> length wave = 4%nat ->
  length fmt = 4%nat -> length fsz = 4%nat -> length fmtTag = 2%nat ->
  length nch = 2%nat -> length rate = 4%nat -> length brate = 4%nat ->
  length align = 2%nat -> length bits = 2%nat -> length dat = 4%nat ->
  length dsz = 4%nat ->
  fields_at (riff ++ size ++ wave ++ fmt ++ fsz ++ fmtTag ++ nch ++ rate
             ++ brate ++ align ++ bits ++ dat ++ dsz ++ payload)
            riff size wave fmt fsz fmtTag nch rate brate align bits dat dsz
            payload.
Proof.
  intros H1 H2 H3 H4 H5 H6 H7 H8 H9 H10 H11 H12 H13.
  explicit_list riff H1. explicit_list size H2. explicit_list wave H3.
  explicit_list fmt H4. explicit_list fsz H5. explicit_list fmtTag H6.
  explicit_list nch H7. explicit_list rate H8. explicit_list brate H9.
  explicit_list align H10. explicit_list bits H11. explicit_list dat H12.
  explicit_list dsz H13.
  split; reflexivity.
Qed.

Lemma length_tag4 (s : string) : String.length s = 4%nat -> length (tag s) = 4%nat.
Proof.
  intros H. unfold tag.
  destruct s as [|a [|b [|c [|d [|e s]]]]]; try discriminate H. reflexivity.
Qed.

Lemma header_fields (dataSize sampleRate numChannels : Z) (payload : list byte) :
  fields_at (wav_header dataSize sampleRate numChannels ++ payload)
            (tag "RIFF") (le_split 4 (36 + dataSize)) (tag "WAVE") (tag "fmt ")
            (le_split 4 16) (le_split 2 1) (le_split 2 numChannels)
            (le_split 4 sampleRate) (le_split 4 (sampleRate * (numChannels * 2)))
            (le_split 2 (numChannels * 2)) (le_split 2 16) (tag "data")
            (le_split 4 dataSize) payload.
Proof.
  unfold wav_header. rewrite <- !app_assoc.
  apply fields_of_concat;
    solve [ apply length_le_split | apply length_tag4; reflexivity ].
Qed.

Lemma le_combine_split_small (n : nat) (v : Z) :
  0 <= v < 2 ^ (Z.of_nat n * 8) -> le_combine (le_split n v) = v.
Proof. intros Hv. rewrite le_combine_split. apply Z.mod_small. exact Hv. Qed.

Lemma le_combine_u32 (v : Z) : 0 <= v < 2 ^ 32 -> le_combine (le_split 4 v) = v.
Proof. apply (le_combine_split_small 4). Qed.

Lemma le_combine_u16 (v : Z) : 0 <= v < 2 ^ 16 -> le_combine (le_split 2 v) = v.
Proof. apply (le_combine_split_small 2). Qed.

(** Within the field widths the header decodes to the canonical layout. *)
Lemma header_canonical (P : list byte) (sampleRate numChannels : Z) :
  36 + Z.of_nat (length P) < 2 ^ 32 ->
  0 <= sampleRate < 2 ^ 32 ->
  0 <= numChannels ->
  numChannels * 2 < 2 ^ 16 ->
  sampleRate * numChannels * 2 < 2 ^ 32 ->
  canonical_layout P sampleRate numChannels
    (wav_header (Z.of_nat (length P)) sampleRate numChannels ++ P).
Proof.
  intros Hsize Hrate Hchan Halign Hbyte.
  destruct (header_fields (Z.of_nat (length P)) sampleRate numChannels P).
  split; try assumption;
    match goal with
    | H : ?l = Ok (le_combine _) |- ?l = Ok _ => rewrite H; f_equal
    end;
    rewrite <- ?Z.mul_assoc;
    first [apply le_combine_u32 | apply le_combine_u16]; nia.
Qed.

End WavFacts.


(* ===================================================================== *)
(** ** Base64: the decoding loop undoes the encoder *)
(* ===================================================================== *)

Module Base64Facts.

(** Induction on a list, three elements at a time. *)
Lemma list_ind3 {A : Type} (P : list A -> Prop) :
  P [] -> (forall a, P [a]) -> (forall a b, P [a; b]) ->
  (forall a b c rest, P rest -> P (a :: b :: c :: rest)) ->
  forall l, P l.
Proof.
  intros H0 H1 H2 H3 l.
  enough (H : P l /\ (forall a, P (a :: l)) /\ (forall a b, P (a :: b :: l)))
    by apply H.
  induction l as [|x l [IH0 [IH1 IH2]]]; repeat split; auto.
Qed.

Lemma sextets_3 (a b c : byte) (rest : list byte) :
  sextets (a :: b :: c :: rest) =
  [byte.unsigned a / 4;
   (byte.unsigned a mod 4) * 16 + byte.unsigned b / 16;
   (byte.unsigned b mod 16) * 4 + byte.unsigned c / 64;
   byte.unsigned c mod 64] ++ sextets rest.
Proof. reflexivity. Qed.

Ltac byte_ranges :=
  repeat match goal with
  | |- context [byte.unsigned ?b] =>
      lazymatch goal with
      | _ : 0 <= byte.unsigned b < 2 ^ 8 |- _ => fail
      | _ => pose proof (byte.unsigned_range b)
      end
  end.

Lemma sextets_range (B : list byte) : Forall (fun n => 0 <= n < 64) (sextets B).
Proof.
  induction B as [|a|a b|a b c rest IH] using list_ind3.
  - constructor.
  - cbn [sextets]. byte_ranges.
    repeat constructor; Z.div_mod_to_equations; lia.
  - cbn [sextets]. byte_ranges.
    repeat constructor; Z.div_mod_to_equations; lia.
  - rewrite sextets_3. apply Forall_app. split; [|exact IH]. byte_ranges.
    repeat constructor; Z.div_mod_to_equations; lia.
Qed.

(** *** The alphabet *)

Lemma alphabet_checked : forallb sextet_checked (map Z.of_nat (seq 0 64)) = true.
Proof. vm_compute. reflexivity. Qed.

Lemma sextet_checked_range (n : Z) : 0 <= n < 64 -> sextet_checked n = true.
Proof.
  intros Hn. pose proof alphabet_checked as H.
  rewrite forallb_forall in H. apply H.
  apply in_map_iff. exists (Z.to_nat n). split; [lia|].
  apply in_seq. lia.
Qed.

Lemma b64_char_facts (n : Z) :
  0 <= n < 64 ->
  b64_value (b64_char n) = Some n
  /\ is_ascii_whitespace (b64_char n) = false
  /\ is_equals (b64_char n) = false.
Proof.
  intros Hn. pose proof (sextet_checked_range n Hn) as H.
  unfold sextet_checked in H.
  apply andb_prop in H. destruct H as [H Heq].
  apply andb_prop in H. destruct H as [Hv Hws].
  apply negb_true_iff in Heq. apply negb_true_iff in Hws.
  repeat split; try assumption.
  destruct (b64_value (b64_char n)) as [m|]; [|discriminate Hv].
  apply Z.eqb_eq in Hv. congruence.
Qed.

Lemma b64_index_char (l : list Z) :
  Forall (fun n => 0 <= n < 64) l -> map b64_index (map b64_char l) = l.
Proof.
  induction 1 as [|n l Hn _ IH]; [reflexivity|].
  cbn [map]. rewrite IH. unfold b64_index.
  destruct (b64_char_facts n Hn) as [-> _]. reflexivity.
Qed.

Lemma chars_in_alphabet (l : list Z) :
  Forall (fun n => 0 <= n < 64) l -> forallb in_alphabet (map b64_char l) = true.
Proof.
  induction 1 as [|n l Hn _ IH]; [reflexivity|].
  cbn [map forallb]. rewrite IH. unfold in_alphabet.
  destruct (b64_char_facts n Hn) as [-> _]. reflexivity.
Qed.

Lemma chars_not_whitespace (l : list Z) :
  Forall (fun n => 0 <= n < 64) l ->
  filter (fun c => negb (is_ascii_whitespace c)) (map b64_char l) = map b64_char l.
Proof.
  induction 1 as [|n l Hn _ IH]; [reflexivity|].
  cbn [map filter]. rewrite IH.
  destruct (b64_char_facts n Hn) as [_ [-> _]]. reflexivity.
Qed.

Lemma chars_not_equals (l : list Z) :
  Forall (fun n => 0 <= n < 64) l ->
  Forall (fun c => is_equals c = false) (map b64_char l).
Proof.
  induction 1 as [|n l Hn _ IH]; constructor; [|exact IH].
  apply (b64_char_facts n Hn).
Qed.

(** *** The bit buffer *)

Lemma push_sextet_keep (st : decoder) (n : Z) :
  bits st + 6 <> 24 ->
  push_sextet st n =
  {| buffer := buffer st * 64 + n; bits := bits st + 6; output := output st |}.
Proof.
  intros H. unfold push_sextet.
  destruct (Z.eqb_spec (bits st + 6) 24); [contradiction|reflexivity].
Qed.

Lemma push_sextet_emit (st : decoder) (n : Z) :
  bits st + 6 = 24 ->
  push_sextet st n =
  {| buffer := 0; bits := 0;
     output := output st ++ [byte.of_Z ((buffer st * 64 + n) / 65536);
                             byte.of_Z ((buffer st * 64 + n) / 256);
                             byte.of_Z (buffer st * 64 + n)] |}.
Proof. intros H. unfold push_sextet. rewrite H. reflexivity. Qed.

Lemma byte_of_Z_is (x : byte) (z : Z) : z mod 2 ^ 8 = byte.unsigned x -> byte.of_Z z = x.
Proof.
  intros H. apply byte.unsigned_inj. rewrite byte.unsigned_of_Z. exact H.
Qed.

Ltac push_all :=
  cbn [fold_left];
  repeat match goal with
  | |- context [push_sextet {| buffer := ?v; bits := ?n; output := ?o |} ?x] =>
      first [ rewrite (push_sextet_keep {| buffer := v; bits := n; output := o |} x)
                by (cbn [bits]; lia)
            | rewrite (push_sextet_emit {| buffer := v; bits := n; output := o |} x)
                by (cbn [bits]; lia) ];
      cbn [buffer bits output]
  end.

Ltac solve_byte :=
  apply byte_of_Z_is; byte_ranges; Z.div_mod_to_equations; lia.

(** Four sextets of a full group leave the buffer empty and emit the
    three bytes they came from. *)
Lemma push_group (out : list byte) (a b c : byte) :
  fold_left push_sextet
    [byte.unsigned a / 4;
     (byte.unsigned a mod 4) * 16 + byte.unsigned b / 16;
     (byte.unsigned b mod 16) * 4 + byte.unsigned c / 64;
     byte.unsigned c mod 64]
    {| buffer := 0; bits := 0; output := out |}
  = {| buffer := 0; bits := 0; output := out ++ [a; b; c] |}.
Proof.
  push_all.
  assert (Hbuf : (((0 * 64 + byte.unsigned a / 4) * 64
                   + (byte.unsigned a mod 4 * 16 + byte.unsigned b / 16)) * 64
                  + (byte.unsigned b mod 16 * 4 + byte.unsigned c / 64)) * 64
                 + byte.unsigned c mod 64
                 = byte.unsigned a * 65536 + byte.unsigned b * 256 + byte.unsigned c).
  { byte_ranges. Z.div_mod_to_equations. lia. }
  rewrite Hbuf. f_equal. f_equal. repeat f_equal; solve_byte.
Qed.

Lemma decode_sextets (B : list byte) :
  forall out,
    flush (fold_left push_sextet (sextets B)
                     {| buffer := 0; bits := 0; output := out |})
    = out ++ B.
Proof.
  induction B as [|a|a b|a b c rest IH] using list_ind3; intros out.
  - cbn. rewrite app_nil_r. reflexivity.
  - cbn [sextets]. push_all. unfold flush. cbn [bits buffer output].
    change (0 + 6 + 6 =? 12) with true. cbv iota.
    repeat f_equal. solve_byte.
  - cbn [sextets]. push_all. unfold flush. cbn [bits buffer output].
    change (0 + 6 + 6 + 6 =? 12) with false.
    change (0 + 6 + 6 + 6 =? 18) with true. cbv iota.
    assert (Hbuf : ((0 * 64 + byte.unsigned a / 4) * 64
                    + (byte.unsigned a mod 4 * 16 + byte.unsigned b / 16)) * 64
                   + byte.unsigned b mod 16 * 4
                   = byte.unsigned a * 1024 + byte.unsigned b * 4).
    { byte_ranges. Z.div_mod_to_equations. lia. }
    rewrite Hbuf. repeat f_equal; solve_byte.
  - rewrite sextets_3, fold_left_app, push_group, IH, <- app_assoc. reflexivity.
Qed.

End Base64Facts.

(* ===================================================================== *)
(** ** Base64: [atob] on encoder output, and on malformed input *)
(* ===================================================================== *)

Module AtobFacts.

Import Base64Facts.

(** *** Trailing padding *)

Lemma remove_trailing_none (body : list ascii) :
  Forall (fun c => is_equals c = false) body ->
  remove_trailing_equals body = body.
Proof.
  intros Hall. unfold remove_trailing_equals.
  destruct (rev body) as [|c1 r] eqn:Hrev; [reflexivity|].
  assert (Hc1 : is_equals c1 = false).
  { rewrite Forall_forall in Hall. apply Hall.
    apply in_rev. rewrite Hrev. left. reflexivity. }
  rewrite Hc1. destruct r; reflexivity.
Qed.

Lemma remove_trailing_one (body : list ascii) :
  body <> [] ->
  Forall (fun c => is_equals c = false) body ->
  remove_trailing_equals (body ++ [equals_sign]) = body.
Proof.
  intros Hne Hall. unfold remove_trailing_equals.
  rewrite rev_app_distr. cbn [rev app].
  destruct (rev body) as [|c2 r] eqn:Hrev.
  - apply (f_equal (@rev ascii)) in Hrev. rewrite rev_involutive in Hrev.
    contradiction.
  - assert (Hc2 : is_equals c2 = false).
    { rewrite Forall_forall in Hall. apply Hall.
      apply in_rev. rewrite Hrev. left. reflexivity. }
    rewrite Hc2. change (rev (c2 :: r) = body).
    rewrite <- Hrev. apply rev_involutive.
Qed.

Lemma remove_trailing_two (body : list ascii) :
  remove_trailing_equals (body ++ [equals_sign; equals_sign]) = body.
Proof.
  unfold remove_trailing_equals.
  rewrite rev_app_distr. cbn [rev app].
  change (rev (rev body) = body).
  apply rev_involutive.
Qed.

(** A character other than the padding sign survives the removal. *)
Lemma remove_trailing_keeps (data : list ascii) (c : ascii) :
  In c data -> is_equals c = false -> In c (remove_trailing_equals data).
Proof.
  intros Hin Hc. unfold remove_trailing_equals.
  assert (Hrev : In c (rev data)) by (apply in_rev; rewrite rev_involutive; exact Hin).
  destruct (rev data) as [|c1 [|c2 r]]; [exact Hin| |].
  - destruct (is_equals c1) eqn:H1; [|exact Hin].
    destruct Hrev as [->|[]]. congruence.
  - destruct (is_equals c1) eqn:H1; [|exact Hin].
    destruct Hrev as [->|Hrev]; [congruence|].
    destruct (is_equals c2) eqn:H2.
    + destruct Hrev as [->|Hrev]; [congruence|]. apply in_rev in Hrev. exact Hrev.
    + apply in_rev in Hrev. exact Hrev.
Qed.

(** So does every character before the last two. *)
Lemma remove_trailing_keeps_front (data : list ascii) (c : ascii) :
  In c (firstn (length data - 2) data) -> In c (remove_trailing_equals data).
Proof.
  intros Hin. unfold remove_trailing_equals.
  destruct (rev data) as [|c1 [|c2 r]] eqn:Hrev.
  - apply (in_firstn _ _ _ Hin).
  - apply (f_equal (@rev ascii)) in Hrev. rewrite rev_involutive in Hrev.
    subst data. cbn in Hin. contradiction.
  - apply (f_equal (@rev ascii)) in Hrev. rewrite rev_involutive in Hrev.
    assert (Hdata : data = rev r ++ [c2; c1]).
    { rewrite Hrev. cbn [rev]. rewrite <- app_assoc. reflexivity. }
    assert (Hfront : firstn (length data - 2) data = rev r).
    { rewrite Hdata, length_app. cbn [length].
      replace (length (rev r) + 2 - 2)%nat with (length (rev r)) by lia.
      apply firstn_app_exact. reflexivity. }
    rewrite Hfront in Hin.
    destruct (is_equals c1); [|rewrite Hdata; apply in_or_app; left; exact Hin].
    destruct (is_equals c2); [exact Hin|].
    cbn [rev]. apply in_or_app. left. exact Hin.
Qed.

(** *** Lengths *)

Lemma length_sextets (B : list byte) :
  length (sextets B) =
  (4 * (length B / 3) + match length B mod 3 with
                        | 0 => 0 | 1 => 2 | _ => 3
                        end)%nat.
Proof.
  induction B as [|a|a b|a b c rest IH] using list_ind3; try reflexivity.
  rewrite sextets_3, length_app, IH. cbn [length].
  replace (S (S (S (length rest)))) with (1 * 3 + length rest)%nat by lia.
  rewrite Nat.div_add_l by discriminate.
  replace (1 * 3 + length rest)%nat with (length rest + 1 * 3)%nat by lia.
  rewrite Nat.Div0.mod_add. lia.
Qed.

(** *** The decoding loop of [decode] *)

Lemma byte_of_code (c : ascii) : byte.of_Z (ToUint8 (code c)) = byte_of_ascii c.
Proof.
  unfold ToUint8, code. apply byte_of_Z_is.
  rewrite Z.mod_mod by discriminate. apply byte.wrap_unsigned.
Qed.

Lemma u8_set_middle (pre post : list byte) (old : byte) (i : nat) (v : Z) :
  length pre = i ->
  u8_set (pre ++ [old] ++ post) i v = pre ++ [byte.of_Z (ToUint8 v)] ++ post.
Proof.
  intros Hpre. unfold u8_set. rewrite length_app.
  replace (i <? length pre + length ([old] ++ post))%nat with true
    by (symmetry; apply Nat.ltb_lt; cbn [length app]; lia).
  rewrite (firstn_app_exact pre _ i Hpre).
  replace (skipn (S i) (pre ++ [old] ++ post)) with post; [reflexivity|].
  rewrite (app_assoc pre [old] post). symmetry.
  apply skipn_app_exact. rewrite length_app. cbn [length]. lia.
Qed.

Lemma length_chars (s : string) : length (chars s) = String.length s.
Proof. induction s as [|c s IH]; cbn; [reflexivity | f_equal; exact IH]. Qed.

Lemma bytes_of_binary_string (s : string) :
  for_range 0 (String.length s)
    (fun i bytes => Ok (u8_set bytes i (charCodeAt s i)))
    (new_Uint8Array (String.length s))
  = Ok (list_byte_of_string s).
Proof.
  assert (Hlen : String.length s = length (list_byte_of_string s)).
  { unfold list_byte_of_string. rewrite length_map. symmetry. apply length_chars. }
  unfold new_Uint8Array. rewrite Hlen.
  apply fill_loop. intros j pre old post Hpre Hj.
  rewrite u8_set_middle by assumption.
  unfold charCodeAt. rewrite byte_of_code.
  unfold list_byte_of_string, chars.
  change Byte.x00 with (byte_of_ascii zero). rewrite map_nth. reflexivity.
Qed.

Lemma decode_of_atob (s binaryString : string) :
  atob s = Ok binaryString -> decode s = Ok (list_byte_of_string binaryString).
Proof.
  intros H. unfold decode. rewrite H. cbn [bind]. apply bytes_of_binary_string.
Qed.

Lemma decode_throws_with_atob (s : string) (e : exn) :
  atob s = Throw e -> decode s = Throw e.
Proof. intros H. unfold decode. rewrite H. reflexivity. Qed.

End AtobFacts.

(* ===================================================================== *)
(** ** Base64: the round trip through [atob] *)
(* ===================================================================== *)

Module AtobRoundTrip.

Import Base64Facts AtobFacts.

Lemma padding_cases (B : list byte) :
  (length B mod 3 = 0 /\ padding B = []
   /\ length (sextets B) = 4 * (length B / 3))%nat
  \/ (length B mod 3 = 1 /\ padding B = [equals_sign; equals_sign]
      /\ length (sextets B) = 4 * (length B / 3) + 2)%nat
  \/ (length B mod 3 = 2 /\ padding B = [equals_sign]
      /\ length (sextets B) = 4 * (length B / 3) + 3)%nat.
Proof.
  pose proof (length_sextets B) as Hlen. unfold padding.
  pose proof (Nat.mod_upper_bound (length B) 3) as Hlt.
  destruct (length B mod 3)%nat as [|[|[|r]]].
  - left. repeat split. lia.
  - right. left. repeat split. exact Hlen.
  - right. right. repeat split. exact Hlen.
  - lia.
Qed.

Lemma padding_not_whitespace (B : list byte) :
  filter (fun c => negb (is_ascii_whitespace c)) (padding B) = padding B.
Proof.
  unfold padding. induction ((3 - length B mod 3) mod 3)%nat as [|n IH];
    [reflexivity|].
  cbn [repeat filter]. change (is_ascii_whitespace equals_sign) with false.
  cbn [negb]. rewrite IH. reflexivity.
Qed.

Lemma mod4_of (q r : nat) : (r < 4)%nat -> ((4 * q + r) mod 4 = r)%nat.
Proof.
  intros Hr. rewrite Nat.add_comm, Nat.mul_comm, Nat.Div0.mod_add.
  apply Nat.mod_small. exact Hr.
Qed.

(** What [atob] does to the whitespace-free [body ++ pad], for a body of
    alphabet characters whose length is not of the form 4k + 1 and a
    padding that completes it to a multiple of 4. *)
Lemma atob_body (body pad : list ascii) (vals : list Z) :
  body = map b64_char vals ->
  Forall (fun n => 0 <= n < 64) vals ->
  (length (body ++ pad) mod 4 = 0)%nat ->
  (length body mod 4 <> 1)%nat ->
  remove_trailing_equals (body ++ pad) = body ->
  filter (fun c => negb (is_ascii_whitespace c)) pad = pad ->
  atob (string_of_list_ascii (body ++ pad)) =
  Ok (string_of_list_byte
        (flush (fold_left push_sextet vals
                          {| buffer := 0; bits := 0; output := [] |}))).
Proof.
  intros Hbody Hvals Hlen Hne Hrm Hpad. unfold atob, chars.
  rewrite list_ascii_of_string_of_list_ascii.
  rewrite filter_app, Hpad.
  replace (filter (fun c => negb (is_ascii_whitespace c)) body) with body
    by (subst body; symmetry; apply chars_not_whitespace; exact Hvals).
  rewrite Hlen. cbn [Nat.eqb]. rewrite Hrm.
  destruct (Nat.eqb_spec (length body mod 4) 1) as [Heq|_]; [contradiction|].
  subst body. rewrite chars_in_alphabet by exact Hvals. cbn [negb].
  rewrite b64_index_char by exact Hvals. reflexivity.
Qed.

Lemma atob_base64_encode (B : list byte) :
  atob (base64_encode B) = Ok (string_of_list_byte B).
Proof.
  unfold base64_encode.
  pose proof (sextets_range B) as Hvals.
  pose proof (chars_not_equals _ Hvals) as Hneq.
  rewrite (atob_body _ _ (sextets B) eq_refl Hvals).
  - rewrite decode_sextets. reflexivity.
  - rewrite length_app, length_map.
    destruct (padding_cases B) as [(_ & -> & ->)|[(_ & -> & ->)|(_ & -> & ->)]];
      cbn [length].
    + rewrite Nat.add_0_r, <- (Nat.add_0_r (4 * _)). apply mod4_of. lia.
    + replace (4 * (length B / 3) + 2 + 2)%nat
        with (4 * (length B / 3 + 1) + 0)%nat by lia.
      apply mod4_of. lia.
    + replace (4 * (length B / 3) + 3 + 1)%nat
        with (4 * (length B / 3 + 1) + 0)%nat by lia.
      apply mod4_of. lia.
  - rewrite length_map.
    destruct (padding_cases B) as [(_ & _ & ->)|[(_ & _ & ->)|(_ & _ & ->)]].
    + rewrite <- (Nat.add_0_r (4 * _)), mod4_of by lia. discriminate.
    + rewrite mod4_of by lia. discriminate.
    + rewrite mod4_of by lia. discriminate.
  - destruct (padding_cases B) as [(_ & -> & _)|[(_ & -> & _)|(_ & -> & Hlen)]].
    + rewrite app_nil_r. apply remove_trailing_none. exact Hneq.
    + apply remove_trailing_two.
    + apply remove_trailing_one; [|exact Hneq].
      intros Hnil. apply (f_equal (@length ascii)) in Hnil.
      rewrite length_map, Hlen in Hnil. cbn [length] in Hnil. lia.
  - apply padding_not_whitespace.
Qed.

End AtobRoundTrip.

(* ===================================================================== *)
(** ** Base64: inputs [atob] rejects *)
(* ===================================================================== *)

Module AtobFailures.

Import AtobFacts.

Lemma forallb_false_with {A : Type} (f : A -> bool) (l : list A) (x : A) :
  In x l -> f x = false -> forallb f l = false.
Proof.
  intros Hin Hx. destruct (forallb f l) eqn:Hall; [|reflexivity].
  rewrite forallb_forall in Hall. rewrite (Hall x Hin) in Hx. discriminate Hx.
Qed.

Lemma atob_rejects_char (data : list ascii) (c : ascii) :
  In c data -> in_alphabet c = false ->
  (if (length data mod 4 =? 1)%nat then Throw InvalidCharacterError
   else if negb (forallb in_alphabet data) then Throw InvalidCharacterError
        else Ok (string_of_list_byte
                   (flush (fold_left push_sextet (map b64_index data)
                                     {| buffer := 0; bits := 0; output := [] |}))))
  = Throw InvalidCharacterError.
Proof.
  intros Hin Hc. destruct (length data mod 4 =? 1)%nat; [reflexivity|].
  rewrite (forallb_false_with in_alphabet data c Hin Hc). reflexivity.
Qed.

Lemma atob_foreign_character (s : string) (c : ascii) :
  In c (chars s) -> outside_alphabet c -> is_ascii_whitespace c = false ->
  atob s = Throw InvalidCharacterError.
Proof.
  intros Hin [Hout Hneq] Hws. unfold atob.
  assert (Hdata : In c (stripped s)).
  { apply filter_In. split; [exact Hin|]. rewrite Hws. reflexivity. }
  fold (stripped s).
  apply (atob_rejects_char _ c); [|exact Hout].
  destruct (length (stripped s) mod 4 =? 0)%nat; [|exact Hdata].
  apply remove_trailing_keeps; assumption.
Qed.

Lemma atob_length_4k_plus_1 (s : string) :
  (length (stripped s) mod 4 = 1)%nat -> atob s = Throw InvalidCharacterError.
Proof.
  intros Hlen. unfold atob. fold (stripped s).
  rewrite Hlen. cbn [Nat.eqb]. rewrite Hlen. reflexivity.
Qed.

Lemma atob_padding_off_length (s : string) :
  In equals_sign (stripped s) -> (length (stripped s) mod 4 <> 0)%nat ->
  atob s = Throw InvalidCharacterError.
Proof.
  intros Hin Hlen. unfold atob. fold (stripped s).
  destruct (Nat.eqb_spec (length (stripped s) mod 4) 0) as [H0|_]; [contradiction|].
  apply (atob_rejects_char _ equals_sign); [exact Hin | reflexivity].
Qed.

Lemma atob_padding_not_at_end (s : string) :
  In equals_sign (firstn (length (stripped s) - 2) (stripped s)) ->
  atob s = Throw InvalidCharacterError.
Proof.
  intros Hin. unfold atob. fold (stripped s).
  apply (atob_rejects_char _ equals_sign); [|reflexivity].
  destruct (length (stripped s) mod 4 =? 0)%nat.
  - apply remove_trailing_keeps_front. exact Hin.
  - apply (in_firstn _ _ _ Hin).
Qed.

End AtobFailures.

(* ===================================================================== *)
(** ** The processing run, stage by stage *)
(* ===================================================================== *)

Module RunFacts.

Import RunModel.
Local Open Scope string_scope.

Lemma handleProcessAudio_outcome (host : Host) (s : Sys) (file : File) :
  inputAudioFile (ui s) = Some file ->
  handleProcessAudio host s = (Ok tt, run_outcome host file s).
Proof.
  intros Hfile. unfold handleProcessAudio, run_outcome.
  unfold ebind at 1. unfold get. rewrite Hfile.
  cbv beta iota zeta delta
      [ebind setIsLoading setError setTranscript setOutputAudioUrl
       setProgressMessage update modify try_catch_finally process_steps
       fileToBase64 on_network of_result createObjectURL console_error
       with_browser ret throw ui browser net live next console
       failed ended failure_text with_net logged allocated
       inputAudioFile inputAudioUrl transcript outputAudioUrl isLoading
       progressMessage error].
  destruct (readAsDataURL host file) as [url|]; [|reflexivity].
  destruct (generateTranscriptFromAudio _ _ _ _) as [[t|e] n1]; [|reflexivity].
  destruct (generateSpeechFromText _ _ _) as [[audio|e] n2]; [|reflexivity].
  destruct (truthy audio); [|reflexivity].
  destruct (decode (template audio)) as [pcm|e]; [|reflexivity].
  destruct (createWavBlob pcm 24000 1) as [blob|e]; reflexivity.
Qed.

Lemma handleProcessAudio_no_file (host : Host) (s : Sys) :
  inputAudioFile (ui s) = None -> handleProcessAudio host s = (Ok tt, s).
Proof.
  intros Hfile. unfold handleProcessAudio, ebind, get. rewrite Hfile. reflexivity.
Qed.

End RunFacts.

(* ===================================================================== *)
(** ** The provider client, case by case *)
(* ===================================================================== *)

Module ServiceFacts.

Lemma getGenAI_without_key (env : Env) :
  truthy (API_KEY env) = false -> getGenAI env = Throw missing_key.
Proof. intros H. unfold getGenAI. rewrite H. reflexivity. Qed.

Lemma getGenAI_with_key (env : Env) :
  truthy (API_KEY env) = true ->
  getGenAI env = Ok {| apiKey := template (API_KEY env) |}.
Proof. intros H. unfold getGenAI. rewrite H. reflexivity. Qed.

Lemma transcript_without_key (env : Env) (data : maybe_string) (mime : string)
      (n : Network) :
  truthy (API_KEY env) = false ->
  generateTranscriptFromAudio env data mime n = (Throw missing_key, n).
Proof.
  intros H. unfold generateTranscriptFromAudio, ebind, of_result.
  rewrite (getGenAI_without_key env H). reflexivity.
Qed.

Lemma transcript_with_key (env : Env) (data : maybe_string) (mime : string)
      (n : Network) :
  truthy (API_KEY env) = true ->
  generateTranscriptFromAudio env data mime n =
  (match provider env (calls n) (transcribe_request data mime) with
   | Ok response => Ok (text response)
   | Throw e => Throw e
   end, sent n (transcribe_request data mime)).
Proof.
  intros H. unfold generateTranscriptFromAudio, ebind, of_result, generateContent.
  rewrite (getGenAI_with_key env H).
  fold (transcribe_request data mime).
  destruct (provider env (calls n) (transcribe_request data mime)); reflexivity.
Qed.

Lemma speech_without_key (env : Env) (t : maybe_string) (n : Network) :
  truthy (API_KEY env) = false ->
  generateSpeechFromText env t n = (Throw missing_key, n).
Proof.
  intros H. unfold generateSpeechFromText, ebind, of_result.
  rewrite (getGenAI_without_key env H). reflexivity.
Qed.

Lemma speech_with_key (env : Env) (t : maybe_string) (n : Network) :
  truthy (API_KEY env) = true ->
  generateSpeechFromText env t n =
  (match provider env (calls n) (speech_request t) with
   | Ok response => Ok (first_inline_data response)
   | Throw e => Throw e
   end, sent n (speech_request t)).
Proof.
  intros H. unfold generateSpeechFromText, ebind, of_result, generateContent.
  rewrite (getGenAI_with_key env H).
  fold (speech_request t).
  destruct (provider env (calls n) (speech_request t)); reflexivity.
Qed.

End ServiceFacts.

(* ===================================================================== *)
(** ** Object URLs across the handlers *)
(* ===================================================================== *)

Module UrlFacts.

Import RunFacts.

(** The browser a run leaves keeps every URL that was live before it:
    [handleProcessAudio] never revokes. *)
Lemma run_outcome_keeps_live (host : Host) (file : File) (s : Sys) (u : ObjectURL) :
  In u (live (browser s)) -> In u (live (browser (run_outcome host file s))).
Proof.
  intros Hin. unfold run_outcome.
  destruct (readAsDataURL host file) as [url|]; [|exact Hin].
  destruct (generateTranscriptFromAudio _ _ _ _) as [[t|e] n1]; [|exact Hin].
  destruct (generateSpeechFromText _ _ _) as [[audio|e] n2]; [|exact Hin].
  destruct (truthy audio); [|exact Hin].
  destruct (decode (template audio)) as [pcm|e]; [|exact Hin].
  destruct (createWavBlob pcm 24000 1) as [blob|e]; [|exact Hin].
  right. exact Hin.
Qed.

(** It leaves the input URL in place and stores either no output URL or
    the fresh one. *)
Lemma run_outcome_urls (host : Host) (file : File) (s : Sys) :
  inputAudioUrl (ui (run_outcome host file s)) = inputAudioUrl (ui s)
  /\ (outputAudioUrl (ui (run_outcome host file s)) = None
      \/ outputAudioUrl (ui (run_outcome host file s)) = Some (next (browser s))).
Proof.
  unfold run_outcome.
  destruct (readAsDataURL host file) as [url|]; [|split; [reflexivity|left; reflexivity]].
  destruct (generateTranscriptFromAudio _ _ _ _) as [[t|e] n1];
    [|split; [reflexivity|left; reflexivity]].
  destruct (generateSpeechFromText _ _ _) as [[audio|e] n2];
    [|split; [reflexivity|left; reflexivity]].
  destruct (truthy audio); [|split; [reflexivity|left; reflexivity]].
  destruct (decode (template audio)) as [pcm|e];
    [|split; [reflexivity|left; reflexivity]].
  destruct (createWavBlob pcm 24000 1) as [blob|e];
    [|split; [reflexivity|left; reflexivity]].
  split; [reflexivity|right; reflexivity].
Qed.

(** A run that starts with an output URL in the state leaves that URL
    live and unreferenced, whatever the host does. *)
Lemma process_leaks_previous_output (host : Host) (s : Sys) (file : File)
      (u : ObjectURL) :
  inputAudioFile (ui s) = Some file ->
  outputAudioUrl (ui s) = Some u ->
  inputAudioUrl (ui s) <> Some u ->
  In u (live (browser s)) ->
  (u < next (browser s))%nat ->
  In u (leaked (snd (handleProcessAudio host s))).
Proof.
  intros Hfile Hout Hin Hlive Hfresh.
  rewrite (handleProcessAudio_outcome host s file Hfile). cbn [snd].
  unfold leaked. apply filter_In.
  split; [apply run_outcome_keeps_live; exact Hlive|].
  unfold in_use.
  destruct (run_outcome_urls host file s) as [-> Ho].
  apply negb_true_iff, orb_false_iff. split.
  - destruct (inputAudioUrl (ui s)) as [v|]; [|reflexivity].
    apply Nat.eqb_neq. congruence.
  - destruct Ho as [-> | ->]; [reflexivity|].
    apply Nat.eqb_neq. lia.
Qed.

(** A leaked URL stays leaked through every later run. *)
Lemma process_keeps_leaks (host : Host) (s : Sys) (u : ObjectURL) :
  In u (leaked s) ->
  (u < next (browser s))%nat ->
  In u (leaked (snd (handleProcessAudio host s))).
Proof.
  intros Hleak Hfresh.
  destruct (inputAudioFile (ui s)) as [file|] eqn:Hfile;
    [|rewrite (handleProcessAudio_no_file host s Hfile); exact Hleak].
  rewrite (handleProcessAudio_outcome host s file Hfile). cbn [snd].
  unfold leaked in *. apply filter_In in Hleak. destruct Hleak as [Hlive Huse].
  apply filter_In. split; [apply run_outcome_keeps_live; exact Hlive|].
  unfold in_use in *.
  destruct (run_outcome_urls host file s) as [-> Ho].
  apply negb_true_iff, orb_false_iff in Huse. destruct Huse as [Hi _].
  apply negb_true_iff, orb_false_iff. split; [exact Hi|].
  destruct Ho as [-> | ->]; [reflexivity|].
  apply Nat.eqb_neq. lia.
Qed.

(** [handleFileChange], by contrast, revokes both URLs of the state
    before it stores the new one. *)
Lemma handleFileChange_revokes (s : Sys) (file : File) (u : ObjectURL) :
  inputAudioUrl (ui s) = Some u \/ outputAudioUrl (ui s) = Some u ->
  (u < next (browser s))%nat ->
  ~ In u (live (browser (snd (handleFileChange file s)))).
Proof.
  intros Hu Hfresh.
  unfold handleFileChange.
  cbv beta iota zeta delta
      [ebind get setInputAudioFile setInputAudioUrl setTranscript setOutputAudioUrl
       setError update modify createObjectURL revokeObjectURL with_browser ret snd].
  assert (Hdrop : forall l, ~ In u (filter (fun x => negb (Nat.eqb x u)) l)).
  { intros l Hin. apply filter_In in Hin. destruct Hin as [_ Hne].
    rewrite Nat.eqb_refl in Hne. discriminate Hne. }
  assert (Hkeep : forall v l, ~ In u l -> ~ In u (filter (fun x => negb (Nat.eqb x v)) l)).
  { intros v l Hn Hin. apply filter_In in Hin. tauto. }
  destruct (inputAudioUrl (ui s)) as [i|] eqn:Hi;
    destruct (outputAudioUrl (ui s)) as [o|] eqn:Ho;
    cbn [ui browser net live next console inputAudioUrl outputAudioUrl];
    intros [Hn|Hin]; try lia; revert Hin.
  - destruct Hu as [Hu|Hu]; inversion Hu; subst.
    + apply Hkeep, Hdrop.
    + apply Hdrop.
  - destruct Hu as [Hu|Hu]; inversion Hu; subst. apply Hdrop.
  - destruct Hu as [Hu|Hu]; inversion Hu; subst. apply Hdrop.
  - destruct Hu as [Hu|Hu]; inversion Hu.
Qed.

End UrlFacts.

(* ===================================================================== *)
(** ** The decoding loop: sizes, and input without padding *)
(* ===================================================================== *)

Module CodecFacts.

Import WavLayout WavFacts Base64Facts AtobFacts AtobRoundTrip AtobFailures.

(** After [k] sextets the buffer holds [6 * (k mod 4)] bits and
    [3 * (k / 4)] bytes are out. *)
Lemma push_sextets_progress (vals : list Z) :
  let st := fold_left push_sextet vals start in
  bits st = 6 * (Z.of_nat (length vals) mod 4)
  /\ Z.of_nat (length (output st)) = 3 * (Z.of_nat (length vals) / 4).
Proof.
  induction vals as [|v vals IH] using rev_ind; [split; reflexivity|].
  rewrite fold_left_app. cbn [fold_left].
  destruct IH as [Hbits Hout]. rewrite length_app. cbn [length].
  set (st := fold_left push_sextet vals start) in *.
  set (k := Z.of_nat (length vals)) in *.
  replace (Z.of_nat (length vals + 1)) with (k + 1) by (subst k; lia).
  assert (Hk : 0 <= k) by (subst k; lia).
  unfold push_sextet. destruct (Z.eqb_spec (bits st + 6) 24) as [H24|H24];
    cbn [bits output].
  - rewrite length_app. cbn [length]. split.
    + rewrite Hbits in H24. Z.div_mod_to_equations. lia.
    + rewrite Hbits in H24. rewrite Nat2Z.inj_add, Hout.
      change (Z.of_nat 3) with 3. Z.div_mod_to_equations. lia.
  - split.
    + rewrite Hbits in *. Z.div_mod_to_equations. lia.
    + rewrite Hbits in H24. rewrite Hout. Z.div_mod_to_equations. lia.
Qed.

Lemma length_flush (vals : list Z) :
  Z.of_nat (length vals) mod 4 <> 1 ->
  Z.of_nat (length (flush (fold_left push_sextet vals start)))
  = 3 * Z.of_nat (length vals) / 4.
Proof.
  intros Hne. destruct (push_sextets_progress vals) as [Hbits Hout].
  set (st := fold_left push_sextet vals start) in *.
  set (k := Z.of_nat (length vals)) in *.
  assert (Hk : 0 <= k) by (subst k; lia).
  unfold flush.
  destruct (Z.eqb_spec (bits st) 12) as [H12|H12];
    [|destruct (Z.eqb_spec (bits st) 18) as [H18|H18]];
    rewrite ?length_app; cbn [length]; rewrite ?Nat2Z.inj_add, ?Hout;
    rewrite Hbits in *; Z.div_mod_to_equations; lia.
Qed.

(** [atob] as a function of the characters it decodes. *)
Lemma atob_payload (s : string) :
  atob s =
  if (length (payload_chars s) mod 4 =? 1)%nat then Throw InvalidCharacterError
  else if negb (forallb in_alphabet (payload_chars s)) then Throw InvalidCharacterError
       else Ok (string_of_list_byte
                  (flush (fold_left push_sextet (map b64_index (payload_chars s))
                                    start))).
Proof. reflexivity. Qed.

Lemma length_remove_trailing (data : list ascii) :
  (length (remove_trailing_equals data) <= length data)%nat.
Proof.
  unfold remove_trailing_equals.
  destruct (rev data) as [|c1 [|c2 r]] eqn:Hrev; [lia| |].
  - destruct (is_equals c1); cbn [length]; lia.
  - assert (Hlen : length data = S (S (length r))).
    { rewrite <- (length_rev data), Hrev. reflexivity. }
    destruct (is_equals c1); [|lia].
    destruct (is_equals c2); rewrite length_rev; cbn [length]; lia.
Qed.

Lemma length_payload_chars (s : string) :
  (length (payload_chars s) <= String.length s)%nat.
Proof.
  unfold payload_chars.
  assert (Hs : (length (stripped s) <= String.length s)%nat).
  { unfold stripped. rewrite <- length_chars. apply filter_length_le. }
  destruct (length (stripped s) mod 4 =? 0)%nat; [|exact Hs].
  pose proof (length_remove_trailing (stripped s)). lia.
Qed.

Lemma length_binary_string (bs : list byte) :
  length (list_byte_of_string (string_of_list_byte bs)) = length bs.
Proof. rewrite list_byte_of_string_of_list_byte. reflexivity. Qed.

(** The encoding without padding, seen by [atob]. *)
Lemma payload_chars_unpadded (B : list byte) :
  payload_chars (base64_encode_unpadded B) = map b64_char (sextets B).
Proof.
  unfold payload_chars, stripped, base64_encode_unpadded, chars.
  rewrite list_ascii_of_string_of_list_ascii.
  rewrite (chars_not_whitespace _ (sextets_range B)).
  destruct (length (map b64_char (sextets B)) mod 4 =? 0)%nat; [|reflexivity].
  apply remove_trailing_none, chars_not_equals, sextets_range.
Qed.

Lemma length_sextets_mod4 (B : list byte) : (length (sextets B) mod 4 <> 1)%nat.
Proof.
  destruct (padding_cases B) as [(_ & _ & ->)|[(_ & _ & ->)|(_ & _ & ->)]].
  - rewrite <- (Nat.add_0_r (4 * _)), mod4_of by lia. discriminate.
  - rewrite mod4_of by lia. discriminate.
  - rewrite mod4_of by lia. discriminate.
Qed.

Lemma atob_unpadded (B : list byte) :
  atob (base64_encode_unpadded B) = Ok (string_of_list_byte B).
Proof.
  rewrite atob_payload, payload_chars_unpadded, length_map.
  destruct (Nat.eqb_spec (length (sextets B) mod 4) 1) as [H1|_];
    [exfalso; exact (length_sextets_mod4 B H1)|].
  rewrite (chars_in_alphabet _ (sextets_range B)). cbn [negb].
  rewrite (b64_index_char _ (sextets_range B)).
  unfold start. rewrite decode_sextets. reflexivity.
Qed.

(** The layout of the encoder's output for arbitrary numbers. *)
Lemma header_wrapped (P : list byte) (sampleRate numChannels : Z) :
  wrapped_layout P sampleRate numChannels
    (wav_header (Z.of_nat (length P)) sampleRate numChannels ++ P).
Proof.
  destruct (header_fields (Z.of_nat (length P)) sampleRate numChannels P).
  split; try assumption;
    match goal with
    | H : ?l = Ok (le_combine _) |- ?l = Ok _ => rewrite H; f_equal
    end;
    rewrite <- ?Z.mul_assoc; apply le_combine_split.
Qed.

End CodecFacts.

(* ===================================================================== *)
(** ** Splitting a data URL *)
(* ===================================================================== *)

Module UploadFacts.

Import Base64Facts.
Local Open Scope string_scope.

Lemma chars_append (a b : string) : chars (a ++ b) = (chars a ++ chars b)%list.
Proof.
  induction a as [|c a IH]; [reflexivity|].
  cbn [append chars list_ascii_of_string]. unfold chars in IH. rewrite IH.
  reflexivity.
Qed.

Lemma comma_free_append (a b : string) :
  comma_free a -> comma_free b -> comma_free (a ++ b).
Proof.
  unfold comma_free. intros Ha Hb. rewrite chars_append.
  apply Forall_app. split; assumption.
Qed.

Lemma split_comma_free (s : string) : comma_free s -> split_comma s = [s].
Proof.
  unfold comma_free. induction s as [|c s IH]; intros Hs; [reflexivity|].
  inversion Hs as [|c' l Hc Hrest]; subst.
  cbn [split_comma]. rewrite Hc, (IH Hrest). reflexivity.
Qed.

Lemma split_comma_at (a r : string) :
  comma_free a -> split_comma (a ++ String ","%char r) = a :: split_comma r.
Proof.
  unfold comma_free. induction a as [|c a IH]; intros Ha; [reflexivity|].
  inversion Ha as [|c' l Hc Hrest]; subst.
  cbn [append split_comma]. rewrite Hc, (IH Hrest). reflexivity.
Qed.

Lemma b64_char_not_comma (n : Z) :
  0 <= n < 64 -> Ascii.eqb (b64_char n) ","%char = false.
Proof.
  intros Hn. destruct (b64_char_facts n Hn) as [Hv _].
  destruct (Ascii.eqb_spec (b64_char n) ","%char) as [Heq|]; [|reflexivity].
  rewrite Heq in Hv. discriminate Hv.
Qed.

Lemma comma_free_base64 (B : list byte) : comma_free (base64_encode B).
Proof.
  unfold comma_free, base64_encode, chars.
  rewrite list_ascii_of_string_of_list_ascii. apply Forall_app. split.
  - pose proof (sextets_range B) as Hr.
    induction Hr as [|n l Hn _ IH]; constructor; [|exact IH].
    apply b64_char_not_comma, Hn.
  - unfold padding. induction ((3 - length B mod 3) mod 3)%nat; constructor;
      [reflexivity|assumption].
Qed.

End UploadFacts.

(* ===================================================================== *)
(** ** The handlers: effects on the state, the network and the URLs *)
(* ===================================================================== *)

Module HandlerFacts.

Import WavFacts RunFacts ServiceFacts.
Local Open Scope string_scope.

Lemma handleFileChange_effect (file : File) (s : Sys) :
  handleFileChange file s = (Ok tt, after_selection file s).
Proof.
  unfold handleFileChange, after_selection, revoked.
  cbv beta iota zeta delta
      [ebind get setInputAudioFile setInputAudioUrl setTranscript setOutputAudioUrl
       setError update modify createObjectURL revokeObjectURL with_browser ret].
  destruct (inputAudioUrl (ui s)) as [i|]; destruct (outputAudioUrl (ui s)) as [o|];
    reflexivity.
Qed.

Lemma createWavBlob_ok_even (pcm : list byte) (sr ch : Z) (blob : Blob) :
  createWavBlob pcm sr ch = Ok blob -> Nat.Even (length pcm).
Proof.
  intros Hok. apply Nat.even_spec.
  destruct (Nat.even (length pcm)) eqn:He; [reflexivity|].
  rewrite (createWavBlob_odd pcm sr ch He) in Hok. discriminate Hok.
Qed.

Lemma truthy_nonempty (a : string) : a <> "" -> truthy (Some a) = true.
Proof.
  intros Hne. cbn [truthy]. apply negb_true_iff, String.eqb_neq. exact Hne.
Qed.

Lemma truthy_inv (v : maybe_string) :
  truthy v = true -> exists a, v = Some a /\ a <> "".
Proof.
  destruct v as [a|]; [|discriminate]. cbn [truthy]. intros H.
  exists a. split; [reflexivity|].
  apply String.eqb_neq, negb_true_iff. exact H.
Qed.

(** The state a run leaves when every stage goes through. *)
Lemma run_outcome_success (host : Host) (file : File) (s : Sys)
      (t : maybe_string) (n2 : Network) :
  stages_succeed host file s t n2 ->
  run_outcome host file s =
  {| ui := ended (ui s) t (Some (next (browser s))) None;
     browser := allocated (with_net (browser s) n2) |}.
Proof.
  intros (url & n1 & audio & pcm & Hread & Ht & Ha & Hne & Hd & He).
  unfold run_outcome. rewrite Hread, Ht, Ha, (truthy_nonempty _ Hne).
  cbn [template]. rewrite Hd.
  rewrite (createWavBlob_even pcm 24000 1) by (apply Nat.even_spec, He).
  reflexivity.
Qed.

(** A run ends without error only when every stage went through. *)
Lemma run_outcome_no_error (host : Host) (file : File) (s : Sys) :
  error (ui (run_outcome host file s)) = None ->
  exists t n2, stages_succeed host file s t n2.
Proof.
  unfold run_outcome, stages_succeed.
  destruct (readAsDataURL host file) as [url|]; [|discriminate].
  destruct (generateTranscriptFromAudio _ _ _ _) as [[t|e] n1] eqn:Ht; [|discriminate].
  destruct (generateSpeechFromText _ _ _) as [[audio|e] n2] eqn:Ha; [|discriminate].
  destruct (truthy audio) eqn:Htr; [|discriminate].
  destruct (truthy_inv _ Htr) as (a & -> & Hne). cbn [template].
  destruct (decode a) as [pcm|e] eqn:Hd; [|discriminate].
  destruct (createWavBlob pcm 24000 1) as [blob|e] eqn:Hw; [|discriminate].
  intros _. exists t, n2, url, n1, a, pcm.
  repeat split; try assumption; try reflexivity.
  apply (createWavBlob_ok_even _ _ _ _ Hw).
Qed.

(** What a client call does to the network: nothing, or one request. *)
Lemma transcript_network (env : Env) (data : maybe_string) (mime : string)
      (n : Network) :
  calls (snd (generateTranscriptFromAudio env data mime n)) = calls n
  \/ calls (snd (generateTranscriptFromAudio env data mime n))
     = (calls n ++ [transcribe_request data mime])%list.
Proof.
  destruct (truthy (API_KEY env)) eqn:Hk.
  - right. rewrite (transcript_with_key _ _ _ _ Hk). reflexivity.
  - left. rewrite (transcript_without_key _ _ _ _ Hk). reflexivity.
Qed.

Lemma speech_network (env : Env) (t : maybe_string) (n : Network) :
  calls (snd (generateSpeechFromText env t n)) = calls n
  \/ calls (snd (generateSpeechFromText env t n))
     = (calls n ++ [speech_request t])%list.
Proof.
  destruct (truthy (API_KEY env)) eqn:Hk.
  - right. rewrite (speech_with_key _ _ _ Hk). reflexivity.
  - left. rewrite (speech_without_key _ _ _ Hk). reflexivity.
Qed.

(** The network after a run: the one the last client call left. *)
Lemma run_outcome_net (host : Host) (file : File) (s : Sys) :
  net (browser (run_outcome host file s)) = net (browser s)
  \/ (exists url,
         readAsDataURL host file = Some url
         /\ let r1 := generateTranscriptFromAudio (service host)
                        (nth_error (split_comma url) 1) (file_type file)
                        (net (browser s)) in
            (net (browser (run_outcome host file s)) = snd r1
             /\ forall t, fst r1 <> Ok t)
            \/ exists t,
                fst r1 = Ok t
                /\ net (browser (run_outcome host file s))
                   = snd (generateSpeechFromText (service host) t (snd r1))).
Proof.
  unfold run_outcome.
  destruct (readAsDataURL host file) as [url|]; [|left; reflexivity].
  right. exists url. split; [reflexivity|]. cbv zeta.
  destruct (generateTranscriptFromAudio _ _ _ _) as [[t|e] n1]; cbn [fst snd].
  - right. exists t. split; [reflexivity|].
    destruct (generateSpeechFromText _ _ _) as [[audio|e] n2]; cbn [snd];
      [|reflexivity].
    destruct (truthy audio); [|reflexivity].
    destruct (decode (template audio)) as [pcm|e]; [|reflexivity].
    destruct (createWavBlob pcm 24000 1); reflexivity.
  - left. split; [reflexivity|]. intros t Ht. discriminate Ht.
Qed.

End HandlerFacts.

(* ===================================================================== *)
(** ** Revoked and leaked URLs as filters *)
(* ===================================================================== *)

Module UrlCounting.

Lemma in_revoked (o : option ObjectURL) (l : list ObjectURL) (u : ObjectURL) :
  In u (revoked o l) <-> In u l /\ o <> Some u.
Proof.
  destruct o as [v|]; cbn [revoked].
  - rewrite filter_In, negb_true_iff, Nat.eqb_neq. split.
    + intros [Hin Hne]. split; [exact Hin|]. congruence.
    + intros [Hin Hne]. split; [exact Hin|]. congruence.
  - split; [intros H; split; [exact H|discriminate] | tauto].
Qed.

Lemma filter_all {A : Type} (f : A -> bool) (l : list A) :
  Forall (fun x => f x = true) l -> filter f l = l.
Proof.
  induction 1 as [|x l Hx _ IH]; [reflexivity|].
  cbn [filter]. rewrite Hx, IH. reflexivity.
Qed.

Lemma filter_twice {A : Type} (f g : A -> bool) (l : list A) :
  filter f (filter g l) = filter (fun x => g x && f x) l.
Proof.
  induction l as [|x l IH]; [reflexivity|].
  cbn [filter]. destruct (g x); cbn [andb filter]; rewrite IH; reflexivity.
Qed.

(** Revoking the two URLs of a state leaves exactly its leaked URLs. *)
Lemma revoked_both_leaked (st : State) (l : list ObjectURL) :
  revoked (outputAudioUrl st) (revoked (inputAudioUrl st) l)
  = filter (fun url => negb (in_use st url)) l.
Proof.
  unfold in_use, revoked.
  destruct (inputAudioUrl st) as [i|]; destruct (outputAudioUrl st) as [o|].
  - rewrite filter_twice. apply filter_ext. intros x.
    rewrite (Nat.eqb_sym x i), (Nat.eqb_sym x o).
    destruct (Nat.eqb i x), (Nat.eqb o x); reflexivity.
  - apply filter_ext. intros x. rewrite (Nat.eqb_sym x i), orb_false_r. reflexivity.
  - apply filter_ext. intros x. rewrite (Nat.eqb_sym x o). reflexivity.
  - symmetry. apply filter_all. apply Forall_forall. intros x _. reflexivity.
Qed.

(** In a list without duplicates, dropping one more element that passes
    the test shortens the filtered list by one. *)
Lemma length_filter_drop (f : ObjectURL -> bool) (u : ObjectURL)
      (l : list ObjectURL) :
  NoDup l -> In u l -> f u = true ->
  length (filter f l)
  = S (length (filter (fun x => f x && negb (Nat.eqb u x)) l)).
Proof.
  induction 1 as [|x l Hnotin Hnd IH]; intros Hin Hf; [contradiction|].
  cbn [filter]. destruct Hin as [->|Hin].
  - rewrite Hf, Nat.eqb_refl. cbn [andb negb length]. f_equal.
    f_equal. apply filter_ext_in. intros y Hy.
    destruct (Nat.eqb_spec u y) as [->|]; [contradiction|].
    rewrite andb_true_r. reflexivity.
  - assert (Hne : Nat.eqb u x = false).
    { apply Nat.eqb_neq. intros ->. contradiction. }
    rewrite Hne. cbn [negb]. rewrite andb_true_r.
    destruct (f x); cbn [length]; rewrite (IH Hin Hf); reflexivity.
Qed.

Lemma NoDup_revoked (o : option ObjectURL) (l : list ObjectURL) :
  NoDup l -> NoDup (revoked o l).
Proof. destruct o; cbn [revoked]; [apply NoDup_filter|trivial]. Qed.

Lemma Forall_revoked (P : ObjectURL -> Prop) (o : option ObjectURL)
      (l : list ObjectURL) :
  Forall P l -> Forall P (revoked o l).
Proof.
  intros H. apply Forall_forall. intros x Hx.
  apply in_revoked in Hx. rewrite Forall_forall in H. apply H, Hx.
Qed.

End UrlCounting.

(* ===================================================================== *)
(** ** What every handler preserves *)
(* ===================================================================== *)

Module InvariantFacts.

Import RunFacts HandlerFacts UrlCounting.
Local Open Scope string_scope.

(** A run either fails, or ends with the fresh URL as output. *)
Lemma run_outcome_shape (host : Host) (file : File) (s : Sys) :
  (exists t n e, run_outcome host file s = failed s t n e)
  \/ (exists t n,
         run_outcome host file s =
         {| ui := ended (ui s) t (Some (next (browser s))) None;
            browser := allocated (with_net (browser s) n) |}).
Proof.
  unfold run_outcome.
  destruct (readAsDataURL host file) as [url|]; [|left; eauto].
  destruct (generateTranscriptFromAudio _ _ _ _) as [[t|e] n1]; [|left; eauto].
  destruct (generateSpeechFromText _ _ _) as [[audio|e] n2]; [|left; eauto].
  destruct (truthy audio); [|left; eauto].
  destruct (decode (template audio)) as [pcm|e]; [|left; eauto].
  destruct (createWavBlob pcm 24000 1) as [blob|e]; [right|left]; eauto.
Qed.

(** After a run the leaked URLs are the live URLs of the start state
    but the input URL. *)
Lemma leaked_after_run (host : Host) (file : File) (s : Sys) :
  Forall (fun u => (u < next (browser s))%nat) (live (browser s)) ->
  leaked (run_outcome host file s) = all_but_input s.
Proof.
  intros Hb. unfold all_but_input.
  destruct (run_outcome_shape host file s) as [(t & n & e & ->)|(t & n & ->)];
    unfold leaked, in_use;
    cbn [failed ended logged with_net allocated ui browser inputAudioUrl
         outputAudioUrl live next filter].
  - apply filter_ext. intros u. rewrite orb_false_r. reflexivity.
  - rewrite Nat.eqb_refl, orb_true_r. cbn [negb].
    apply filter_ext_in. intros u Hu.
    rewrite Forall_forall in Hb. specialize (Hb u Hu).
    replace (Nat.eqb (next (browser s)) u) with false
      by (symmetry; apply Nat.eqb_neq; lia).
    rewrite orb_false_r. reflexivity.
Qed.

Lemma leaked_before_run (s : Sys) :
  NoDup (live (browser s)) ->
  (forall u, outputAudioUrl (ui s) = Some u -> In u (live (browser s))) ->
  (forall u, outputAudioUrl (ui s) = Some u -> inputAudioUrl (ui s) <> Some u) ->
  length (all_but_input s)
  = (length (leaked s) + if present (outputAudioUrl (ui s)) then 1 else 0)%nat.
Proof.
  intros Hnd Hlive Hdist. unfold all_but_input, leaked, in_use.
  destruct (outputAudioUrl (ui s)) as [o|] eqn:Ho; cbn [present].
  - rewrite (length_filter_drop _ o).
    + rewrite Nat.add_1_r. f_equal. f_equal. apply filter_ext. intros u.
      rewrite negb_orb. reflexivity.
    + exact Hnd.
    + apply Hlive. reflexivity.
    + destruct (inputAudioUrl (ui s)) as [i|] eqn:Hi; [|reflexivity].
      apply negb_true_iff, Nat.eqb_neq. intros ->.
      apply (Hdist o eq_refl). reflexivity.
  - rewrite Nat.add_0_r. f_equal. apply filter_ext. intros u.
    rewrite orb_false_r. reflexivity.
Qed.

(** The members of the two lists. *)
Lemma in_all_but_input (s : Sys) (v : ObjectURL) :
  In v (all_but_input s)
  <-> In v (live (browser s)) /\ inputAudioUrl (ui s) <> Some v.
Proof.
  unfold all_but_input. rewrite filter_In.
  destruct (inputAudioUrl (ui s)) as [i|].
  - rewrite negb_true_iff, Nat.eqb_neq. split; intros [Hin Hne]; split;
      try assumption; congruence.
  - split; intros [Hin _]; split; try assumption; [discriminate|reflexivity].
Qed.

Lemma in_leaked (s : Sys) (v : ObjectURL) :
  In v (leaked s)
  <-> In v (live (browser s))
      /\ inputAudioUrl (ui s) <> Some v /\ outputAudioUrl (ui s) <> Some v.
Proof.
  unfold leaked, in_use. rewrite filter_In, negb_orb, andb_true_iff.
  destruct (inputAudioUrl (ui s)) as [i|]; destruct (outputAudioUrl (ui s)) as [o|];
    rewrite ?negb_true_iff, ?Nat.eqb_neq; cbn [negb];
    split; intros H; repeat split; try tauto; try congruence; try discriminate;
    destruct H as (? & ? & ?); congruence.
Qed.

Lemma only_input_live_selection (file : File) (s : Sys) :
  only_input_live s -> only_input_live (after_selection file s).
Proof.
  intros (Ho & Hl & Hc). unfold only_input_live.
  cbn [after_selection ui browser outputAudioUrl inputAudioUrl live net].
  rewrite Ho, Hl. split; [reflexivity|]. split; [|exact Hc].
  destruct (inputAudioUrl (ui s)) as [u|]; cbn [revoked filter].
  - rewrite Nat.eqb_refl. reflexivity.
  - reflexivity.
Qed.

Lemma last_cons_default {A : Type} (l : list A) :
  forall (x d : A), last (x :: l) d = last l x.
Proof.
  induction l as [|y l IH]; intros x d; [reflexivity|].
  change (last (x :: y :: l) d) with (last (y :: l) d).
  rewrite (IH y d), (IH y x). reflexivity.
Qed.

Lemma selections_run (host : Host) (files : list File) :
  forall s,
    only_input_live s ->
    only_input_live (run host (map SelectFile files) s)
    /\ inputAudioFile (ui (run host (map SelectFile files) s))
       = last (map Some files) (inputAudioFile (ui s)).
Proof.
  induction files as [|f files IH]; intros s Hs; [split; [exact Hs|reflexivity]|].
  cbn [map run fold_left handle]. rewrite handleFileChange_effect. cbn [snd].
  destruct (IH (after_selection f s) (only_input_live_selection f s Hs))
    as [Hq Hlast].
  split; [exact Hq|].
  unfold run in Hlast. rewrite Hlast. cbn [after_selection ui inputAudioFile].
  symmetry. apply last_cons_default.
Qed.

End InvariantFacts.

(* ===================================================================== *)
(** ** The run in time: what each stretch does, and what it preserves *)
(* ===================================================================== *)

Module AsyncFacts.

Import RunFacts HandlerFacts UrlCounting InvariantFacts.
Local Open Scope string_scope.

Ltac run_stretch :=
  cbv beta iota zeta delta
      [begin resume stretch started catch_block finally_block suspended
       ebind get setIsLoading setError setTranscript setOutputAudioUrl
       setProgressMessage update modify fileToBase64 on_network of_result
       createObjectURL console_error with_browser ret throw];
  cbn [ui browser net live next console inputAudioFile inputAudioUrl
       transcript outputAudioUrl isLoading progressMessage error fst snd].

(** The click: nothing without a file; with a file the component is
    loading, cleared, and suspended on the read. *)
Lemma begin_shape (host : Host) (s : Sys) :
  (inputAudioFile (ui s) = None /\ begin host s = (Ok None, s))
  \/ (exists r s',
         begin host s = (Ok (Some (AwaitRead r)), s')
         /\ inputAudioFile (ui s) <> None
         /\ inputAudioFile (ui s') = inputAudioFile (ui s)
         /\ inputAudioUrl (ui s') = inputAudioUrl (ui s)
         /\ outputAudioUrl (ui s') = None
         /\ isLoading (ui s') = true
         /\ error (ui s') = None
         /\ live (browser s') = live (browser s)
         /\ next (browser s') = next (browser s)).
Proof.
  destruct (inputAudioFile (ui s)) as [file|] eqn:Hfile.
  - right. unfold begin. unfold ebind at 1. unfold get. rewrite Hfile.
    run_stretch.
    destruct (readAsDataURL host file) as [url|];
      do 2 eexists; (split; [reflexivity|]);
      cbn [ui browser live next inputAudioFile inputAudioUrl outputAudioUrl
           isLoading error];
      rewrite ?Hfile; repeat split; discriminate.
  - left. split; [reflexivity|].
    unfold begin, ebind, get. rewrite Hfile. reflexivity.
Qed.

(** A stretch keeps the file and its URL; it suspends again with the
    URLs, the loading flag and the error as they were, or it ends the
    run: failed, with nothing created, or with the fresh URL as output. *)
Lemma resume_shape (host : Host) (p : Pending) (s : Sys) :
  exists r s',
    resume host p s = (Ok r, s')
    /\ inputAudioFile (ui s') = inputAudioFile (ui s)
    /\ inputAudioUrl (ui s') = inputAudioUrl (ui s)
    /\ ((r <> None
         /\ outputAudioUrl (ui s') = outputAudioUrl (ui s)
         /\ isLoading (ui s') = isLoading (ui s)
         /\ error (ui s') = error (ui s)
         /\ live (browser s') = live (browser s)
         /\ next (browser s') = next (browser s))
        \/ (r = None
            /\ isLoading (ui s') = false
            /\ progressMessage (ui s') = ""
            /\ ((exists e,
                    error (ui s') = Some ("Processing failed: " ++ message_of e)
                    /\ outputAudioUrl (ui s') = outputAudioUrl (ui s)
                    /\ live (browser s') = live (browser s)
                    /\ next (browser s') = next (browser s))
                \/ (error (ui s') = error (ui s)
                    /\ outputAudioUrl (ui s') = Some (next (browser s))
                    /\ live (browser s') = next (browser s) :: live (browser s)
                    /\ next (browser s') = S (next (browser s)))))).
Proof.
  assert (Hfail : forall e t n c,
    let s' := {| ui := {| inputAudioFile := inputAudioFile (ui s);
                          inputAudioUrl := inputAudioUrl (ui s);
                          transcript := t;
                          outputAudioUrl := outputAudioUrl (ui s);
                          isLoading := false; progressMessage := "";
                          error := Some ("Processing failed: " ++ message_of e) |};
                 browser := {| net := n; live := live (browser s);
                               next := next (browser s); console := c |} |} in
    exists r s'',
      (@Ok (option Pending) None, s') = (Ok r, s'')
      /\ inputAudioFile (ui s'') = inputAudioFile (ui s)
      /\ inputAudioUrl (ui s'') = inputAudioUrl (ui s)
      /\ ((r <> None
           /\ outputAudioUrl (ui s'') = outputAudioUrl (ui s)
           /\ isLoading (ui s'') = isLoading (ui s)
           /\ error (ui s'') = error (ui s)
           /\ live (browser s'') = live (browser s)
           /\ next (browser s'') = next (browser s))
          \/ (r = None
              /\ isLoading (ui s'') = false
              /\ progressMessage (ui s'') = ""
              /\ ((exists e,
                      error (ui s'') = Some ("Processing failed: " ++ message_of e)
                      /\ outputAudioUrl (ui s'') = outputAudioUrl (ui s)
                      /\ live (browser s'') = live (browser s)
                      /\ next (browser s'') = next (browser s))
                  \/ (error (ui s'') = error (ui s)
                      /\ outputAudioUrl (ui s'') = Some (next (browser s))
                      /\ live (browser s'') = next (browser s) :: live (browser s)
                      /\ next (browser s'') = S (next (browser s))))))).
  { intros e t n c s'. exists None, s'. split; [reflexivity|].
    split; [reflexivity|]. split; [reflexivity|]. right.
    split; [reflexivity|]. split; [reflexivity|]. split; [reflexivity|].
    left. exists e. repeat split. }
  destruct p as [[[audioData mimeType]|e]|[t|e]|[audio|e]]; run_stretch.
  - destruct (generateTranscriptFromAudio _ _ _ _) as [r n].
    do 2 eexists. split; [reflexivity|]. cbn.
    split; [reflexivity|]. split; [reflexivity|]. left.
    repeat split. discriminate.
  - apply (Hfail e).
  - destruct (generateSpeechFromText _ _ _) as [r n].
    do 2 eexists. split; [reflexivity|]. cbn.
    split; [reflexivity|]. split; [reflexivity|]. left.
    repeat split. discriminate.
  - apply (Hfail e).
  - destruct (truthy audio).
    + destruct (decode (template audio)) as [pcm|e].
      * destruct (createWavBlob pcm 24000 1) as [blob|e].
        -- do 2 eexists. split; [reflexivity|]. cbn.
           split; [reflexivity|]. split; [reflexivity|]. right.
           split; [reflexivity|]. split; [reflexivity|]. split; [reflexivity|].
           right. repeat split.
        -- apply (Hfail e).
      * apply (Hfail e).
    + apply (Hfail (JsError "Error" "Failed to generate audio data.")).
  - apply (Hfail e).
Qed.

Lemma sound_fresh : sound fresh.
Proof.
  split; cbn; try discriminate; try reflexivity; try constructor;
    intros H; exfalso; apply H; reflexivity.
Qed.

Lemma not_in_next (s : Sys) :
  Forall (fun u => (u < next (browser s))%nat) (live (browser s)) ->
  ~ In (next (browser s)) (live (browser s)).
Proof.
  intros Hb Hin. rewrite Forall_forall in Hb. specialize (Hb _ Hin). lia.
Qed.

(** A selection, also one dropped while a run is in flight. *)
Lemma sound_select (host : Host) (file : File) (page : Page) :
  sound page -> sound (act host (Select file) page).
Proof.
  intros [Hi Ho Hd Hn Hf Hb Hnd Hl Hp Hff Hfo Hfe He].
  cbn [act]. rewrite handleFileChange_effect. cbn [snd].
  split; cbn [sys pending after_selection ui browser inputAudioUrl outputAudioUrl
              inputAudioFile live next isLoading progressMessage error present];
    try discriminate; try reflexivity; try assumption.
  - intros u Hu. inversion Hu; subst. left. reflexivity.
  - constructor; [lia|].
    apply Forall_revoked, Forall_revoked.
    eapply Forall_impl; [|exact Hb]. cbn. intros; lia.
  - constructor; [|apply NoDup_revoked, NoDup_revoked, Hnd].
    intros Hin. apply in_revoked in Hin. destruct Hin as [Hin _].
    apply in_revoked in Hin. destruct Hin as [Hin _].
    exact (not_in_next _ Hb Hin).
Qed.

(** A click on the button. *)
Lemma sound_click (host : Host) (page : Page) :
  sound page -> sound (act host Click page).
Proof.
  intros Hs. cbn [act].
  destruct (isLoading (ui (sys page))) eqn:Hload; [exact Hs|].
  destruct Hs as [Hi Ho Hd Hn Hf Hb Hnd Hl Hp Hff Hfo Hfe He].
  assert (Hidle : pending page = None).
  { rewrite Hload in Hl. destruct (pending page); [discriminate Hl|reflexivity]. }
  destruct (begin_shape host (sys page))
    as [[Hnone ->]|(r & s' & -> & Hsome & Efile & Ein & Eout & Eload & Eerr
                    & Elive & Enext)];
    cbn [suspended].
  - split; cbn [sys pending present]; try assumption;
      try (intros H; exfalso; apply H; reflexivity).
    intros _. apply Hp, Hidle.
  - split; cbn [sys pending present];
      rewrite ?Efile, ?Ein, ?Eout, ?Eload, ?Eerr, ?Elive, ?Enext;
      try assumption; try discriminate; try reflexivity.
    + intros _. exact Hsome.
Qed.

(** The awaited promise settles. *)
Lemma sound_settle (host : Host) (page : Page) :
  sound page -> sound (act host Settle page).
Proof.
  intros Hs. cbn [act].
  destruct (pending page) as [p|] eqn:Hpending; [|exact Hs].
  destruct Hs as [Hi Ho Hd Hn Hf Hb Hnd Hl Hp Hff Hfo Hfe He].
  assert (Hbusy : pending page <> None) by (rewrite Hpending; discriminate).
  specialize (Hff Hbusy). specialize (Hfo Hbusy). specialize (Hfe Hbusy).
  rewrite Hpending in Hl. cbn [present] in Hl.
  destruct (resume_shape host p (sys page))
    as (r & s' & -> & Efile & Ein
        & [(Hr & Eout & Eload & Eerr & Elive & Enext)
          |(-> & Eload & Eprog
            & [(e & Eerr & Eout & Elive & Enext)|(Eerr & Eout & Elive & Enext)])]);
    cbn [suspended];
    split; cbn [sys pending present];
    rewrite ?Efile, ?Ein, ?Eout, ?Eload, ?Eerr, ?Elive, ?Enext, ?Eprog;
    try assumption; try discriminate; try reflexivity;
    try (intros H; exfalso; apply H; reflexivity).
  - destruct r; [exact Hl|exfalso; apply Hr; reflexivity].
  - intros Hr'. exfalso. apply Hr, Hr'.
  - intros _. exact Hff.
  - intros _. exact Hfo.
  - intros _. exact Hfe.
  - intros m Hm. inversion Hm. exists e. reflexivity.
  - intros u Hu. right. apply Hi, Hu.
  - intros u Hu. inversion Hu; subst. left. reflexivity.
  - intros u Hu Heq. inversion Heq; subst.
    apply (not_in_next _ Hb), Hi, Hu.
  - intros Hnone. exfalso. apply Hff.
    rewrite Hnone in Hf. destruct (inputAudioFile (ui (sys page)));
      [discriminate Hf|reflexivity].
  - constructor; [lia|]. eapply Forall_impl; [|exact Hb]. cbn. intros; lia.
  - constructor; [apply not_in_next, Hb|exact Hnd].
Qed.

Lemma sound_act (host : Host) (a : Action) (page : Page) :
  sound page -> sound (act host a page).
Proof.
  destruct a; [apply sound_select|apply sound_click|apply sound_settle].
Qed.

Lemma sound_play (host : Host) (acts : list Action) :
  forall page, sound page -> sound (play host acts page).
Proof.
  induction acts as [|a acts IH]; intros page Hs; [exact Hs|].
  cbn [play fold_left]. apply IH, sound_act, Hs.
Qed.

(** The state the click leaves, with a file. *)
Lemma begin_file (host : Host) (s : Sys) (file : File) :
  inputAudioFile (ui s) = Some file ->
  begin host s
  = (Ok (Some (AwaitRead
                 match readAsDataURL host file with
                 | Some url => Ok (nth_error (split_comma url) 1, file_type file)
                 | None => Throw (NonError "ProgressEvent")
                 end)),
     {| ui := {| inputAudioFile := inputAudioFile (ui s);
                 inputAudioUrl := inputAudioUrl (ui s);
                 transcript := Some ""; outputAudioUrl := None;
                 isLoading := true;
                 progressMessage := "Reading audio file...";
                 error := None |};
        browser := browser s |}).
Proof.
  intros Hfile. unfold begin. unfold ebind at 1. unfold get. rewrite Hfile.
  run_stretch. rewrite <- Hfile.
  destruct (readAsDataURL host file); reflexivity.
Qed.

(** With nothing dropped meanwhile, the run cut at its awaits ends in the
    state [handleProcessAudio] computes in one go. *)
Lemma uninterrupted_run (host : Host) (s : Sys) :
  isLoading (ui s) = false ->
  play host [Click; Settle; Settle; Settle] {| sys := s; pending := None |}
  = {| sys := snd (handleProcessAudio host s); pending := None |}.
Proof.
  intros Hload. unfold play. cbn [fold_left act sys pending]. rewrite Hload.
  destruct (inputAudioFile (ui s)) as [file|] eqn:Hfile.
  - rewrite (handleProcessAudio_outcome host s file Hfile), (begin_file host s file Hfile).
    cbn [snd suspended sys pending]. unfold run_outcome.
    destruct (readAsDataURL host file) as [url|]; run_stretch;
      cbn [sys pending]; [|reflexivity].
    destruct (generateTranscriptFromAudio _ _ _ _) as [[t|e] n1]; run_stretch;
      cbn [sys pending]; [|reflexivity].
    destruct (generateSpeechFromText _ _ _) as [[audio|e] n2]; run_stretch;
      cbn [sys pending]; [|reflexivity].
    destruct (truthy audio); [|reflexivity].
    destruct (decode (template audio)) as [pcm|e]; [|reflexivity].
    destruct (createWavBlob pcm 24000 1) as [blob|e]; reflexivity.
  - rewrite (handleProcessAudio_no_file host s Hfile).
    unfold begin, ebind, get. rewrite Hfile. reflexivity.
Qed.

End AsyncFacts.

(* ===================================================================== *)
(** ** Theorems about the WAV encoder *)
(* ===================================================================== *)

Section WavTheorems.

Import WavLayout WavFacts.

Lemma even_of_Even (n : nat) : Nat.Even n -> Nat.even n = true.
Proof. apply Nat.even_spec. Qed.

Lemma odd_not_even (n : nat) : Nat.Odd n -> Nat.even n = false.
Proof.
  intros Ho. apply Nat.odd_spec in Ho. rewrite <- Nat.negb_odd, Ho. reflexivity.
Qed.

(** The spec's example scenario, run on the model. *)
Example wav_example_scenario :
  exists blob, createWavBlob example_pcm 24000 1 = Ok blob
    /\ length (blob_bytes blob) = 48%nat
    /\ nth 32 (blob_bytes blob) Byte.x00 = Byte.x02
    /\ getUint32 (blob_bytes blob) 24 true = Ok 24000
    /\ slice 44 4 (blob_bytes blob) = example_pcm.
Proof. eexists. split; [vm_compute; reflexivity|]. repeat split. Qed.

(** C1 (as amended).  For every PCM byte sequence of even length, and every
    sample rate and channel count whose header values fit their fields
    (RIFF size and byte rate below 2^32, sample rate below 2^32, block
    align below 2^16, nothing negative), [createWavBlob] returns
    [44 + len P] bytes in the canonical layout: the four tags, RIFF size
    [36 + len P], format chunk size 16, format tag 1, the channel count,
    the sample rate, byte rate [sampleRate * numChannels * 2], block align
    [numChannels * 2], 16 bits per sample, data size [len P], and the
    payload unchanged from byte 44 on. *)
Theorem createWavBlob_canonical
        (P : list byte) (sampleRate numChannels : Z)
        (Heven : Nat.Even (length P))
        (Hsize : 36 + Z.of_nat (length P) < 2 ^ 32)
        (Hrate : 0 <= sampleRate < 2 ^ 32)
        (Hchan : 0 <= numChannels)
        (Halign : numChannels * 2 < 2 ^ 16)
        (Hbyte : sampleRate * numChannels * 2 < 2 ^ 32) :
  exists blob,
    createWavBlob P sampleRate numChannels = Ok blob
    /\ blob_type blob = "audio/wav"%string
    /\ canonical_layout P sampleRate numChannels (blob_bytes blob).
Proof.
  eexists. split; [apply createWavBlob_even, even_of_Even, Heven|].
  split; [reflexivity|]. cbn [blob_bytes].
  destruct (header_fields (Z.of_nat (length P)) sampleRate numChannels P).
  split; try assumption;
    match goal with
    | H : ?l = Ok (le_combine _) |- ?l = Ok _ => rewrite H; f_equal
    end;
    rewrite <- ?Z.mul_assoc;
    first [apply le_combine_u32 | apply le_combine_u16]; nia.
Qed.

Lemma createWavBlob_canonical_witness :
  Nat.Even (length example_pcm)
  /\ exists blob,
       createWavBlob example_pcm 24000 1 = Ok blob
       /\ blob_type blob = "audio/wav"%string
       /\ canonical_layout example_pcm 24000 1 (blob_bytes blob).
Proof.
  split; [exists 2%nat; reflexivity|].
  apply (createWavBlob_canonical example_pcm 24000 1);
    [exists 2%nat; reflexivity | cbn; lia ..].
Defined.

(** C1 as stated fails: with 32768 channels the block align
    [numChannels * 2] is 65536, and bytes 32-33 hold 0. *)
Lemma createWavBlob_block_align_wraps :
  Nat.Even (length (@nil byte))
  /\ exists blob,
       createWavBlob [] 24000 32768 = Ok blob
       /\ getUint16 (blob_bytes blob) 32 true = Ok 0
       /\ ~ canonical_layout [] 24000 32768 (blob_bytes blob).
Proof.
  split; [exists 0%nat; reflexivity|].
  eexists. split; [vm_compute; reflexivity|].
  split; [vm_compute; reflexivity|].
  intros [_ _ _ _ _ _ _ _ _ _ Halign _ _ _ _].
  vm_compute in Halign. discriminate Halign.
Qed.

(** C5.  Encoding the empty PCM sequence succeeds, whatever the sample
    rate and channel count, and yields exactly 44 bytes: the RIFF, WAVE,
    fmt and data tags in place, a format chunk of size 16, format tag 1,
    16 bits per sample, RIFF chunk size 36 and data size 0.  The format
    fields of bytes 22-33 are those of the call: for a sample rate and a
    channel count whose header values fit their fields, the 44 bytes are
    the canonical layout of the empty payload, with the channel count,
    the sample rate, byte rate [sampleRate * numChannels * 2] and block
    align [numChannels * 2]. *)
Theorem createWavBlob_empty (sampleRate numChannels : Z) :
  exists blob,
    createWavBlob [] sampleRate numChannels = Ok blob
    /\ length (blob_bytes blob) = 44%nat
    /\ riff_structure 36 0 (blob_bytes blob)
    /\ (0 <= sampleRate < 2 ^ 32 ->
        0 <= numChannels ->
        numChannels * 2 < 2 ^ 16 ->
        sampleRate * numChannels * 2 < 2 ^ 32 ->
        canonical_layout [] sampleRate numChannels (blob_bytes blob)).
Proof.
  eexists. split; [apply createWavBlob_even; reflexivity|].
  cbn [blob_bytes length Z.of_nat].
  split; [|split].
  - destruct (header_fields 0 sampleRate numChannels []). assumption.
  - destruct (header_fields 0 sampleRate numChannels []).
    split; assumption.
  - intros Hrate Hchan Halign Hbyte.
    apply (header_canonical [] sampleRate numChannels);
      cbn [length Z.of_nat]; lia.
Qed.

Lemma createWavBlob_empty_witness :
  exists blob,
    createWavBlob [] 24000 1 = Ok blob
    /\ length (blob_bytes blob) = 44%nat
    /\ riff_structure 36 0 (blob_bytes blob)
    /\ canonical_layout [] 24000 1 (blob_bytes blob).
Proof.
  destruct (createWavBlob_empty 24000 1) as [blob [Hok [Hlen [Hriff Hfmt]]]].
  exists blob. split; [exact Hok|]. split; [exact Hlen|]. split; [exact Hriff|].
  apply Hfmt; cbn; lia.
Defined.

(** C6 (as amended).  For every even-length payload, every sample rate in
    [0, 2^32) and every channel count in [0, 2^16), reading bytes 24-27,
    22-23 and 34-35 of the encoder's output gives back
    [(sampleRate, numChannels, 16)]. *)
Theorem header_format_roundtrip
        (P : list byte) (sampleRate numChannels : Z)
        (Heven : Nat.Even (length P))
        (Hrate : 0 <= sampleRate < 2 ^ 32)
        (Hchan : 0 <= numChannels < 2 ^ 16) :
  exists blob,
    createWavBlob P sampleRate numChannels = Ok blob
    /\ header_format (blob_bytes blob) = Ok (sampleRate, numChannels, 16).
Proof.
  eexists. split; [apply createWavBlob_even, even_of_Even, Heven|].
  cbn [blob_bytes]. unfold header_format.
  destruct (header_fields (Z.of_nat (length P)) sampleRate numChannels P).
  rewrite fa_rate0, fa_nch0, fa_bits0. cbn [bind].
  rewrite le_combine_u32, !le_combine_u16 by lia. reflexivity.
Qed.

Lemma header_format_roundtrip_witness :
  Nat.Even (length example_pcm)
  /\ exists blob,
       createWavBlob example_pcm 24000 1 = Ok blob
       /\ header_format (blob_bytes blob) = Ok (24000, 1, 16).
Proof.
  split; [exists 2%nat; reflexivity|].
  apply (header_format_roundtrip example_pcm 24000 1);
    [exists 2%nat; reflexivity | cbn; lia ..].
Defined.

(** C6 as stated fails: 65536 channels are written as 0, and a sample
    rate of 2^32 + 24000 is read back as 24000. *)
Lemma header_format_wraps :
  (exists blob,
      createWavBlob example_pcm 24000 65536 = Ok blob
      /\ header_format (blob_bytes blob) = Ok (24000, 0, 16)
      /\ header_format (blob_bytes blob) <> Ok (24000, 65536, 16))
  /\ (exists blob,
      createWavBlob example_pcm 4294991296 1 = Ok blob
      /\ header_format (blob_bytes blob) = Ok (24000, 1, 16)
      /\ header_format (blob_bytes blob) <> Ok (4294991296, 1, 16)).
Proof.
  split; eexists; (split; [vm_compute; reflexivity|]);
    (split; [vm_compute; reflexivity|]); vm_compute; discriminate.
Qed.

(** C9.  On a PCM sequence of odd length [createWavBlob] throws the
    [RangeError] of the [Int16Array] constructor and produces no output;
    on a payload that is a whole number of frames of
    [bytesPerSample * numChannels] bytes it does not throw. *)
Theorem createWavBlob_odd_length
        (P : list byte) (sampleRate numChannels : Z) :
  (Nat.Odd (length P) ->
   createWavBlob P sampleRate numChannels =
   Throw (RangeError "byte length of Int16Array should be a multiple of 2"))
  /\ (whole_frames P numChannels ->
      succeeds (createWavBlob P sampleRate numChannels)).
Proof.
  split.
  - intros Ho. apply createWavBlob_odd, odd_not_even, Ho.
  - intros [frames Hf]. eexists. apply createWavBlob_even.
    change (16 / 8) with 2 in Hf.
    apply Nat.even_spec. exists (Z.to_nat (frames * numChannels)). lia.
Qed.

Lemma createWavBlob_odd_length_witness :
  (Nat.Odd (length [Byte.x01; Byte.x00; Byte.x02])
   /\ createWavBlob [Byte.x01; Byte.x00; Byte.x02] 24000 1 =
      Throw (RangeError "byte length of Int16Array should be a multiple of 2"))
  /\ (whole_frames example_pcm 1 /\ succeeds (createWavBlob example_pcm 24000 1)).
Proof.
  split.
  - assert (Ho : Nat.Odd (length [Byte.x01; Byte.x00; Byte.x02]))
      by (exists 1%nat; reflexivity).
    split; [exact Ho|].
    exact (proj1 (createWavBlob_odd_length [Byte.x01; Byte.x00; Byte.x02] 24000 1) Ho).
  - assert (Hf : whole_frames example_pcm 1) by (exists 2; reflexivity).
    split; [exact Hf|].
    exact (proj2 (createWavBlob_odd_length example_pcm 24000 1) Hf).
Defined.

End WavTheorems.

(* ===================================================================== *)
(** ** Theorems about the audio decoder *)
(* ===================================================================== *)

Section DecoderTheorems.

Import WavLayout AtobFacts AtobRoundTrip AtobFailures.

(** C7 (as amended).  For every byte sequence [B], [decode] applied to the
    RFC 4648 encoding of [B] (with padding) returns [B].  [decode] throws
    on an input that holds a character which is neither in the alphabet,
    nor ["="], nor ASCII whitespace; on an input whose length without
    whitespace is of the form 4k + 1; on an input that holds ["="] while
    its length without whitespace is not a multiple of 4; and on an input
    that, without its whitespace, holds ["="] before its last two
    characters. *)
Theorem decode_base64 (B : list byte) (s : string) (c : ascii) :
  decode (base64_encode B) = Ok B
  /\ (In c (chars s) -> outside_alphabet c -> is_ascii_whitespace c = false ->
      decode s = Throw InvalidCharacterError)
  /\ ((length (stripped s) mod 4 = 1)%nat ->
      decode s = Throw InvalidCharacterError)
  /\ (In equals_sign (stripped s) -> (length (stripped s) mod 4 <> 0)%nat ->
      decode s = Throw InvalidCharacterError)
  /\ (In equals_sign (firstn (length (stripped s) - 2) (stripped s)) ->
      decode s = Throw InvalidCharacterError).
Proof.
  repeat split.
  - rewrite (decode_of_atob _ _ (atob_base64_encode B)).
    f_equal. apply list_byte_of_string_of_list_byte.
  - intros Hin Hout Hws. apply decode_throws_with_atob.
    apply (atob_foreign_character s c); assumption.
  - intros Hlen. apply decode_throws_with_atob, atob_length_4k_plus_1, Hlen.
  - intros Hin Hlen. apply decode_throws_with_atob.
    apply atob_padding_off_length; assumption.
  - intros Hin. apply decode_throws_with_atob, atob_padding_not_at_end, Hin.
Qed.

Lemma decode_base64_witness :
  decode (base64_encode example_pcm) = Ok example_pcm
  /\ (In "!"%char (chars "TWFu!") /\ outside_alphabet "!"%char
      /\ is_ascii_whitespace "!"%char = false
      /\ decode "TWFu!" = Throw InvalidCharacterError)
  /\ ((length (stripped "TWFuT") mod 4 = 1)%nat
      /\ decode "TWFuT" = Throw InvalidCharacterError)
  /\ (In equals_sign (stripped "TQ=") /\ (length (stripped "TQ=") mod 4 <> 0)%nat
      /\ decode "TQ=" = Throw InvalidCharacterError)
  /\ (In equals_sign (firstn (length (stripped "T===") - 2) (stripped "T==="))
      /\ decode "T===" = Throw InvalidCharacterError).
Proof.
  split; [exact (proj1 (decode_base64 example_pcm "" "!"%char))|].
  split.
  { assert (H1 : In "!"%char (chars "TWFu!")) by (cbn; tauto).
    assert (H2 : outside_alphabet "!"%char) by (split; reflexivity).
    assert (H3 : is_ascii_whitespace "!"%char = false) by reflexivity.
    refine (conj H1 (conj H2 (conj H3 _))).
    exact (proj1 (proj2 (decode_base64 [] "TWFu!" "!"%char)) H1 H2 H3). }
  split.
  { assert (H1 : (length (stripped "TWFuT") mod 4 = 1)%nat) by reflexivity.
    refine (conj H1 _).
    exact (proj1 (proj2 (proj2 (decode_base64 [] "TWFuT" "!"%char))) H1). }
  split.
  { assert (H1 : In equals_sign (stripped "TQ=")) by (cbn; tauto).
    assert (H2 : (length (stripped "TQ=") mod 4 <> 0)%nat) by (cbn; discriminate).
    refine (conj H1 (conj H2 _)).
    exact (proj1 (proj2 (proj2 (proj2 (decode_base64 [] "TQ=" "!"%char)))) H1 H2). }
  assert (H1 : In equals_sign (firstn (length (stripped "T===") - 2) (stripped "T===")))
    by (cbn; tauto).
  refine (conj H1 _).
  exact (proj2 (proj2 (proj2 (proj2 (decode_base64 [] "T===" "!"%char)))) H1).
Defined.

(** C7 as stated fails twice: a space is outside the alphabet and input
    holding one still decodes, and input without its padding (length 2,
    not a multiple of 4) decodes as well. *)
Lemma decode_accepts_whitespace_and_missing_padding :
  (In " "%char (chars "TQ ==") /\ outside_alphabet " "%char
   /\ decode "TQ ==" = Ok [Byte.x4d])
  /\ ((String.length "TQ" mod 4 <> 0)%nat /\ decode "TQ" = Ok [Byte.x4d]).
Proof.
  split.
  - split; [cbn; tauto|]. split; [split; reflexivity|]. vm_compute. reflexivity.
  - split; [cbn; discriminate|]. vm_compute. reflexivity.
Qed.

End DecoderTheorems.

(* ===================================================================== *)
(** ** Theorems about the transcription client *)
(* ===================================================================== *)

Section ServiceTheorems.

Import ServiceFacts.
Local Open Scope string_scope.

(** X26.  What [generateTranscriptFromAudio] does, case by case: it throws
    the configuration error when the API key is missing or empty, and then
    no call goes out; with a key it makes exactly one call, throws what
    the provider throws when the call fails, and otherwise returns the
    [text] field of the provider's response unchecked. *)
Theorem generateTranscriptFromAudio_outcomes
        (env : Env) (data : maybe_string) (mime : string) (n : Network) :
  (truthy (API_KEY env) = false ->
   generateTranscriptFromAudio env data mime n = (Throw missing_key, n))
  /\ (truthy (API_KEY env) = true ->
      forall e,
        provider env (calls n) (transcribe_request data mime) = Throw e ->
        generateTranscriptFromAudio env data mime n =
        (Throw e, sent n (transcribe_request data mime)))
  /\ (truthy (API_KEY env) = true ->
      forall response,
        provider env (calls n) (transcribe_request data mime) = Ok response ->
        generateTranscriptFromAudio env data mime n =
        (Ok (text response), sent n (transcribe_request data mime))).
Proof.
  split; [apply transcript_without_key|].
  split; intros Hkey x Hx; rewrite (transcript_with_key _ _ _ _ Hkey), Hx;
    reflexivity.
Qed.

Lemma generateTranscriptFromAudio_outcomes_witness :
  (truthy (API_KEY (service keyless_host)) = false
   /\ generateTranscriptFromAudio (service keyless_host) (Some "AAAA") "audio/mpeg"
        no_calls = (Throw missing_key, no_calls))
  /\ (generateTranscriptFromAudio
        (service (host_of (Some "secret") failing_provider)) (Some "AAAA")
        "audio/mpeg" no_calls
      = (Throw (JsError "ApiError" "fetch failed"),
         sent no_calls (transcribe_request (Some "AAAA") "audio/mpeg")))
  /\ (generateTranscriptFromAudio (service good_host) (Some "AAAA") "audio/mpeg"
        no_calls
      = (Ok (Some "hello"),
         sent no_calls (transcribe_request (Some "AAAA") "audio/mpeg"))).
Proof.
  split; [|split].
  - split; [reflexivity|].
    exact (proj1 (generateTranscriptFromAudio_outcomes
                    (service keyless_host) (Some "AAAA") "audio/mpeg" no_calls)
                 eq_refl).
  - exact (proj1 (proj2 (generateTranscriptFromAudio_outcomes
                           (service (host_of (Some "secret") failing_provider))
                           (Some "AAAA") "audio/mpeg" no_calls))
                 eq_refl _ eq_refl).
  - exact (proj2 (proj2 (generateTranscriptFromAudio_outcomes
                           (service good_host) (Some "AAAA") "audio/mpeg" no_calls))
                 eq_refl _ eq_refl).
Defined.

(** C8.  On the code, with a key set and a provider that answers the
    transcription call with a response carrying no text:
    [generateTranscriptFromAudio], declared to return a string, does not
    throw and returns the absent value.  The run then stores the absent
    value in the transcript cell and asks the synthesis to say
    ["undefined"]. *)
Theorem generateTranscriptFromAudio_empty_response :
  provider (service empty_host) [] (transcribe_request (Some "AAAA") "audio/mpeg")
  = Ok {| text := None; candidates := None |}
  /\ generateTranscriptFromAudio (service empty_host) (Some "AAAA") "audio/mpeg"
       no_calls
     = (Ok None, sent no_calls (transcribe_request (Some "AAAA") "audio/mpeg"))
  /\ ~ throws (fst (generateTranscriptFromAudio (service empty_host) (Some "AAAA")
                      "audio/mpeg" no_calls))
  /\ let s' := snd (handleProcessAudio empty_host (selected empty_host)) in
     transcript (ui s') = None
     /\ calls (net (browser s'))
        = [ transcribe_request (Some "AAAA") "audio/mpeg";
            SpeechRequest "gemini-2.5-flash-preview-tts"
              "Please say the following: undefined" ["AUDIO"] "Kore" ].
Proof.
  split; [reflexivity|]. split; [reflexivity|].
  split; [intros [e He]; discriminate He|].
  split; vm_compute; reflexivity.
Qed.

End ServiceTheorems.

(* ===================================================================== *)
(** ** Theorems about the processing run *)
(* ===================================================================== *)

Section RunTheorems.

Import RunFacts ServiceFacts UrlFacts.
Local Open Scope string_scope.




(** C3 (as amended).  Every run with a file selected returns without
    throwing.  When it fails, that is, ends with an error set, the error
    is one message ["Processing failed: ..."], the loading flag and the
    progress message are cleared, no output URL is set and none was
    created; the transcript is empty when the failure came before the
    transcription returned, and is the transcript the run obtained
    otherwise. *)
Theorem failed_run_state (host : Host) (s : Sys) (file : File)
        (Hfile : inputAudioFile (ui s) = Some file) :
  fst (handleProcessAudio host s) = Ok tt
  /\ let s' := snd (handleProcessAudio host s) in
     error (ui s') <> None ->
     (exists e, error (ui s') = Some ("Processing failed: " ++ message_of e))
     /\ isLoading (ui s') = false
     /\ progressMessage (ui s') = ""
     /\ outputAudioUrl (ui s') = None
     /\ live (browser s') = live (browser s)
     /\ transcript (ui s') = match transcript_obtained host file s with
                             | Some t => t
                             | None => Some ""
                             end.
Proof.
  rewrite (handleProcessAudio_outcome host s file Hfile).
  split; [reflexivity|]. cbn [snd].
  unfold run_outcome, transcript_obtained.
  destruct (readAsDataURL host file) as [url|];
    [|intros _; repeat split; eexists; reflexivity].
  destruct (generateTranscriptFromAudio _ _ _ _) as [[t|e] n1]; cbn [fst];
    [|intros _; repeat split; eexists; reflexivity].
  destruct (generateSpeechFromText _ _ _) as [[audio|e] n2];
    [|intros _; repeat split; eexists; reflexivity].
  destruct (truthy audio); [|intros _; repeat split; eexists; reflexivity].
  destruct (decode (template audio)) as [pcm|e];
    [|intros _; repeat split; eexists; reflexivity].
  destruct (createWavBlob pcm 24000 1) as [blob|e];
    [|intros _; repeat split; eexists; reflexivity].
  intros Herr. contradiction Herr. reflexivity.
Qed.

Lemma failed_run_state_witness :
  inputAudioFile (ui (selected keyless_host)) = Some clip
  /\ fst (handleProcessAudio keyless_host (selected keyless_host)) = Ok tt
  /\ let s' := snd (handleProcessAudio keyless_host (selected keyless_host)) in
     (exists e, error (ui s') = Some ("Processing failed: " ++ message_of e))
     /\ isLoading (ui s') = false
     /\ progressMessage (ui s') = ""
     /\ outputAudioUrl (ui s') = None
     /\ live (browser s') = live (browser (selected keyless_host))
     /\ transcript (ui s') = Some "".
Proof.
  split; [reflexivity|].
  destruct (failed_run_state keyless_host (selected keyless_host) clip eq_refl)
    as [Hok Hstate].
  split; [exact Hok|].
  apply Hstate. discriminate.
Defined.

(** C3 as stated fails: a run that fails at synthesis keeps the
    transcript it obtained. *)
Lemma failed_run_keeps_transcript :
  inputAudioFile (ui (selected silent_host)) = Some clip
  /\ let s' := snd (handleProcessAudio silent_host (selected silent_host)) in
     error (ui s') = Some "Processing failed: Failed to generate audio data."
     /\ transcript (ui s') = Some "hello"
     /\ transcript (ui s') <> Some "".
Proof. split; [reflexivity|]. repeat split. discriminate. Qed.

(** C10.  With no input file selected, [handleProcessAudio] returns at
    once and leaves the whole system as it was: the transcript, the error,
    the output URL, the loading flag, the progress message, and the list
    of calls sent to the provider. *)
Theorem process_without_file (host : Host) (s : Sys)
        (Hnone : inputAudioFile (ui s) = None) :
  handleProcessAudio host s = (Ok tt, s)
  /\ let s' := snd (handleProcessAudio host s) in
     transcript (ui s') = transcript (ui s)
     /\ error (ui s') = error (ui s)
     /\ outputAudioUrl (ui s') = outputAudioUrl (ui s)
     /\ isLoading (ui s') = isLoading (ui s)
     /\ progressMessage (ui s') = progressMessage (ui s)
     /\ calls (net (browser s')) = calls (net (browser s)).
Proof.
  rewrite (handleProcessAudio_no_file host s Hnone).
  split; [reflexivity|]. cbn [snd]. repeat split.
Qed.

Lemma process_without_file_witness :
  inputAudioFile (ui initial) = None
  /\ handleProcessAudio good_host initial = (Ok tt, initial).
Proof.
  split; [reflexivity|].
  exact (proj1 (process_without_file good_host initial eq_refl)).
Defined.

(** C4, on the code.  Select a file and run the processing twice, both
    runs succeeding.  The first run stores output URL 1; the second run
    clears it without revoking it and stores URL 2, so URL 1 stays live
    with nothing referring to it; selecting a new file afterwards revokes
    URLs 0 and 2 only. *)
Theorem second_run_leaks_output_url :
  let s1 := run good_host [SelectFile clip; ProcessAudio] initial in
  let s2 := run good_host [SelectFile clip; ProcessAudio; ProcessAudio] initial in
  let s3 := run good_host [SelectFile clip; ProcessAudio; ProcessAudio;
                           SelectFile clip] initial in
  (outputAudioUrl (ui s1) = Some 1 /\ leaked s1 = [])%nat
  /\ (outputAudioUrl (ui s2) = Some 2 /\ live (browser s2) = [2; 1; 0]
      /\ leaked s2 = [1])%nat
  /\ (live (browser s3) = [3; 1] /\ leaked s3 = [1])%nat.
Proof. vm_compute. repeat split. Qed.

End RunTheorems.

(* ===================================================================== *)
(** ** Further theorems about the encoder and the decoder *)
(* ===================================================================== *)

Section CodecTheorems.

Import WavLayout WavFacts AtobFacts AtobRoundTrip AtobFailures CodecFacts.

(** X1.  For every payload of even length and all integers given as
    sample rate and channel count that keep the arithmetic exact (both of
    magnitude below 2^53, and so the block align and the byte rate),
    [createWavBlob] succeeds with type ["audio/wav"]; the tags, the
    constant fields and the payload are exact, and every numeric field
    reads back as its value modulo the width of the field (2^16 for
    channels and block align, 2^32 for the sizes, the sample rate and the
    byte rate). *)
Theorem createWavBlob_fields_wrap
        (P : list byte) (sampleRate numChannels : Z)
        (Heven : Nat.Even (length P))
        (Hexact : exact_numbers P sampleRate numChannels) :
  exists blob,
    createWavBlob P sampleRate numChannels = Ok blob
    /\ blob_type blob = "audio/wav"%string
    /\ wrapped_layout P sampleRate numChannels (blob_bytes blob).
Proof.
  eexists. split; [apply createWavBlob_even, Nat.even_spec, Heven|].
  split; [reflexivity|]. apply header_wrapped.
Qed.

Lemma createWavBlob_fields_wrap_witness :
  Nat.Even (length example_pcm)
  /\ exact_numbers example_pcm (-1) 65537
  /\ exists blob,
       createWavBlob example_pcm (-1) 65537 = Ok blob
       /\ blob_type blob = "audio/wav"%string
       /\ wrapped_layout example_pcm (-1) 65537 (blob_bytes blob).
Proof.
  assert (He : Nat.Even (length example_pcm)) by (exists 2%nat; reflexivity).
  assert (Hx : exact_numbers example_pcm (-1) 65537)
    by (split; cbn; lia).
  split; [exact He|]. split; [exact Hx|].
  exact (createWavBlob_fields_wrap example_pcm (-1) 65537 He Hx).
Defined.

(** X2.  [decode] does not need the padding: for every byte sequence [B],
    decoding the RFC 4648 encoding of [B] with its ["="] signs left out
    returns [B]. *)
Theorem decode_unpadded_roundtrip (B : list byte) :
  decode (base64_encode_unpadded B) = Ok B.
Proof.
  rewrite (decode_of_atob _ _ (atob_unpadded B)).
  f_equal. apply list_byte_of_string_of_list_byte.
Qed.

(** X3.  [decode] succeeds exactly when the characters left after
    removing ASCII whitespace and the trailing padding are all in the
    base64 alphabet and their number is not of the form 4k + 1; in every
    other case it throws [InvalidCharacterError] and nothing else. *)
Theorem decode_succeeds_iff (s : string) :
  (succeeds (decode s) <->
   (length (payload_chars s) mod 4 <> 1)%nat
   /\ Forall (fun c => in_alphabet c = true) (payload_chars s))
  /\ (~ succeeds (decode s) -> decode s = Throw InvalidCharacterError).
Proof.
  assert (Hcases :
            (decode s = Throw InvalidCharacterError
             /\ ~ ((length (payload_chars s) mod 4 <> 1)%nat
                   /\ Forall (fun c => in_alphabet c = true) (payload_chars s)))
            \/ (succeeds (decode s)
                /\ (length (payload_chars s) mod 4 <> 1)%nat
                /\ Forall (fun c => in_alphabet c = true) (payload_chars s))).
  { pose proof (atob_payload s) as Hatob.
    destruct (Nat.eqb_spec (length (payload_chars s) mod 4) 1) as [H1|H1].
    - left. split; [apply decode_throws_with_atob, Hatob|]. tauto.
    - destruct (forallb in_alphabet (payload_chars s)) eqn:Hall; cbn [negb] in Hatob.
      + right. split; [eexists; apply (decode_of_atob _ _ Hatob)|].
        split; [exact H1|]. apply Forall_forall.
        rewrite forallb_forall in Hall. exact Hall.
      + left. split; [apply decode_throws_with_atob, Hatob|].
        intros [_ HF]. rewrite Forall_forall in HF.
        assert (Htrue : forallb in_alphabet (payload_chars s) = true)
          by (apply forallb_forall; exact HF).
        congruence. }
  destruct Hcases as [[Hthrow Hnot]|[Hok Hcond]].
  - split; [|intros _; exact Hthrow].
    split; [|intros H; contradiction].
    intros [b Hb]. rewrite Hthrow in Hb. discriminate Hb.
  - split; [tauto|]. intros Hn. contradiction.
Qed.

Lemma decode_succeeds_iff_witness :
  succeeds (decode "TWE=") /\ decode "TWE" = Ok [Byte.x4d; Byte.x61]
  /\ decode "TWE=T" = Throw InvalidCharacterError.
Proof.
  split.
  - apply (proj1 (decode_succeeds_iff "TWE=")). split.
    + cbn. discriminate.
    + repeat constructor.
  - split; [vm_compute; reflexivity|].
    apply (proj2 (decode_succeeds_iff "TWE=T")).
    intros Hs. apply (proj1 (decode_succeeds_iff "TWE=T")) in Hs.
    destruct Hs as [Hlen _]. apply Hlen. reflexivity.
Defined.

(** X4.  When [decode] succeeds on [n] payload characters it returns
    exactly [3 * n / 4] bytes (rounded down); so the result is never
    longer than three quarters of the input string. *)
Theorem decode_length (s : string) (bytes : list byte)
        (Hok : decode s = Ok bytes) :
  length bytes = (3 * length (payload_chars s) / 4)%nat
  /\ (4 * length bytes <= 3 * String.length s)%nat.
Proof.
  pose proof (atob_payload s) as Hatob.
  assert (Hlen : length bytes = (3 * length (payload_chars s) / 4)%nat).
  { destruct (Nat.eqb_spec (length (payload_chars s) mod 4) 1) as [H1|H1].
    - rewrite (decode_throws_with_atob _ _ Hatob) in Hok. discriminate Hok.
    - destruct (forallb in_alphabet (payload_chars s)); cbn [negb] in Hatob.
      + rewrite (decode_of_atob _ _ Hatob) in Hok. inversion Hok; subst bytes.
        rewrite length_binary_string. apply Nat2Z.inj.
        rewrite length_flush; rewrite length_map.
        * rewrite Nat2Z.inj_div, Nat2Z.inj_mul. reflexivity.
        * intros Hm. apply H1. apply Nat2Z.inj.
          rewrite Nat2Z.inj_mod. exact Hm.
      + rewrite (decode_throws_with_atob _ _ Hatob) in Hok. discriminate Hok. }
  split; [exact Hlen|].
  pose proof (length_payload_chars s) as Hle.
  rewrite Hlen.
  pose proof (Nat.Div0.mul_div_le (3 * length (payload_chars s)) 4). lia.
Qed.

Lemma decode_length_witness :
  decode "AQACAA==" = Ok example_pcm
  /\ length example_pcm = (3 * length (payload_chars "AQACAA==") / 4)%nat
  /\ (4 * length example_pcm <= 3 * String.length "AQACAA==")%nat.
Proof.
  assert (H : decode "AQACAA==" = Ok example_pcm) by (vm_compute; reflexivity).
  split; [exact H|].
  exact (decode_length "AQACAA==" example_pcm H).
Defined.

(** X5.  Decoding and wrapping compose: for every byte sequence [B] of
    even length (with [36 + len B] below 2^32), decoding the base64
    encoding of [B] and wrapping the result at 24000 Hz, one channel,
    gives a container in the canonical layout whose payload is [B]. *)
Theorem decode_then_wrap_encoded (B : list byte)
        (Heven : Nat.Even (length B))
        (Hsize : 36 + Z.of_nat (length B) < 2 ^ 32) :
  exists blob,
    decode_then_wrap (base64_encode B) = Ok blob
    /\ canonical_layout B 24000 1 (blob_bytes blob)
    /\ header_format (blob_bytes blob) = Ok (24000, 1, 16).
Proof.
  unfold decode_then_wrap.
  rewrite (decode_of_atob _ _ (atob_base64_encode B)).
  rewrite list_byte_of_string_of_list_byte. cbn [Js.bind].
  rewrite (createWavBlob_even B 24000 1) by (apply Nat.even_spec, Heven).
  eexists. split; [reflexivity|]. cbn [blob_bytes].
  destruct (header_fields (Z.of_nat (length B)) 24000 1 B).
  split.
  - split; try assumption;
      match goal with
      | H : ?l = Ok (le_combine _) |- ?l = Ok _ => rewrite H; f_equal
      end;
      first [apply le_combine_u32 | apply le_combine_u16]; lia.
  - unfold header_format. rewrite fa_rate0, fa_nch0, fa_bits0. reflexivity.
Qed.

Lemma decode_then_wrap_encoded_witness :
  Nat.Even (length example_pcm)
  /\ exists blob,
       decode_then_wrap (base64_encode example_pcm) = Ok blob
       /\ canonical_layout example_pcm 24000 1 (blob_bytes blob)
       /\ header_format (blob_bytes blob) = Ok (24000, 1, 16).
Proof.
  assert (He : Nat.Even (length example_pcm)) by (exists 2%nat; reflexivity).
  split; [exact He|].
  apply (decode_then_wrap_encoded example_pcm He). cbn. lia.
Defined.

End CodecTheorems.

(* ===================================================================== *)
(** ** Theorems about reading the file and about the synthesis client *)
(* ===================================================================== *)

Section UploadTheorems.

Import AtobFacts AtobRoundTrip UploadFacts ServiceFacts.
Local Open Scope string_scope.

(** X6.  [fileToBase64] leaves the state alone and resolves with the
    file's type and the text between the first and the second comma of
    the reader's data URL: the whole rest when there is one comma, only
    its first piece when there are more, and the absent value when the
    URL has no comma. *)
Theorem fileToBase64_payload
        (host : Host) (file : File) (s : Sys) (head payload : string)
        (Hhead : comma_free head) (Hpayload : comma_free payload) :
  (readAsDataURL host file = Some (head ++ "," ++ payload) ->
   fileToBase64 host file s = (Ok (Some payload, file_type file), s))
  /\ (forall more,
         readAsDataURL host file = Some (head ++ "," ++ payload ++ "," ++ more) ->
         fileToBase64 host file s = (Ok (Some payload, file_type file), s))
  /\ (readAsDataURL host file = Some head ->
      fileToBase64 host file s = (Ok (None, file_type file), s)).
Proof.
  unfold fileToBase64, ret. repeat split.
  - intros ->. change (head ++ "," ++ payload) with (head ++ String ","%char payload).
    rewrite (split_comma_at _ _ Hhead), (split_comma_free _ Hpayload). reflexivity.
  - intros more ->.
    change (head ++ "," ++ payload ++ "," ++ more)
      with (head ++ String ","%char (payload ++ String ","%char more)).
    rewrite (split_comma_at _ _ Hhead), (split_comma_at _ _ Hpayload). reflexivity.
  - intros ->. rewrite (split_comma_free _ Hhead). reflexivity.
Qed.

Lemma fileToBase64_payload_witness :
  fileToBase64 good_host clip initial = (Ok (Some "AAAA", "audio/mpeg"), initial).
Proof.
  refine (proj1 (fileToBase64_payload good_host clip initial
                   "data:audio/mpeg;base64" "AAAA" _ _) eq_refl);
    repeat constructor.
Defined.

(** X7.  On a host whose reader produces the standard data URL of the
    file, and for a file whose type holds no comma, [fileToBase64]
    resolves with base64 data that [decode] turns back into the bytes of
    the file. *)
Theorem fileToBase64_carries_file
        (host : Host) (file : File) (s : Sys)
        (Htype : comma_free (file_type file))
        (Hreader : readAsDataURL host file = Some (data_url file)) :
  exists data,
    fileToBase64 host file s = (Ok (Some data, file_type file), s)
    /\ decode data = Ok (file_bytes file).
Proof.
  exists (base64_encode (file_bytes file)). split.
  - unfold fileToBase64, ret. rewrite Hreader. unfold data_url.
    assert (Hsplit : "data:" ++ file_type file ++ ";base64,"
                              ++ base64_encode (file_bytes file)
                     = ("data:" ++ file_type file ++ ";base64")
                         ++ String ","%char (base64_encode (file_bytes file))).
    { cbn [append]. f_equal. f_equal. f_equal. f_equal. f_equal.
      generalize (file_type file) as ty.
      induction ty as [|c ty IH]; [reflexivity|].
      cbn [append]. rewrite IH. reflexivity. }
    rewrite Hsplit, split_comma_at, (split_comma_free _ (comma_free_base64 _)).
    + reflexivity.
    + apply (comma_free_append "data:"); [repeat constructor|].
      apply comma_free_append; [exact Htype | repeat constructor].
  - rewrite (decode_of_atob _ _ (atob_base64_encode (file_bytes file))).
    f_equal. apply list_byte_of_string_of_list_byte.
Qed.

Lemma fileToBase64_carries_file_witness :
  exists data,
    fileToBase64 (reading_host (service good_host)) clip initial
    = (Ok (Some data, "audio/mpeg"), initial)
    /\ decode data = Ok [Byte.x00; Byte.x00; Byte.x00].
Proof.
  apply (fileToBase64_carries_file (reading_host (service good_host)) clip initial);
    [repeat constructor | reflexivity].
Defined.

(** X8.  [generateSpeechFromText] throws the configuration error when the
    API key is missing or empty, and then no call goes out; with a key it
    makes exactly one call, with the text ["Please say the following: "]
    followed by its argument, and throws what the provider throws; on a
    response it returns the inline data of the first part of the first
    candidate and looks at no other part or candidate. *)
Theorem generateSpeechFromText_outcomes
        (env : Env) (t : maybe_string) (n : Network) :
  (truthy (API_KEY env) = false ->
   generateSpeechFromText env t n = (Throw missing_key, n))
  /\ (truthy (API_KEY env) = true ->
      forall e,
        provider env (calls n) (speech_request t) = Throw e ->
        generateSpeechFromText env t n = (Throw e, sent n (speech_request t)))
  /\ (truthy (API_KEY env) = true ->
      forall response c cs p ps,
        provider env (calls n) (speech_request t) = Ok response ->
        candidates response = Some (c :: cs) ->
        content c = Some {| parts := Some (p :: ps) |} ->
        generateSpeechFromText env t n =
        (Ok (andThen (inlineData p) data), sent n (speech_request t))).
Proof.
  split; [apply speech_without_key|].
  split; intros Hkey.
  - intros e He. rewrite (speech_with_key _ _ _ Hkey), He. reflexivity.
  - intros response c cs p ps Hr Hc Hp.
    rewrite (speech_with_key _ _ _ Hkey), Hr.
    unfold first_inline_data. rewrite Hc. cbn [first_of nth_error andThen].
    rewrite Hp. reflexivity.
Qed.

Lemma generateSpeechFromText_outcomes_witness :
  (generateSpeechFromText (service keyless_host) (Some "hello") no_calls
   = (Throw missing_key, no_calls))
  /\ (generateSpeechFromText (service (host_of (Some "secret") failing_provider))
        (Some "hello") no_calls
      = (Throw (JsError "ApiError" "fetch failed"),
         sent no_calls (speech_request (Some "hello"))))
  /\ (generateSpeechFromText
        (service (host_of (Some "secret") (fun _ _ => Ok audio_second_response)))
        (Some "hello") no_calls
      = (Ok None, sent no_calls (speech_request (Some "hello")))).
Proof.
  split; [|split].
  - exact (proj1 (generateSpeechFromText_outcomes
                    (service keyless_host) (Some "hello") no_calls) eq_refl).
  - exact (proj1 (proj2 (generateSpeechFromText_outcomes
                           (service (host_of (Some "secret") failing_provider))
                           (Some "hello") no_calls)) eq_refl _ eq_refl).
  - exact (proj2 (proj2 (generateSpeechFromText_outcomes
                           (service (host_of (Some "secret")
                                             (fun _ _ => Ok audio_second_response)))
                           (Some "hello") no_calls))
                 eq_refl _ _ _ _ _ eq_refl eq_refl eq_refl).
Defined.

End UploadTheorems.

(* ===================================================================== *)
(** ** Theorems about file selection *)
(* ===================================================================== *)

Section SelectionTheorems.

Import HandlerFacts UrlCounting.
Local Open Scope string_scope.

(** X9.  From any state, [handleFileChange] returns without throwing;
    it stores the file and a fresh object URL for it, clears the
    transcript, the output URL and the error, and leaves the loading
    flag, the progress message, the network and the console as they
    were. *)
Theorem handleFileChange_result (file : File) (s : Sys) :
  fst (handleFileChange file s) = Ok tt
  /\ let s' := snd (handleFileChange file s) in
     inputAudioFile (ui s') = Some file
     /\ inputAudioUrl (ui s') = Some (next (browser s))
     /\ transcript (ui s') = Some ""
     /\ outputAudioUrl (ui s') = None
     /\ error (ui s') = None
     /\ isLoading (ui s') = isLoading (ui s)
     /\ progressMessage (ui s') = progressMessage (ui s)
     /\ net (browser s') = net (browser s)
     /\ console (browser s') = console (browser s)
     /\ next (browser s') = S (next (browser s)).
Proof.
  rewrite handleFileChange_effect. split; [reflexivity|]. cbn [snd].
  repeat split.
Qed.

(** X10.  After [handleFileChange] the live object URLs are exactly the
    fresh one and those that were live before and are neither the input
    URL nor the output URL of the previous state: both URLs of the state
    are revoked, and nothing else is. *)
Theorem handleFileChange_live (file : File) (s : Sys) (u : ObjectURL) :
  In u (live (browser (snd (handleFileChange file s))))
  <-> u = next (browser s)
      \/ (In u (live (browser s))
          /\ inputAudioUrl (ui s) <> Some u
          /\ outputAudioUrl (ui s) <> Some u).
Proof.
  rewrite handleFileChange_effect. cbn [snd after_selection browser live In].
  rewrite !in_revoked. split.
  - intros [Heq|[[Hin Hi] Ho]]; [left; symmetry; exact Heq|right; tauto].
  - intros [Heq|(Hin & Hi & Ho)]; [left; symmetry; exact Heq|right; tauto].
Qed.

(** X11.  When every live URL is older than the next one to be handed
    out, [handleFileChange] leaks nothing: the live URLs that no state
    cell refers to are the same after it as before. *)
Theorem handleFileChange_no_leak (file : File) (s : Sys)
        (Hfresh : Forall (fun u => (u < next (browser s))%nat) (live (browser s))) :
  leaked (snd (handleFileChange file s)) = leaked s.
Proof.
  rewrite handleFileChange_effect. cbn [snd]. unfold leaked at 1.
  cbn [after_selection ui browser live]. unfold in_use at 1.
  cbn [inputAudioUrl outputAudioUrl filter].
  rewrite Nat.eqb_refl. cbn [orb negb].
  rewrite revoked_both_leaked. fold (leaked s).
  apply filter_all. apply Forall_forall. intros x Hx.
  unfold leaked in Hx. apply filter_In in Hx. destruct Hx as [Hx _].
  rewrite Forall_forall in Hfresh. specialize (Hfresh x Hx).
  rewrite orb_false_r. apply negb_true_iff, Nat.eqb_neq. lia.
Qed.

Lemma handleFileChange_no_leak_witness :
  leaked (snd (handleFileChange clip
                 (run good_host [SelectFile clip; ProcessAudio] initial)))
  = leaked (run good_host [SelectFile clip; ProcessAudio] initial).
Proof.
  apply (handleFileChange_no_leak clip
           (run good_host [SelectFile clip; ProcessAudio] initial)).
  vm_compute. repeat constructor.
Defined.

End SelectionTheorems.

(* ===================================================================== *)
(** ** Theorems about one processing run *)
(* ===================================================================== *)

Section ProcessTheorems.

Import WavLayout RunFacts ServiceFacts HandlerFacts.
Local Open Scope string_scope.

(** X12.  A run with a file selected ends without an error exactly when
    every stage goes through: the file is read, the transcription
    returns, the synthesis returns non-empty audio that decodes to PCM of
    even length.  It then holds the transcript, stores as output the one
    object URL it created, leaves the network as the synthesis call left
    it, writes nothing to the console, and clears loading and progress. *)
Theorem run_succeeds_iff (host : Host) (s : Sys) (file : File)
        (Hfile : inputAudioFile (ui s) = Some file) :
  let s' := snd (handleProcessAudio host s) in
  (error (ui s') = None <-> exists t n2, stages_succeed host file s t n2)
  /\ forall t n2,
       stages_succeed host file s t n2 ->
       transcript (ui s') = t
       /\ outputAudioUrl (ui s') = Some (next (browser s))
       /\ live (browser s') = next (browser s) :: live (browser s)
       /\ next (browser s') = S (next (browser s))
       /\ net (browser s') = n2
       /\ console (browser s') = console (browser s)
       /\ isLoading (ui s') = false
       /\ progressMessage (ui s') = "".
Proof.
  rewrite (handleProcessAudio_outcome host s file Hfile). cbn [snd]. split.
  - split; [apply run_outcome_no_error|].
    intros (t & n2 & Hs). rewrite (run_outcome_success _ _ _ _ _ Hs). reflexivity.
  - intros t n2 Hs. rewrite (run_outcome_success _ _ _ _ _ Hs). repeat split.
Qed.

Lemma run_succeeds_iff_witness :
  inputAudioFile (ui (selected good_host)) = Some clip
  /\ error (ui (snd (handleProcessAudio good_host (selected good_host)))) = None
  /\ transcript (ui (snd (handleProcessAudio good_host (selected good_host))))
     = Some "hello"
  /\ outputAudioUrl (ui (snd (handleProcessAudio good_host (selected good_host))))
     = Some 1%nat.
Proof.
  assert (Hs : stages_succeed good_host clip (selected good_host) (Some "hello")
                 (sent (sent no_calls (transcribe_request (Some "AAAA") "audio/mpeg"))
                       (speech_request (Some "hello")))).
  { exists "data:audio/mpeg;base64,AAAA",
      (sent no_calls (transcribe_request (Some "AAAA") "audio/mpeg")),
      "AQACAA==", example_pcm.
    repeat split; try reflexivity; [discriminate|exists 2%nat; reflexivity]. }
  destruct (run_succeeds_iff good_host (selected good_host) clip eq_refl)
    as [Hiff Hpost].
  split; [reflexivity|].
  split; [apply (proj2 Hiff); eexists; eexists; exact Hs|].
  destruct (Hpost _ _ Hs) as (Ht & Ho & _). split; [exact Ht|exact Ho].
Defined.

(** X13.  With a file selected and readable but no API key (missing or
    empty), the run makes no call to the provider and creates no URL; it
    ends with the error ["Processing failed: API_KEY environment variable
    not set"], an empty transcript and no output URL. *)
Theorem run_without_key (host : Host) (s : Sys) (file : File) (url : string)
        (Hfile : inputAudioFile (ui s) = Some file)
        (Hread : readAsDataURL host file = Some url)
        (Hkey : truthy (API_KEY (service host)) = false) :
  let s' := snd (handleProcessAudio host s) in
  error (ui s') = Some "Processing failed: API_KEY environment variable not set"
  /\ net (browser s') = net (browser s)
  /\ live (browser s') = live (browser s)
  /\ transcript (ui s') = Some ""
  /\ outputAudioUrl (ui s') = None
  /\ isLoading (ui s') = false.
Proof.
  rewrite (handleProcessAudio_outcome host s file Hfile). cbn [snd].
  unfold run_outcome. rewrite Hread, (transcript_without_key _ _ _ _ Hkey).
  repeat split.
Qed.

Lemma run_without_key_witness :
  let s' := snd (handleProcessAudio keyless_host (selected keyless_host)) in
  error (ui s') = Some "Processing failed: API_KEY environment variable not set"
  /\ net (browser s') = net (browser (selected keyless_host))
  /\ live (browser s') = live (browser (selected keyless_host))
  /\ transcript (ui s') = Some ""
  /\ outputAudioUrl (ui s') = None
  /\ isLoading (ui s') = false.
Proof.
  exact (run_without_key keyless_host (selected keyless_host) clip
           "data:audio/mpeg;base64,AAAA" eq_refl eq_refl eq_refl).
Defined.

(** X14.  When the file reader fails, the promise of [fileToBase64]
    rejects with a value that is not an [Error]; the run then makes no
    call to the provider, reports ["Processing failed: An unknown error
    occurred."], logs the rejected value to the console, and leaves an
    empty transcript and no output URL. *)
Theorem run_reader_error (host : Host) (s : Sys) (file : File)
        (Hfile : inputAudioFile (ui s) = Some file)
        (Hread : readAsDataURL host file = None) :
  let s' := snd (handleProcessAudio host s) in
  error (ui s') = Some "Processing failed: An unknown error occurred."
  /\ calls (net (browser s')) = calls (net (browser s))
  /\ console (browser s') = (console (browser s) ++ [NonError "ProgressEvent"])%list
  /\ live (browser s') = live (browser s)
  /\ transcript (ui s') = Some ""
  /\ outputAudioUrl (ui s') = None
  /\ isLoading (ui s') = false.
Proof.
  rewrite (handleProcessAudio_outcome host s file Hfile). cbn [snd].
  unfold run_outcome. rewrite Hread. repeat split.
Qed.

Lemma run_reader_error_witness :
  let s' := snd (handleProcessAudio unreadable_host (selected unreadable_host)) in
  error (ui s') = Some "Processing failed: An unknown error occurred."
  /\ calls (net (browser s')) = calls (net (browser (selected unreadable_host)))
  /\ console (browser s')
     = (console (browser (selected unreadable_host)) ++ [NonError "ProgressEvent"])%list
  /\ live (browser s') = live (browser (selected unreadable_host))
  /\ transcript (ui s') = Some ""
  /\ outputAudioUrl (ui s') = None
  /\ isLoading (ui s') = false.
Proof.
  exact (run_reader_error unreadable_host (selected unreadable_host) clip
           eq_refl eq_refl).
Defined.

(** X15.  With a key and a readable file: when the provider rejects the
    transcription call with an [Error], the run stops there, so that the
    transcription request is the only call, the error shown is the
    provider's message after ["Processing failed: "], and the transcript
    is empty; when the transcription returns [t] and the provider rejects
    the synthesis call, both calls went out in that order, the error is
    again the provider's message, and the transcript [t] is kept. *)
Theorem run_provider_failure
        (host : Host) (s : Sys) (file : File) (url : string)
        (name message : string)
        (Hfile : inputAudioFile (ui s) = Some file)
        (Hread : readAsDataURL host file = Some url)
        (Hkey : truthy (API_KEY (service host)) = true) :
  let s' := snd (handleProcessAudio host s) in
  let first := transcribe_request (nth_error (split_comma url) 1) (file_type file) in
  (provider (service host) (calls (net (browser s))) first
   = Throw (JsError name message) ->
   calls (net (browser s')) = (calls (net (browser s)) ++ [first])%list
   /\ error (ui s') = Some ("Processing failed: " ++ message)
   /\ transcript (ui s') = Some ""
   /\ outputAudioUrl (ui s') = None)
  /\ (forall response,
         provider (service host) (calls (net (browser s))) first = Ok response ->
         provider (service host) (calls (net (browser s)) ++ [first])%list
                  (speech_request (text response))
         = Throw (JsError name message) ->
         calls (net (browser s'))
         = (calls (net (browser s)) ++ [first; speech_request (text response)])%list
         /\ error (ui s') = Some ("Processing failed: " ++ message)
         /\ transcript (ui s') = text response
         /\ outputAudioUrl (ui s') = None).
Proof.
  rewrite (handleProcessAudio_outcome host s file Hfile). cbn [snd]. cbv zeta.
  unfold run_outcome. rewrite Hread, (transcript_with_key _ _ _ _ Hkey). split.
  - intros ->. repeat split.
  - intros response -> Hspeech.
    rewrite (speech_with_key _ _ _ Hkey). cbn [sent calls]. rewrite Hspeech.
    cbn [failed ui browser ended logged with_net net calls error transcript
         outputAudioUrl failure_text message_of].
    unfold sent. cbn [calls]. rewrite <- app_assoc. repeat split.
Qed.

Lemma run_provider_failure_witness :
  let s' := snd (handleProcessAudio offline_host (selected offline_host)) in
  calls (net (browser s')) = [transcribe_request (Some "AAAA") "audio/mpeg"]
  /\ error (ui s') = Some "Processing failed: fetch failed"
  /\ transcript (ui s') = Some ""
  /\ outputAudioUrl (ui s') = None.
Proof.
  exact (proj1 (run_provider_failure offline_host (selected offline_host) clip
                  "data:audio/mpeg;base64,AAAA" "ApiError" "fetch failed"
                  eq_refl eq_refl eq_refl) eq_refl).
Defined.

(** X16.  Whatever the host does, one call of [handleProcessAudio] keeps
    the calls made so far and adds none, or the transcription request
    alone, or the transcription request followed by the synthesis
    request: never more than two calls, and never a synthesis call that
    is not preceded by the transcription call of the same run. *)
Theorem process_calls (host : Host) (s : Sys) :
  exists new,
    calls (net (browser (snd (handleProcessAudio host s))))
    = (calls (net (browser s)) ++ new)%list
    /\ (new = []
        \/ (exists data mime, new = [transcribe_request data mime])
        \/ (exists data mime t,
               new = [transcribe_request data mime; speech_request t])).
Proof.
  destruct (inputAudioFile (ui s)) as [file|] eqn:Hfile.
  2:{ rewrite (handleProcessAudio_no_file host s Hfile).
      exists []. split; [symmetry; apply app_nil_r|left; reflexivity]. }
  rewrite (handleProcessAudio_outcome host s file Hfile). cbn [snd].
  destruct (run_outcome_net host file s) as [->|(url & _ & Hnet)].
  { exists []. split; [symmetry; apply app_nil_r|left; reflexivity]. }
  cbv zeta in Hnet.
  destruct (truthy (API_KEY (service host))) eqn:Hkey.
  - rewrite (transcript_with_key _ _ _ _ Hkey) in Hnet. cbn [fst snd] in Hnet.
    destruct Hnet as [[-> _]|(t & _ & ->)].
    + eexists. split; [reflexivity|]. right. left. eauto.
    + rewrite (speech_with_key _ _ _ Hkey). cbn [snd sent calls].
      eexists. split; [rewrite <- app_assoc; reflexivity|]. right. right.
      do 3 eexists. reflexivity.
  - rewrite (transcript_without_key _ _ _ _ Hkey) in Hnet. cbn [fst snd] in Hnet.
    destruct Hnet as [[-> _]|(t & Ht & _)]; [|discriminate Ht].
    exists []. split; [symmetry; apply app_nil_r|left; reflexivity].
Qed.

(** X17.  Whatever the host does, [handleProcessAudio] returns without
    throwing and never changes the selected file or its URL; it either
    creates no object URL and ends with no output URL (or, with no file
    selected, with the state it started from), or creates exactly one and
    stores it as the output URL. *)
Theorem process_frame (host : Host) (s : Sys) :
  fst (handleProcessAudio host s) = Ok tt
  /\ let s' := snd (handleProcessAudio host s) in
     inputAudioFile (ui s') = inputAudioFile (ui s)
     /\ inputAudioUrl (ui s') = inputAudioUrl (ui s)
     /\ ((live (browser s') = live (browser s)
          /\ next (browser s') = next (browser s)
          /\ (outputAudioUrl (ui s') = None \/ s' = s))
         \/ (live (browser s') = next (browser s) :: live (browser s)
             /\ next (browser s') = S (next (browser s))
             /\ outputAudioUrl (ui s') = Some (next (browser s)))).
Proof.
  destruct (inputAudioFile (ui s)) as [file|] eqn:Hfile.
  2:{ rewrite (handleProcessAudio_no_file host s Hfile).
      split; [reflexivity|]. cbn [snd]. repeat split; [exact Hfile|].
      left. repeat split. right. reflexivity. }
  rewrite (handleProcessAudio_outcome host s file Hfile).
  split; [reflexivity|]. cbn [snd]. unfold run_outcome.
  destruct (readAsDataURL host file) as [url|];
    [|repeat split; [exact Hfile|]; left; repeat split; left; reflexivity].
  destruct (generateTranscriptFromAudio _ _ _ _) as [[t|e] n1];
    [|repeat split; [exact Hfile|]; left; repeat split; left; reflexivity].
  destruct (generateSpeechFromText _ _ _) as [[audio|e] n2];
    [|repeat split; [exact Hfile|]; left; repeat split; left; reflexivity].
  destruct (truthy audio);
    [|repeat split; [exact Hfile|]; left; repeat split; left; reflexivity].
  destruct (decode (template audio)) as [pcm|e];
    [|repeat split; [exact Hfile|]; left; repeat split; left; reflexivity].
  destruct (createWavBlob pcm 24000 1) as [blob|e];
    [|repeat split; [exact Hfile|]; left; repeat split; left; reflexivity].
  repeat split; [exact Hfile|]. right. repeat split.
Qed.

(** X18.  With a key and a readable file, when the provider answers the
    transcription call with a response that carries no text, the run goes
    on: the transcript cell holds the absent value and the synthesis call
    goes out asking to say ["undefined"]. *)
Theorem run_undefined_transcript
        (host : Host) (s : Sys) (file : File) (url : string)
        (response : GenerateContentResponse)
        (Hfile : inputAudioFile (ui s) = Some file)
        (Hread : readAsDataURL host file = Some url)
        (Hkey : truthy (API_KEY (service host)) = true)
        (Hresponse :
           provider (service host) (calls (net (browser s)))
             (transcribe_request (nth_error (split_comma url) 1) (file_type file))
           = Ok response)
        (Hnone : text response = None) :
  let s' := snd (handleProcessAudio host s) in
  transcript (ui s') = None
  /\ calls (net (browser s'))
     = (calls (net (browser s))
        ++ [transcribe_request (nth_error (split_comma url) 1) (file_type file);
            SpeechRequest "gemini-2.5-flash-preview-tts"
              "Please say the following: undefined" ["AUDIO"] "Kore"])%list.
Proof.
  rewrite (handleProcessAudio_outcome host s file Hfile). cbn [snd].
  unfold run_outcome.
  rewrite Hread, (transcript_with_key _ _ _ _ Hkey), Hresponse, Hnone.
  rewrite (speech_with_key _ _ _ Hkey). cbn [sent calls].
  change (speech_request None)
    with (SpeechRequest "gemini-2.5-flash-preview-tts"
            "Please say the following: undefined" ["AUDIO"] "Kore").
  assert (Hdone : forall (A : Type) (x y : A) (l : list A),
             ((l ++ [x]) ++ [y] = l ++ [x; y])%list)
    by (intros; rewrite <- app_assoc; reflexivity).
  destruct (provider (service host) _ (SpeechRequest _ _ _ _)) as [r|e];
    cbn [fst snd]; [|split; [reflexivity|apply Hdone]].
  destruct (truthy (first_inline_data r));
    [|split; [reflexivity|apply Hdone]].
  destruct (decode _) as [pcm|e]; [|split; [reflexivity|apply Hdone]].
  destruct (createWavBlob pcm 24000 1);
    (split; [reflexivity|apply Hdone]).
Qed.

Lemma run_undefined_transcript_witness :
  let s' := snd (handleProcessAudio empty_host (selected empty_host)) in
  transcript (ui s') = None
  /\ calls (net (browser s'))
     = [transcribe_request (Some "AAAA") "audio/mpeg";
        SpeechRequest "gemini-2.5-flash-preview-tts"
          "Please say the following: undefined" ["AUDIO"] "Kore"].
Proof.
  exact (run_undefined_transcript empty_host (selected empty_host) clip
           "data:audio/mpeg;base64,AAAA" (transcript_response None)
           eq_refl eq_refl eq_refl eq_refl eq_refl).
Defined.

End ProcessTheorems.

(* ===================================================================== *)
(** ** Theorems about sequences of user actions *)
(* ===================================================================== *)

Section SequenceTheorems.

Import RunFacts HandlerFacts UrlCounting InvariantFacts AsyncFacts.
Local Open Scope string_scope.

(** X19.  At every moment of every history of the page, on any host:
    files selected in the dialog or dropped on the uploader, also while a
    run is in flight, clicks on the button, and the awaited promises
    settling, in any order from a fresh page.  The URLs in the state are
    live (no cell holds a revoked URL) and differ from each other, there
    is an input URL exactly when there is a file, an output URL only with
    an input URL, every live URL is older than the next one and occurs
    once.  The component is loading exactly while a run is in flight;
    while one is, a file is selected and neither an output URL nor an
    error is set; while none is, no progress message is shown.  An error,
    when set, reads ["Processing failed: ..."]. *)
Theorem page_always_sound (host : Host) (acts : list Action) :
  sound (play host acts fresh).
Proof. apply sound_play, sound_fresh. Qed.

(** A file dropped while the transcription is awaited: the run goes on,
    and ends with the new file selected beside the transcript and the
    audio of the old one. *)
Example drop_during_run :
  let page := play good_host
                [Select clip; Click; Settle; Select other_clip; Settle; Settle]
                fresh in
  pending page = None
  /\ inputAudioFile (ui (sys page)) = Some other_clip
  /\ inputAudioUrl (ui (sys page)) = Some 1%nat
  /\ transcript (ui (sys page)) = Some "hello"
  /\ outputAudioUrl (ui (sys page)) = Some 2%nat
  /\ isLoading (ui (sys page)) = false
  /\ live (browser (sys page)) = [2; 1]%nat.
Proof. vm_compute. repeat split. Qed.

(** X20.  In a state that holds a file, whose live URLs occur once and
    are older than the next one, and whose output URL, if any, is live
    and is not the input URL: one more processing run, whatever its
    outcome, adds to the leaked URLs exactly the previous output URL.  A
    URL is leaked after the run exactly when it was leaked before or was
    the output URL; the output URL was not leaked before; so the number
    of leaked URLs grows by one when the state held an output URL, and
    stays the same when it held none. *)
Theorem process_leaks_exactly (host : Host) (s : Sys) (file : File)
        (Hfile : inputAudioFile (ui s) = Some file)
        (Hlive : forall u, outputAudioUrl (ui s) = Some u ->
                           In u (live (browser s)))
        (Hdistinct : forall u, outputAudioUrl (ui s) = Some u ->
                               inputAudioUrl (ui s) <> Some u)
        (Hfresh : Forall (fun u => (u < next (browser s))%nat) (live (browser s)))
        (Honce : NoDup (live (browser s))) :
  let s' := snd (handleProcessAudio host s) in
  (forall v, In v (leaked s')
             <-> In v (leaked s) \/ outputAudioUrl (ui s) = Some v)
  /\ (forall v, outputAudioUrl (ui s) = Some v -> ~ In v (leaked s))
  /\ length (leaked s')
     = (length (leaked s)
        + if present (outputAudioUrl (ui s)) then 1 else 0)%nat.
Proof.
  cbv zeta.
  rewrite (handleProcessAudio_outcome host s file Hfile). cbn [snd].
  rewrite (leaked_after_run host file s Hfresh).
  split; [|split].
  - intros v. rewrite in_all_but_input, in_leaked. split.
    + intros [Hin Hne].
      destruct (outputAudioUrl (ui s)) as [o|] eqn:Ho.
      * destruct (Nat.eq_dec o v) as [->|Hov]; [right; reflexivity|].
        left. repeat split; try assumption. congruence.
      * left. repeat split; try assumption. discriminate.
    + intros [(Hin & Hne & _)|Hout]; [split; assumption|].
      split; [apply Hlive, Hout|apply Hdistinct, Hout].
  - intros v Hout Hin. apply in_leaked in Hin.
    destruct Hin as (_ & _ & Hne). apply Hne, Hout.
  - apply leaked_before_run; assumption.
Qed.

Lemma process_leaks_exactly_witness :
  let s := run good_host [SelectFile clip; ProcessAudio] initial in
  let s' := snd (handleProcessAudio good_host s) in
  outputAudioUrl (ui s) = Some 1%nat
  /\ (forall v, In v (leaked s')
                <-> In v (leaked s) \/ outputAudioUrl (ui s) = Some v)
  /\ (forall v, outputAudioUrl (ui s) = Some v -> ~ In v (leaked s))
  /\ length (leaked s')
     = (length (leaked s)
        + if present (outputAudioUrl (ui s)) then 1 else 0)%nat.
Proof.
  cbv zeta. split; [vm_compute; reflexivity|].
  apply (process_leaks_exactly good_host
           (run good_host [SelectFile clip; ProcessAudio] initial) clip).
  - vm_compute; reflexivity.
  - intros u Hu. vm_compute in Hu. injection Hu as <-. vm_compute. auto.
  - intros u Hu. vm_compute in Hu. injection Hu as <-. vm_compute. discriminate.
  - vm_compute. repeat constructor.
  - vm_compute. repeat constructor; intros H; cbn in H; intuition discriminate.
Defined.

(** X27.  From a state that is not loading, a click followed by the
    three awaited promises settling, with nothing dropped meanwhile,
    leaves the state [handleProcessAudio] computes as one function, and no
    run in flight. *)
Theorem uninterrupted_run_agrees (host : Host) (s : Sys)
        (Hidle : isLoading (ui s) = false) :
  play host [Click; Settle; Settle; Settle] {| sys := s; pending := None |}
  = {| sys := snd (handleProcessAudio host s); pending := None |}.
Proof. apply uninterrupted_run, Hidle. Qed.

Lemma uninterrupted_run_agrees_witness :
  isLoading (ui (selected good_host)) = false
  /\ play good_host [Click; Settle; Settle; Settle]
       {| sys := selected good_host; pending := None |}
     = {| sys := snd (handleProcessAudio good_host (selected good_host));
          pending := None |}.
Proof.
  split; [reflexivity|].
  apply (uninterrupted_run_agrees good_host (selected good_host)). reflexivity.
Defined.

(** X21.  Selecting files one after the other, any number of times and
    without processing, never leaks: afterwards at most one object URL is
    live, no live URL is unreferenced, the state holds the last file
    selected, and no call went to the provider. *)
Theorem selections_never_leak (host : Host) (files : list File) :
  let s := run host (map SelectFile files) initial in
  leaked s = []
  /\ (length (live (browser s)) <= 1)%nat
  /\ inputAudioFile (ui s) = last (map Some files) None
  /\ outputAudioUrl (ui s) = None
  /\ calls (net (browser s)) = [].
Proof.
  cbv zeta.
  assert (H0 : only_input_live initial) by (repeat split).
  destruct (selections_run host files initial H0) as [(Ho & Hl & Hc) Hlast].
  repeat split; try assumption.
  - unfold leaked, in_use. rewrite Hl, Ho.
    destruct (inputAudioUrl (ui (run host (map SelectFile files) initial)));
      cbn [filter]; [rewrite Nat.eqb_refl|]; reflexivity.
  - rewrite Hl.
    destruct (inputAudioUrl (ui (run host (map SelectFile files) initial)));
      cbn [length]; lia.
Qed.

End SequenceTheorems.

(* ===================================================================== *)
(** ** Theorems about the uploader and about what is rendered *)
(* ===================================================================== *)

Section ViewTheorems.

Import WavLayout RunFacts HandlerFacts.
Local Open Scope string_scope.

(** X22.  The drop handler and the change handler of the uploader pass
    the first file of the list to [handleFileChange] and ignore the
    others; with no list or an empty list they leave the state as it is.
    Neither consults the [disabled] flag, so a drop is carried out on a
    loading state as well: the file is replaced and the transcript, the
    output URL and the error are cleared while the loading flag stays
    set. *)
Theorem uploader_selects_first (s : Sys) (flag : bool) :
  let props := {| onFileSelect := handleFileChange; disabled := flag |} in
  (forall file others,
      handleDrop props (Some (file :: others)) s = (Ok tt, after_selection file s)
      /\ handleChange props (Some (file :: others)) s
         = (Ok tt, after_selection file s))
  /\ handleDrop props None s = (Ok tt, s)
  /\ handleDrop props (Some []) s = (Ok tt, s)
  /\ handleChange props None s = (Ok tt, s)
  /\ handleChange props (Some []) s = (Ok tt, s)
  /\ (isLoading (ui s) = true ->
      forall file others,
        let s' := snd (handleDrop (uploader s) (Some (file :: others)) s) in
        isLoading (ui s') = true
        /\ inputAudioFile (ui s') = Some file
        /\ transcript (ui s') = Some ""
        /\ outputAudioUrl (ui s') = None
        /\ error (ui s') = None).
Proof.
  cbv zeta. unfold handleDrop, handleChange, uploader.
  cbn [first_of nth_error onFileSelect].
  split; [intros file others; rewrite handleFileChange_effect; split; reflexivity|].
  repeat split; try reflexivity;
    rewrite handleFileChange_effect; try reflexivity; assumption.
Qed.

Lemma uploader_selects_first_witness :
  isLoading (ui loading_state) = true
  /\ let s' := snd (handleDrop (uploader loading_state) (Some [clip; clip])
                      loading_state) in
     isLoading (ui s') = true
     /\ inputAudioFile (ui s') = Some clip
     /\ transcript (ui s') = Some ""
     /\ outputAudioUrl (ui s') = None
     /\ error (ui s') = None.
Proof.
  split; [reflexivity|].
  exact (proj2 (proj2 (proj2 (proj2 (proj2
           (uploader_selects_first loading_state true))))) eq_refl clip [clip]).
Defined.

(** X23.  After a file is selected on a state that is not loading, the
    page shows the enabled uploader, the preview of the new URL with the
    button enabled and neither spinner nor progress line, no error alert
    and no results section. *)
Theorem screen_after_selection (file : File) (s : Sys)
        (Hidle : isLoading (ui s) = false) :
  render (ui (snd (handleFileChange file s)))
  = {| uploaderDisabled := false;
       preview := Some {| previewSrc := next (browser s);
                          buttonDisabled := false;
                          spinner := false;
                          progressLine := None |};
       errorAlert := None;
       results := None |}.
Proof.
  rewrite handleFileChange_effect. cbn [snd after_selection ui].
  unfold render.
  cbn [isLoading inputAudioUrl progressMessage error transcript outputAudioUrl
       truthy present orb andb String.eqb negb].
  rewrite Hidle. reflexivity.
Qed.

Lemma screen_after_selection_witness :
  isLoading (ui initial) = false
  /\ render (ui (snd (handleFileChange clip initial)))
     = {| uploaderDisabled := false;
          preview := Some {| previewSrc := 0%nat; buttonDisabled := false;
                             spinner := false; progressLine := None |};
          errorAlert := None;
          results := None |}.
Proof.
  split; [reflexivity|].
  exact (screen_after_selection clip initial eq_refl).
Defined.

(** X24.  After a failed run the page shows the error alert with the
    message, and no player.  The results section appears exactly when the
    run had obtained a non-empty transcript before it failed, and then
    shows that transcript alone; the uploader and the button are enabled
    again. *)
Theorem screen_after_failed_run
        (host : Host) (s : Sys) (file : File) (u : ObjectURL) (m : string)
        (Hfile : inputAudioFile (ui s) = Some file)
        (Hurl : inputAudioUrl (ui s) = Some u)
        (Hfailed : error (ui (snd (handleProcessAudio host s))) = Some m) :
  render (ui (snd (handleProcessAudio host s)))
  = {| uploaderDisabled := false;
       preview := Some {| previewSrc := u; buttonDisabled := false;
                          spinner := false; progressLine := None |};
       errorAlert := Some m;
       results :=
         match transcript_obtained host file s with
         | Some t => if truthy t
                     then Some {| transcriptText := printed t; playerSrc := None |}
                     else None
         | None => None
         end |}.
Proof.
  revert Hfailed.
  rewrite (handleProcessAudio_outcome host s file Hfile). cbn [snd].
  unfold run_outcome, transcript_obtained.
  assert (Hfail : forall t n e,
             error (ui (failed s t n e)) = Some m ->
             render (ui (failed s t n e))
             = {| uploaderDisabled := false;
                  preview := Some {| previewSrc := u; buttonDisabled := false;
                                     spinner := false; progressLine := None |};
                  errorAlert := Some m;
                  results := if truthy t
                             then Some {| transcriptText := printed t;
                                          playerSrc := None |}
                             else None |}).
  { intros t n e He. unfold render.
    cbn [failed ended ui isLoading inputAudioUrl progressMessage error transcript
         outputAudioUrl present] in *.
    rewrite Hurl, He. unfold failure_text in He. inversion He; subst m.
    cbn [truthy append String.eqb negb]. rewrite orb_false_r, andb_true_r.
    reflexivity. }
  destruct (readAsDataURL host file) as [url|]; [|apply Hfail].
  destruct (generateTranscriptFromAudio _ _ _ _) as [[t|e] n1]; cbn [fst];
    [|apply Hfail].
  destruct (generateSpeechFromText _ _ _) as [[audio|e] n2]; [|apply Hfail].
  destruct (truthy audio); [|apply Hfail].
  destruct (decode (template audio)) as [pcm|e]; [|apply Hfail].
  destruct (createWavBlob pcm 24000 1) as [blob|e]; [|apply Hfail].
  intros Hfailed. discriminate Hfailed.
Qed.

Lemma screen_after_failed_run_witness :
  render (ui (snd (handleProcessAudio silent_host (selected silent_host))))
  = {| uploaderDisabled := false;
       preview := Some {| previewSrc := 0%nat; buttonDisabled := false;
                          spinner := false; progressLine := None |};
       errorAlert := Some "Processing failed: Failed to generate audio data.";
       results := Some {| transcriptText := "hello"; playerSrc := None |} |}.
Proof.
  exact (screen_after_failed_run silent_host (selected silent_host) clip 0%nat
           "Processing failed: Failed to generate audio data."
           eq_refl eq_refl eq_refl).
Defined.

(** X25.  After a run in which every stage went through, the page shows
    no error alert, and the results section with the transcript (nothing
    between the quotes when it is absent) and the player on the object
    URL the run created; the uploader and the button are enabled again. *)
Theorem screen_after_successful_run
        (host : Host) (s : Sys) (file : File) (u : ObjectURL)
        (t : maybe_string) (n2 : Network)
        (Hfile : inputAudioFile (ui s) = Some file)
        (Hurl : inputAudioUrl (ui s) = Some u)
        (Hstages : stages_succeed host file s t n2) :
  render (ui (snd (handleProcessAudio host s)))
  = {| uploaderDisabled := false;
       preview := Some {| previewSrc := u; buttonDisabled := false;
                          spinner := false; progressLine := None |};
       errorAlert := None;
       results := Some {| transcriptText := printed t;
                          playerSrc := Some (next (browser s)) |} |}.
Proof.
  rewrite (handleProcessAudio_outcome host s file Hfile). cbn [snd].
  rewrite (run_outcome_success _ _ _ _ _ Hstages). unfold render.
  cbn [ended ui isLoading inputAudioUrl progressMessage error transcript
       outputAudioUrl present truthy].
  rewrite Hurl, orb_true_r. reflexivity.
Qed.

Lemma screen_after_successful_run_witness :
  render (ui (snd (handleProcessAudio good_host (selected good_host))))
  = {| uploaderDisabled := false;
       preview := Some {| previewSrc := 0%nat; buttonDisabled := false;
                          spinner := false; progressLine := None |};
       errorAlert := None;
       results := Some {| transcriptText := "hello"; playerSrc := Some 1%nat |} |}.
Proof.
  apply (screen_after_successful_run good_host (selected good_host) clip 0%nat
           (Some "hello")
           (sent (sent no_calls (transcribe_request (Some "AAAA") "audio/mpeg"))
                 (speech_request (Some "hello"))));
    try reflexivity.
  exists "data:audio/mpeg;base64,AAAA",
    (sent no_calls (transcribe_request (Some "AAAA") "audio/mpeg")),
    "AQACAA==", example_pcm.
  repeat split; try reflexivity; [discriminate|exists 2%nat; reflexivity].
Defined.

End ViewTheorems.
